(** * qb_timesheets: a shallow embedding of [qb_timesheets.py]

    The development follows the Python module function by function:
    [parse_qb], [create_chart], [write_csv] and [process_files] keep their
    names, and the library calls they rely on ([str.startswith], slicing,
    [float], [repr], [sorted], [csv.DictReader], [csv.writer],
    [os.path.splitext], [os.path.join], [os.walk]) are modelled next to
    them.

    Conventions.
    - A Python [str] is a [string]; a character is a code point below 256.
    - A Python [float] is an IEEE 754 binary64 number, a [spec_float]
      with precision 53 and maximal exponent 1024.
    - A Python [dict] keeps insertion order (CPython 3.7 and later), so
      [days] is an association list with unique keys.
    - An exception is a value of [exn]; code that can raise returns a
      [result].
    - The file system is POSIX, without symbolic links, and every file a
      directory lists can be opened; text is written without newline
      translation. *)

From Stdlib Require Import ZArith List String Ascii Bool Lia.
From Stdlib Require Import Permutation Sorted.
From Stdlib Require Import Floats.SpecFloat.
Import ListNotations.

Local Open Scope string_scope.
Local Open Scope Z_scope.

(** ** Exceptions and results *)

Inductive exn : Type :=
| AttributeError      (* [None.startswith] *)
| TypeError           (* [float(None)] *)
| ValueError          (* [float] of a string that is not a number *)
| CsvError            (* [_csv.Error] raised by the reader *)
| FileNotFoundError   (* [open] of a path that is no file *)
| UnboundLocalError   (* a local name read before it is bound *)
| UnicodeDecodeError  (* a file that is not text read as text *)
| IsADirectoryError.  (* [open] of a directory for writing *)

Inductive result (A : Type) : Type :=
| Ok (a : A)
| Raise (e : exn).
Arguments Ok {A} a.
Arguments Raise {A} e.

Definition is_ok {A} (r : result A) : bool :=
  match r with Ok _ => true | Raise _ => false end.

(** ** Python strings *)

Module PyStr.

(** [s.startswith(p)] *)
Fixpoint startswith (p s : string) : bool :=
  match p, s with
  | EmptyString, _ => true
  | String a p', String b s' => Ascii.eqb a b && startswith p' s'
  | String _ _, EmptyString => false
  end.

(** [s[n:]] for a non-negative [n] *)
Fixpoint drop (n : nat) (s : string) : string :=
  match n, s with
  | O, _ => s
  | S n', String _ s' => drop n' s'
  | S _, EmptyString => EmptyString
  end.

(** [s[:n]] for a non-negative [n] *)
Fixpoint take (n : nat) (s : string) : string :=
  match n, s with
  | O, _ => EmptyString
  | S n', String a s' => String a (take n' s')
  | S _, EmptyString => EmptyString
  end.

(** [s.endswith(p)] *)
Definition endswith (p s : string) : bool :=
  (String.length p <=? String.length s)%nat
  && String.eqb (drop (String.length s - String.length p) s) p.

(** [s.rfind(c)] for a one-character [c]: the index of the last
    occurrence, [None] standing for Python's [-1]. *)
Fixpoint rfind (c : ascii) (s : string) : option nat :=
  match s with
  | EmptyString => None
  | String a s' =>
      match rfind c s' with
      | Some i => Some (S i)
      | None => if Ascii.eqb a c then Some O else None
      end
  end.

Definition chars (s : string) : list ascii := list_ascii_of_string s.
Definition of_chars (l : list ascii) : string := string_of_list_ascii l.

(** [c * n]: the character repeated *)
Fixpoint replicate (n : nat) (c : ascii) : string :=
  match n with
  | O => EmptyString
  | S n' => String c (replicate n' c)
  end.

End PyStr.

(** ** POSIX paths *)

Module PosixPath.
Import PyStr.

(** [os.path.join(a, b)] *)
Definition join (a b : string) : string :=
  if startswith "/" b then b
  else if String.eqb a "" || endswith "/" a then a ++ b
  else a ++ "/" ++ b.

(** The loop of [genericpath._splitext] that skips the leading dots of
    the file name: is there a character other than [.] in
    [p[i : i + n]]? *)
Fixpoint has_non_dot (p : string) (i n : nat) : bool :=
  match n with
  | O => false
  | S n' =>
      match String.get i p with
      | Some c => if Ascii.eqb c "." then has_non_dot p (S i) n' else true
      | None => true
      end
  end.

(** [os.path.splitext(p)] *)
Definition splitext (p : string) : string * string :=
  let filenameIndex :=
    match rfind "/" p with Some i => S i | None => O end in
  match rfind "." p with
  | Some dotIndex =>
      if (filenameIndex <=? dotIndex)%nat
         && has_non_dot p filenameIndex (dotIndex - filenameIndex)
      then (take dotIndex p, drop dotIndex p)
      else (p, "")
  | None => (p, "")
  end.

End PosixPath.


(** ** Python floats *)

Module PyFloat.
Import PyStr.

Definition float : Type := spec_float.

Definition prec : Z := 53.
Definition emax : Z := 1024.

(** Structural equality of floats (bit patterns up to the payload of a
    NaN); Python's [==] is [SFeqb]. *)
Definition float_eqb (x y : float) : bool :=
  match x, y with
  | S754_zero a, S754_zero b => Bool.eqb a b
  | S754_infinity a, S754_infinity b => Bool.eqb a b
  | S754_nan, S754_nan => true
  | S754_finite a m e, S754_finite b n f =>
      Bool.eqb a b && Pos.eqb m n && Z.eqb e f
  | _, _ => false
  end.

Definition is_nan (x : float) : bool :=
  match x with S754_nan => true | _ => false end.

(** [x < y], [x >= y] and [x / y] on floats *)
Definition lt (x y : float) : bool := SFltb x y.
Definition ge (x y : float) : bool := SFleb y x.
Definition div (x y : float) : float := SFdiv prec emax x y.

(** The float of a small non-negative integer literal, as in [x / 8] *)
Definition of_int (n : Z) : float := binary_normalize prec emax n 0 false.

(** *** Correct rounding of a non-negative rational

    [A / B] (with [0 <= A], [0 < B]) is a magnitude counted in units of
    [2^-1074], the smallest positive binary64 number.  [round_units]
    returns the mantissa [M] and the shift [j] of the nearest binary64
    magnitude [M * 2^j] units, ties going to the even mantissa. *)

Definition rne (q r den : Z) : Z :=
  match 2 * r ?= den with
  | Lt => q
  | Eq => if Z.even q then q else q + 1
  | Gt => q + 1
  end.

Definition round_units (A B : Z) : Z * Z :=
  let j := Z.max 0 (Z.log2 (A / B) - 52) in
  let den := B * 2 ^ j in
  let M := rne (A / den) (A mod den) den in
  if M =? 2 ^ 53 then (2 ^ 52, j + 1) else (M, j).

Definition float_of_ratio (s : bool) (A B : Z) : float :=
  let '(M, j) := round_units A B in
  match M with
  | Z0 => S754_zero s
  | Zpos m => if j <=? 2045 then S754_finite s m (j - 1074)
              else S754_infinity s
  | Zneg _ => S754_nan
  end.

(** The float nearest to [(-1)^s * D * 10^k] *)
Definition float_of_decimal (s : bool) (D k : Z) : float :=
  if 0 <=? k then float_of_ratio s (D * 10 ^ k * 2 ^ 1074) 1
  else float_of_ratio s (D * 2 ^ 1074) (10 ^ (- k)).

(** *** [float(s)] for a string

    Leading and trailing white space is stripped, underscores may
    separate digits, and what remains is an optional sign followed by
    [inf], [infinity], [nan] (in any case) or a decimal literal
    [digits [. digits] [e [sign] digits]] with at least one mantissa
    digit. *)

Definition is_digit (c : ascii) : bool :=
  let n := nat_of_ascii c in ((48 <=? n) && (n <=? 57))%nat.

Definition digit_val (c : ascii) : Z := Z.of_nat (nat_of_ascii c) - 48.

Definition is_space (c : ascii) : bool :=
  let n := nat_of_ascii c in
  ((9 <=? n) && (n <=? 13) || (28 <=? n) && (n <=? 32)
   || (n =? 133) || (n =? 160))%nat.

Fixpoint lstrip (l : list ascii) : list ascii :=
  match l with
  | c :: l' => if is_space c then lstrip l' else l
  | [] => []
  end.

Definition strip (l : list ascii) : list ascii :=
  rev (lstrip (rev (lstrip l))).

(** Underscores are allowed only between two digits; [prev] is the
    previous character.  The result is the text without underscores. *)
Fixpoint remove_underscores (prev : option ascii) (l : list ascii)
  : option (list ascii) :=
  let prev_digit :=
    match prev with Some p => is_digit p | None => false end in
  match l with
  | [] => if match prev with
             | Some p => Ascii.eqb p "_"
             | None => false
             end
          then None else Some []
  | c :: l' =>
      if Ascii.eqb c "_" then
        if prev_digit then remove_underscores (Some c) l' else None
      else if match prev with
              | Some p => Ascii.eqb p "_" && negb (is_digit c)
              | None => false
              end
      then None
      else option_map (cons c) (remove_underscores (Some c) l')
  end.

Definition lower (c : ascii) : ascii :=
  let n := nat_of_ascii c in
  if ((65 <=? n) && (n <=? 90))%nat then ascii_of_nat (n + 32) else c.

Fixpoint span_digits (l : list ascii) : list ascii * list ascii :=
  match l with
  | c :: l' =>
      if is_digit c
      then let '(ds, rest) := span_digits l' in (c :: ds, rest)
      else ([], l)
  | [] => ([], [])
  end.

Definition digits_val (ds : list ascii) : Z :=
  fold_left (fun acc c => 10 * acc + digit_val c) ds 0.

Definition split_sign (l : list ascii) : bool * list ascii :=
  match l with
  | c :: l' =>
      if Ascii.eqb c "-" then (true, l')
      else if Ascii.eqb c "+" then (false, l')
      else (false, l)
  | [] => (false, [])
  end.

(** The exponent part: empty, or [e], an optional sign and digits *)
Definition parse_exponent (l : list ascii) : option Z :=
  match l with
  | [] => Some 0
  | c :: l' =>
      if Ascii.eqb (lower c) "e" then
        let '(neg, l'') := split_sign l' in
        match span_digits l'' with
        | (d :: ds, []) =>
            let v := digits_val (d :: ds) in Some (if neg then - v else v)
        | _ => None
        end
      else None
  end.

(** A decimal literal without sign: the digits [D] of the mantissa and
    the power of ten [k] such that the value is [D * 10^k] *)
Definition parse_decimal (l : list ascii) : option (Z * Z) :=
  let '(ip, rest) := span_digits l in
  let '(fp, rest') :=
    match rest with
    | c :: r => if Ascii.eqb c "." then span_digits r else ([], rest)
    | [] => ([], [])
    end in
  match (ip ++ fp)%list with
  | [] => None
  | d :: ds =>
      match parse_exponent rest' with
      | Some ex =>
          Some (digits_val (d :: ds), ex - Z.of_nat (List.length fp))
      | None => None
      end
  end.

Definition float_of_chars (l : list ascii) : option float :=
  match remove_underscores None (strip l) with
  | None => None
  | Some t =>
      let '(neg, body) := split_sign t in
      let word := of_chars (map lower body) in
      if String.eqb word "inf" || String.eqb word "infinity"
      then Some (S754_infinity neg)
      else if String.eqb word "nan" then Some S754_nan
      else match parse_decimal body with
           | Some (D, k) => Some (float_of_decimal neg D k)
           | None => None
           end
  end.

(** [float(s)]; [None] is [ValueError] *)
Definition float_of_string (s : string) : option float :=
  float_of_chars (chars s).


(** *** [repr(x)]: the shortest decimal string that reads back as [x]

    A finite float [m * 2^e] is the fraction [frac_num / frac_den].  For
    [n = 1, 2, ...] the two [n]-digit decimals around it are tried; the
    first [n] for which one of them reads back as the float gives the
    digits, the nearer one winning when both do (ties to the even
    digit). *)

Definition frac_num (m : positive) (e : Z) : Z :=
  if 0 <=? e then Zpos m * 2 ^ e else Zpos m.

Definition frac_den (e : Z) : Z :=
  if 0 <=? e then 1 else 2 ^ (- e).

(** [(N / Dn) / 10^d] as a fraction *)
Definition scale10 (N Dn d : Z) : Z * Z :=
  if 0 <=? d then (N, Dn * 10 ^ d) else (N * 10 ^ (- d), Dn).

(** The position of the decimal point: the least [d], from the start
    value on, with [N / Dn < 10^d] *)
Fixpoint find_decpt (fuel : nat) (N Dn d : Z) : Z :=
  match fuel with
  | O => d
  | S f =>
      let '(a, b) := scale10 N Dn d in
      if a <? b then d else find_decpt f N Dn (d + 1)
  end.

Definition decpt_of (m : positive) (e : Z) : Z :=
  find_decpt (Z.to_nat (Z.log2 (Zpos m) + Z.abs e + 2))
             (frac_num m e) (frac_den e) (Z.min e 0 + 1).

(** The [n]-digit candidates at scale [s = decpt - n] *)
Definition candidate (m : positive) (e : Z) (s : Z) : option Z :=
  let '(a, b) := scale10 (frac_num m e) (frac_den e) s in
  let lo := a / b in
  let r := a mod b in
  let x := S754_finite false m e in
  let ok_lo := float_eqb (float_of_decimal false lo s) x in
  let ok_hi := float_eqb (float_of_decimal false (lo + 1) s) x in
  match ok_lo, ok_hi with
  | true, true => Some (rne lo r b)
  | true, false => Some lo
  | false, true => Some (lo + 1)
  | false, false => None
  end.

(** The nearest decimal at scale [s], used when 17 digits are reached *)
Definition nearest (m : positive) (e : Z) (s : Z) : Z :=
  let '(a, b) := scale10 (frac_num m e) (frac_den e) s in
  rne (a / b) (a mod b) b.

(** Digits [D] and scale [s] with [D * 10^s] the shortest decimal; [n]
    counts the digits tried, [fuel] the lengths left to try. *)
Fixpoint shortest (fuel : nat) (m : positive) (e : Z) (dp n : Z)
  : Z * Z :=
  match fuel with
  | O => (nearest m e (dp - 17), dp - 17)
  | S f =>
      match candidate m e (dp - n) with
      | Some D => (D, dp - n)
      | None => shortest f m e dp (n + 1)
      end
  end.

(** Trailing zeros are not digits of the result *)
Fixpoint strip_zeros (fuel : nat) (D s : Z) : Z * Z :=
  match fuel with
  | O => (D, s)
  | S f =>
      if (D mod 10 =? 0) && (0 <? D) then strip_zeros f (D / 10) (s + 1)
      else (D, s)
  end.

Definition digit_char (d : Z) : ascii := ascii_of_nat (Z.to_nat (d + 48)).

Fixpoint digits_fuel (fuel : nat) (n : Z) (acc : list ascii)
  : list ascii :=
  match fuel with
  | O => acc
  | S f =>
      let acc' := digit_char (n mod 10) :: acc in
      if n <? 10 then acc' else digits_fuel f (n / 10) acc'
  end.

(** [str(n)] for an integer [0 <= n] *)
Definition digits_of (n : Z) : list ascii :=
  digits_fuel (S (Z.to_nat (Z.log2 n))) n [].

Definition zeros (n : Z) : list ascii := repeat "0"%char (Z.to_nat n).

(** The layout of [repr]: [ds] are the digits and [dp] the position of
    the decimal point, the value being [0.ds * 10^dp]. *)
Definition format_repr (ds : list ascii) (dp : Z) : list ascii :=
  let nd := Z.of_nat (List.length ds) in
  if (dp <=? -4) || (16 <? dp) then
    let ex := dp - 1 in
    let exd := digits_of (Z.abs ex) in
    let mant :=
      match ds with
      | [] => []
      | [d] => [d]
      | d :: rest => d :: "."%char :: rest
      end in
    (mant ++ "e"%char :: (if ex <? 0 then "-"%char else "+"%char)
          :: (if Z.abs ex <? 10 then "0"%char :: exd else exd))%list
  else if dp <=? 0 then
    ("0"%char :: "."%char :: zeros (- dp) ++ ds)%list
  else if nd <=? dp then
    (ds ++ zeros (dp - nd) ++ ["."%char; "0"%char])%list
  else
    (firstn (Z.to_nat dp) ds ++ "."%char :: skipn (Z.to_nat dp) ds)%list.

Definition repr_finite (m : positive) (e : Z) : list ascii :=
  let dp := decpt_of m e in
  let '(D, s) := shortest 17 m e dp 1 in
  let '(D', s') := strip_zeros 17 D s in
  let ds := digits_of D' in
  format_repr ds (s' + Z.of_nat (List.length ds)).

(** [repr(x)], which is also [str(x)] *)
Definition repr (x : float) : string :=
  match x with
  | S754_nan => "nan"
  | S754_infinity s => if s then "-inf" else "inf"
  | S754_zero s => if s then "-0.0" else "0.0"
  | S754_finite s m e =>
      of_chars ((if s then ["-"%char] else []) ++ repr_finite m e)
  end.

End PyFloat.


(** ** Python's [sorted] and [dict] *)

Module Py.
Import PyFloat.

(** [list.sort] with a key: a stable sort that compares keys with [<]
    only.  Every element is put, in turn, behind the elements of the
    sorted prefix that are not greater than it (insertion, as CPython
    does for short lists; on keys that [<] orders totally every stable
    sort returns this list). *)
Section Sort.
Context {A : Type} (key : A -> float).

Fixpoint insort (pivot : A) (l : list A) : list A :=
  match l with
  | [] => [pivot]
  | y :: l' =>
      if lt (key pivot) (key y) then pivot :: l
      else y :: insort pivot l'
  end.

Definition list_sort (l : list A) : list A :=
  fold_left (fun acc x => insort x acc) l [].

(** [sorted(l, key=key, reverse=reverse)]: for a reverse sort the
    list is reversed, sorted and reversed again, which keeps equal
    elements in their original order. *)
Definition sorted (reverse : bool) (l : list A) : list A :=
  if reverse then rev (list_sort (rev l)) else list_sort l.
End Sort.

(** A [dict] from [str] to [V], in insertion order *)
Section Dict.
Context {V : Type}.

(** [d[k] = v]: an existing key keeps its place *)
Fixpoint setitem (d : list (string * V)) (k : string) (v : V)
  : list (string * V) :=
  match d with
  | [] => [(k, v)]
  | (k', v') :: d' =>
      if String.eqb k' k then (k', v) :: d'
      else (k', v') :: setitem d' k v
  end.

(** [d.get(k)] *)
Fixpoint getitem (d : list (string * V)) (k : string) : option V :=
  match d with
  | [] => None
  | (k', v') :: d' => if String.eqb k' k then Some v' else getitem d' k
  end.

Definition keys (d : list (string * V)) : list string := map fst d.
Definition values (d : list (string * V)) : list V := map snd d.
End Dict.

End Py.

(** ** The [csv] module *)

Module Csv.
Import PyStr.

Definition dquote : ascii := "034"%char.
Definition comma : ascii := ","%char.
Definition LF : ascii := "010"%char.
Definition CR : ascii := "013"%char.

Definition is_newline (c : ascii) : bool := Ascii.eqb c LF || Ascii.eqb c CR.

(** *** [csv.reader] in the [excel] dialect

    Delimiter [,], the double quote as quote character, doubled, no escape
    character, not strict.  The states are those of the C parser; the
    character [None] is the end-of-line marker the parser is fed after
    each line of its input. *)

Inductive state : Type :=
| START_RECORD | START_FIELD | IN_FIELD
| IN_QUOTED_FIELD | QUOTE_IN_QUOTED_FIELD | EAT_CRNL.

Definition state_eqb (a b : state) : bool :=
  match a, b with
  | START_RECORD, START_RECORD | START_FIELD, START_FIELD
  | IN_FIELD, IN_FIELD | IN_QUOTED_FIELD, IN_QUOTED_FIELD
  | QUOTE_IN_QUOTED_FIELD, QUOTE_IN_QUOTED_FIELD
  | EAT_CRNL, EAT_CRNL => true
  | _, _ => false
  end.

Record parser : Type := mkParser {
  st : state;
  fields : list string;   (* the fields of the record read so far *)
  field : list ascii      (* the characters of the current field *)
}.

Definition parse_reset : parser := mkParser START_RECORD [] [].

Definition set_state (s : state) (p : parser) : parser :=
  mkParser s (fields p) (field p).

Definition parse_save_field (p : parser) : parser :=
  mkParser (st p) (fields p ++ [of_chars (field p)])%list [].

Definition parse_add_char (c : ascii) (p : parser) : parser :=
  mkParser (st p) (fields p) (field p ++ [c])%list.

(** The state after a field or record ended at [c] *)
Definition after_end (c : option ascii) : state :=
  match c with None => START_RECORD | Some _ => EAT_CRNL end.

Definition ends_line (c : option ascii) : bool :=
  match c with None => true | Some ch => is_newline ch end.

Definition start_field (p : parser) (c : option ascii) : parser :=
  match c with
  | None => set_state (after_end c) (parse_save_field p)
  | Some ch =>
      if is_newline ch then set_state (after_end c) (parse_save_field p)
      else if Ascii.eqb ch dquote then set_state IN_QUOTED_FIELD p
      else if Ascii.eqb ch comma then parse_save_field p
      else set_state IN_FIELD (parse_add_char ch p)
  end.

Definition parse_process_char (p : parser) (c : option ascii)
  : result parser :=
  match st p with
  | START_RECORD =>
      match c with
      | None => Ok p
      | Some ch =>
          if is_newline ch then Ok (set_state EAT_CRNL p)
          else Ok (start_field (set_state START_FIELD p) c)
      end
  | START_FIELD => Ok (start_field p c)
  | IN_FIELD =>
      match c with
      | None => Ok (set_state (after_end c) (parse_save_field p))
      | Some ch =>
          if is_newline ch
          then Ok (set_state (after_end c) (parse_save_field p))
          else if Ascii.eqb ch comma
          then Ok (set_state START_FIELD (parse_save_field p))
          else Ok (parse_add_char ch p)
      end
  | IN_QUOTED_FIELD =>
      match c with
      | None => Ok p
      | Some ch =>
          if Ascii.eqb ch dquote then Ok (set_state QUOTE_IN_QUOTED_FIELD p)
          else Ok (parse_add_char ch p)
      end
  | QUOTE_IN_QUOTED_FIELD =>
      match c with
      | None => Ok (set_state (after_end c) (parse_save_field p))
      | Some ch =>
          if Ascii.eqb ch dquote
          then Ok (set_state IN_QUOTED_FIELD (parse_add_char ch p))
          else if Ascii.eqb ch comma
          then Ok (set_state START_FIELD (parse_save_field p))
          else if is_newline ch
          then Ok (set_state (after_end c) (parse_save_field p))
          else Ok (set_state IN_FIELD (parse_add_char ch p))
      end
  | EAT_CRNL =>
      match c with
      | None => Ok (set_state START_RECORD p)
      | Some ch => if is_newline ch then Ok p else Raise CsvError
      end
  end.

(** The characters of one line, then the end-of-line marker *)
Fixpoint feed (p : parser) (l : list ascii) : result parser :=
  match l with
  | [] => parse_process_char p None
  | c :: l' =>
      match parse_process_char p (Some c) with
      | Ok p' => feed p' l'
      | Raise e => Raise e
      end
  end.

(** What iterating over [csv.reader(lines)] yields: the records, and the
    exception that ended the iteration if there was one.  A record is
    complete when the parser is back in [START_RECORD]; input that ends
    inside a quoted field gives a last record. *)
Fixpoint read_records (p : parser) (lines : list string)
  : list (list string) * option exn :=
  match lines with
  | [] =>
      if negb (match field p with [] => true | _ => false end)
         || state_eqb (st p) IN_QUOTED_FIELD
      then ([fields (parse_save_field p)], None)
      else ([], None)
  | line :: rest =>
      match feed p (chars line) with
      | Raise e => ([], Some e)
      | Ok p' =>
          if state_eqb (st p') START_RECORD then
            let '(rows, err) := read_records parse_reset rest in
            (fields p' :: rows, err)
          else read_records p' rest
      end
  end.

Definition reader (lines : list string) : list (list string) * option exn :=
  read_records parse_reset lines.

(** *** [csv.writer] in the [unix] dialect

    Every field is quoted ([QUOTE_ALL]), a quote inside a field is
    doubled, fields are separated by [,] and a record ends with a line
    feed. *)

Fixpoint quote_chars (l : list ascii) : list ascii :=
  match l with
  | [] => []
  | c :: l' =>
      if Ascii.eqb c dquote then dquote :: dquote :: quote_chars l'
      else c :: quote_chars l'
  end.

Definition quote_field (f : string) : list ascii :=
  (dquote :: quote_chars (chars f) ++ [dquote])%list.

Fixpoint join_fields (fs : list string) : list ascii :=
  match fs with
  | [] => []
  | [f] => quote_field f
  | f :: fs' => (quote_field f ++ comma :: join_fields fs')%list
  end.

(** The text [writer.writerow(fs)] writes *)
Definition writerow (fs : list string) : string :=
  of_chars (join_fields fs ++ [LF])%list.

End Csv.


(** ** Text files *)

Module TextIO.
Import PyStr Csv.

(** Reading in text mode translates [\r\n] and a lone [\r] to [\n]
    (universal newlines, the default of [open]). *)
Fixpoint translate_newlines (after_cr : bool) (l : list ascii)
  : list ascii :=
  match l with
  | [] => []
  | c :: l' =>
      if Ascii.eqb c CR then LF :: translate_newlines true l'
      else if Ascii.eqb c LF then
        if after_cr then translate_newlines false l'
        else LF :: translate_newlines false l'
      else c :: translate_newlines false l'
  end.

(** The lines of a text, each with its line feed; [cur] is the line
    being read. *)
Fixpoint split_lines (cur : list ascii) (l : list ascii) : list string :=
  match l with
  | [] => match cur with [] => [] | _ => [of_chars cur] end
  | c :: l' =>
      if Ascii.eqb c LF then of_chars (cur ++ [c]) :: split_lines [] l'
      else split_lines (cur ++ [c]) l'
  end.

(** Iterating over [open(path)] *)
Definition readlines (text : string) : list string :=
  split_lines [] (translate_newlines false (chars text)).

(** Iterating over [open(path, newline='')], as the [csv] module asks
    for: a line ends after [\n], [\r\n] or a lone [\r], and keeps these
    characters. *)
Fixpoint split_lines_raw (cur : list ascii) (after_cr : bool)
  (l : list ascii) : list string :=
  match l with
  | [] => match cur with [] => [] | _ => [of_chars cur] end
  | c :: l' =>
      if Ascii.eqb c LF then
        of_chars (cur ++ [c]) :: split_lines_raw [] false l'
      else if after_cr then
        of_chars cur :: split_lines_raw [c] (Ascii.eqb c CR) l'
      else split_lines_raw (cur ++ [c]) (Ascii.eqb c CR) l'
  end.

Definition readlines_raw (text : string) : list string :=
  split_lines_raw [] false (chars text).

End TextIO.

(** ** [parse_qb] *)

Import PyStr PyFloat.

(** The dictionary [csv.DictReader] makes of a record with the field
    names of [parse_qb]: a missing field is [None], the fields beyond
    the seventh are collected under the key [None]. *)
Record qb_row : Type := mkRow {
  row_a : option string;
  row_project : option string;
  row_c : option string;
  row_Date : option string;
  row_Name : option string;
  row_Billing_Status : option string;
  row_Duration : option string;
  row_rest : list string
}.

Definition dict_row (r : list string) : qb_row :=
  mkRow (nth_error r 0) (nth_error r 1) (nth_error r 2) (nth_error r 3)
        (nth_error r 4) (nth_error r 5) (nth_error r 6) (skipn 7 r).

(** [csv.DictReader] does not return the empty records of blank lines *)
Definition DictReader (records : list (list string)) : list qb_row :=
  map dict_row
      (filter (fun r => match r with [] => false | _ => true end) records).

(** The summary: project name and days, in order *)
Definition summary : Type := list (string * float).

(** The body of the loop of [parse_qb] for one row *)
Definition parse_row (days : summary) (row : qb_row) : result summary :=
  match row_project row with
  | None => Raise AttributeError
  | Some label =>
      (* Use only totals rows *)
      if startswith "Total" label then
        (* Remove the 'Total ' prefix *)
        let project := drop 6 label in
        match row_Duration row with
        | None => Raise TypeError
        | Some duration =>
            match float_of_string duration with
            | None => Raise ValueError
            | Some hours => Ok (Py.setitem days project (div hours (of_int 8)))
            end
        end
      else Ok days
  end.

(** The loop over the rows the reader yields; [err] is the exception
    that ends the reader's iteration, if any. *)
Fixpoint parse_rows (days : summary) (rows : list qb_row)
  (err : option exn) : result summary :=
  match rows with
  | [] => match err with Some e => Raise e | None => Ok days end
  | row :: rows' =>
      match parse_row days row with
      | Ok days' => parse_rows days' rows' err
      | Raise e => Raise e
      end
  end.

(** Sort the CSV data into descending order of days *)
Definition sort_days (days : summary) : summary :=
  Py.sorted (fun t => snd t) true days.

(** The loop and the sort of [parse_qb], on the rows the reader yields *)
Definition parse_qb_rows (rows : list qb_row) (err : option exn)
  : result summary :=
  match parse_rows [] rows err with
  | Ok days => Ok (sort_days days)
  | Raise e => Raise e
  end.

(** [parse_qb(csv_file)], for the lines [csv_file] iterates over *)
Definition parse_qb (csv_file : list string) : result summary :=
  let '(records, err) := Csv.reader csv_file in
  parse_qb_rows (DictReader records) err.

(** ** Vocabulary of the properties *)

(** The rows the guard of [parse_qb] lets through *)
Definition selected (row : qb_row) : bool :=
  match row_project row with
  | Some label => startswith "Total" label
  | None => false
  end.

(** The key a selected row is stored under *)
Definition project_of (row : qb_row) : string :=
  match row_project row with
  | Some label => drop 6 label
  | None => ""
  end.

(** The float a literal such as [2.0] denotes *)
Definition float_lit (s : string) : float :=
  match float_of_string s with
  | Some x => x
  | None => S754_nan
  end.

(** [v1 >= v2] for every adjacent pair of a summary *)
Fixpoint adjacent_ge (s : summary) : bool :=
  match s with
  | (_, v1) :: s' =>
      match s' with
      | (_, v2) :: _ => ge v1 v2 && adjacent_ge s'
      | [] => true
      end
  | [] => true
  end.

(** The order in which keys enter a [dict]: each key at its first
    occurrence *)
Definition add_key (ks : list string) (k : string) : list string :=
  if existsb (String.eqb k) ks then ks else (ks ++ [k])%list.

Definition insertion_order (l : list string) : list string :=
  fold_left add_key l [].


(** ** The world [process_files] runs in *)

(** The command line: [--plot], [--save_plot], [--no_export] *)
Record arguments : Type := mkArgs {
  plot : bool;
  save_plot : bool;
  no_export : bool
}.

(** What [pyplot] has drawn on the current figure: for each call of
    [plt.bar] the heights of the bars, and the tick labels and axis
    labels set last. *)
Record figure : Type := mkFigure {
  bars : list (list float);
  xticks : list string;
  xlabel : string;
  ylabel : string
}.

Definition empty_figure : figure := mkFigure [] [] "" "".

Inductive content : Type :=
| Text (s : string)
| Image (fig : figure).

(** The directories below a directory, by name *)
#[local] Unset Elimination Schemes.
Inductive dirtree : Type :=
| Dir (subdirs : list (string * dirtree)).
#[local] Set Elimination Schemes.

Record world : Type := mkWorld {
  dirs : list (string * dirtree);   (* the directories, by path *)
  files : list (string * content);  (* the regular files, by path *)
  matplotlib : bool;                (* can matplotlib.pyplot be imported *)
  numpy : bool;                     (* can numpy be imported *)
  current : figure;                 (* the current figure of pyplot *)
  shown : list figure;              (* the figures [plt.show] displayed *)
  log : list string                 (* the messages logged at level INFO *)
}.

(** A computation that reads and changes the world and may raise; the
    world at the time of the exception is kept. *)
Definition M (A : Type) : Type := world -> world * result A.

Definition ret {A} (a : A) : M A := fun w => (w, Ok a).

Definition bind {A B} (m : M A) (f : A -> M B) : M B :=
  fun w =>
    match m w with
    | (w', Ok a) => f a w'
    | (w', Raise e) => (w', Raise e)
    end.

Definition raise {A} (e : exn) : M A := fun w => (w, Raise e).

Definition lift {A} (r : result A) : M A := fun w => (w, r).

Notation "x <- m ;; k" := (bind m (fun x => k))
  (at level 61, m at next level, right associativity).
Notation "m ;; k" := (bind m (fun _ => k))
  (at level 61, right associativity).

(** [for x in l: body(x)] *)
Section ForEach.
Context {A : Type} (body : A -> M unit).

Fixpoint for_each_in (l : list A) : M unit :=
  match l with
  | [] => ret tt
  | x :: l' => body x ;; for_each_in l'
  end.
End ForEach.

Definition for_each {A} (l : list A) (body : A -> M unit) : M unit :=
  for_each_in body l.

(** [logging.info(msg)] *)
Definition info (msg : string) : M unit :=
  fun w => (mkWorld (dirs w) (files w) (matplotlib w) (numpy w)
                    (current w) (shown w) (log w ++ [msg])%list, Ok tt).

Definition set_files (fs : list (string * content)) (w : world) : world :=
  mkWorld (dirs w) fs (matplotlib w) (numpy w) (current w) (shown w) (log w).

Definition set_current (fig : figure) (w : world) : world :=
  mkWorld (dirs w) (files w) (matplotlib w) (numpy w) fig (shown w) (log w).

(** *** Directories *)

Import PosixPath.

(** Every directory at or below [root], with its path *)
Fixpoint all_dirs (root : string) (t : dirtree) : list (string * dirtree) :=
  match t with
  | Dir subdirs =>
      (root, t)
      :: flat_map (fun '(name, t') => all_dirs (join root name) t') subdirs
  end.

(** [os.path.isdir(path)], with the directory found *)
Definition lookup_dir (w : world) (path : string) : option dirtree :=
  let known := flat_map (fun '(root, t) => all_dirs root t) (dirs w) in
  if String.eqb path "" then None
  else match find (fun '(p, _) => String.eqb p path) known with
       | Some (_, t) => Some t
       | None => None
       end.

Definition isdir (w : world) (path : string) : bool :=
  match lookup_dir w path with Some _ => true | None => false end.

Definition contains_sep (s : string) : bool :=
  match rfind "/" s with Some _ => true | None => false end.

(** The name of [path] in the directory [root], if it lies there *)
Definition name_in (root path : string) : option string :=
  let prefix :=
    if String.eqb root "" || endswith "/" root then root else root ++ "/" in
  if startswith prefix path then
    let name := drop (String.length prefix) path in
    if String.eqb name "" || contains_sep name then None else Some name
  else None.

(** The regular files [os.walk] lists for the directory [root] *)
Definition listdir_files (w : world) (root : string) : list string :=
  flat_map (fun '(p, _) =>
              match name_in root p with Some n => [n] | None => [] end)
           (files w).

(** *** Files *)

(** [open(path)] and the iteration over its lines *)
Definition open_read (path : string) : M (list string) :=
  fun w =>
    match Py.getitem (files w) path with
    | Some (Text s) => (w, Ok (TextIO.readlines s))
    | Some (Image _) => (w, Raise UnicodeDecodeError)
    | None => (w, Raise FileNotFoundError)
    end.

(** Writing a whole file: [open(path, 'w')], the writes, the close *)
Definition write_file (path : string) (c : content) : M unit :=
  fun w =>
    if isdir w path then (w, Raise IsADirectoryError)
    else (set_files (Py.setitem (files w) path c) w, Ok tt).

(** ** [create_chart] *)

Definition cannot_create_chart : string :=
  "Cannot create chart because matplotlib or numpy is not installed.".

(** The two imports bind [plt] and [np]; when one fails the message is
    logged and the function goes on, to read [np], which is bound only
    when both imports succeeded. *)
Definition create_chart (hours : summary) : M unit :=
  fun w =>
    if matplotlib w && numpy w then
      let fig := current w in
      (set_current
         (mkFigure (bars fig ++ [Py.values hours])%list (Py.keys hours)
                   "Project" "Days booked") w,
       Ok tt)
    else
      (info cannot_create_chart ;; raise UnboundLocalError) w.

(** [plt.savefig(fout)] *)
Definition savefig (fout : string) : M unit :=
  fun w => write_file fout (Image (current w)) w.

(** [plt.show()]: the figure is displayed and closed *)
Definition show : M unit :=
  fun w =>
    (mkWorld (dirs w) (files w) (matplotlib w) (numpy w) empty_figure
             (shown w ++ [current w])%list (log w), Ok tt).

(** ** [write_csv] *)

(** The text of the output file *)
Definition csv_text (times : summary) : string :=
  Csv.writerow ["Project"; "Days"]
  ++ concat "" (map (fun '(project, time_) =>
                       Csv.writerow [project; repr time_]) times).

Definition out_csv (fin : string) : string := fst (splitext fin) ++ "_out.csv".
Definition out_png (fin : string) : string := fst (splitext fin) ++ "_out.png".

Definition write_csv (fin : string) (times : summary) : M unit :=
  let fout := out_csv fin in
  info ("Writing " ++ fout) ;;
  write_file fout (Text (csv_text times)).

(** ** [process_files] *)

(** The body of the loop for a [fin] that is not a directory *)
Definition process_file (args : arguments) (fin : string) : M unit :=
  (* Ignore non-csv files *)
  if negb (endswith ".csv" fin || endswith ".CSV" fin) then
    info ("Ignoring " ++ fin)
  else
    info ("Processing " ++ fin) ;;
    csv_file <- open_read fin ;;
    times <- lift (parse_qb csv_file) ;;
    (if plot args || save_plot args then
       create_chart times ;;
       (if save_plot args then
          let fout := out_png fin in
          info ("Saving " ++ fout) ;; savefig fout
        else ret tt) ;;
       (if plot args then show else ret tt)
     else ret tt) ;;
    if negb (no_export args) then write_csv fin times else ret tt.

(** [os.walk(root)] with the body of the loop of [process_files]: the
    directory is listed when the walk reaches it; the body calls
    [process_files] for every subdirectory and then for every file; the
    walk then descends into every subdirectory. *)
Fixpoint walk (args : arguments) (t : dirtree) (root : string) {struct t}
  : M unit :=
  match t with
  | Dir subdirs =>
      fun w =>
        let filenames := listdir_files w root in
        (for_each subdirs
           (fun '(dirnam, t') =>
              (* process_files(args, join(root, dirnam)) *)
              info ("Searching " ++ join root dirnam) ;;
              walk args t' (join root dirnam)) ;;
         for_each filenames
           (fun filename => process_file args (join root filename)) ;;
         (* the generator goes on, into each subdirectory *)
         for_each subdirs
           (fun '(dirnam, t') => walk args t' (join root dirnam))) w
  end.

(** [process_files(args, *files)] *)
Definition process_files (args : arguments) (files : list string) : M unit :=
  for_each files
    (fun fin w =>
       match lookup_dir w fin with
       | Some t => (info ("Searching " ++ fin) ;; walk args t fin) w
       | None => process_file args fin w
       end).


(** ** Vocabulary of the properties of a run *)

(** The names [process_files] takes for input files *)
Definition is_csv (fin : string) : bool :=
  endswith ".csv" fin || endswith ".CSV" fin.

(** A line feed, and a text between double quotes *)
Definition nl : string := String Csv.LF "".

Definition quoted (s : string) : string :=
  String Csv.dquote (s ++ String Csv.dquote "").

(** The input file of the end-to-end scenario *)
Definition proj_csv : string :=
  "a,Total Alpha,c,2020-01-01,,,40" ++ nl
  ++ "a,Total Beta,c,2020-01-02,,,8" ++ nl
  ++ "a,Alpha,c,2020-01-01,Jane,Billable,4" ++ nl.

(** The output file the code writes for it: every field is quoted *)
Definition proj_out_csv : string :=
  quoted "Project" ++ "," ++ quoted "Days" ++ nl
  ++ quoted "Alpha" ++ "," ++ quoted "5.0" ++ nl
  ++ quoted "Beta" ++ "," ++ quoted "1.0" ++ nl.

(** The same records without quotes *)
Definition proj_out_unquoted : string :=
  "Project,Days" ++ nl ++ "Alpha,5.0" ++ nl ++ "Beta,1.0" ++ nl.

(** How often a run logged that it processes [p] *)
Definition times_processed (p : string) (messages : list string) : nat :=
  count_occ string_dec messages ("Processing " ++ p).

(** A file or directory name: not empty, without separator *)
Definition is_name (n : string) : bool :=
  negb (String.eqb n "") && negb (contains_sep n).

(** Every name in a directory tree is a name *)
Fixpoint names_ok (t : dirtree) : bool :=
  match t with
  | Dir subdirs =>
      forallb (fun '(n, t') => is_name n && names_ok t') subdirs
  end.

(** Does [p] lie directly in the directory [root]? *)
Definition lies_in (root p : string) : bool :=
  match name_in root p with Some _ => true | None => false end.

(** How often the walk of [t] at [root] lists the directory that [p]
    lies in: once when it reaches it, and twice what the walks of
    every subdirectory do, which [process_files] starts once and
    [os.walk] continues once. *)
Fixpoint visits (p : string) (t : dirtree) (root : string) : nat :=
  match t with
  | Dir subdirs =>
      ((if lies_in root p then 1 else 0)
       + list_sum (map (fun '(n, t') => 2 * visits p t' (join root n))
                       subdirs))%nat
  end.

(** [p] lies in a directory of the tree [t] at [root], [depth] levels
    down *)
Fixpoint lies_at (depth : nat) (p : string) (t : dirtree) (root : string)
  : bool :=
  match depth, t with
  | O, _ => lies_in root p
  | S d, Dir subdirs =>
      existsb (fun '(n, t') => lies_at d p t' (join root n)) subdirs
  end.


(** * Properties *)

(** ** The order of floats *)

Module FloatOrder.
Import PyFloat.

Ltac cmp_cases :=
  repeat match goal with
  | |- context [Z.compare ?a ?b] => destruct (Z.compare_spec a b)
  | H : context [Z.compare ?a ?b] |- _ => destruct (Z.compare_spec a b)
  | |- context [Pos.compare_cont Eq ?a ?b] =>
      change (Pos.compare_cont Eq a b) with (Pos.compare a b);
      destruct (Pos.compare_spec a b)
  | H : context [Pos.compare_cont Eq ?a ?b] |- _ =>
      change (Pos.compare_cont Eq a b) with (Pos.compare a b) in H;
      destruct (Pos.compare_spec a b)
  end.

Ltac float_cases x := destruct x as [[]|[]| |[] ? ?].

Ltac order_solve :=
  simpl in *; try discriminate; try reflexivity; try congruence;
  try (cmp_cases; simpl in *; subst;
       try discriminate; try reflexivity; try congruence; try lia).

Lemma compare_total x y :
  is_nan x = false -> is_nan y = false -> exists c, SFcompare x y = Some c.
Proof.
  float_cases x; float_cases y; simpl; intros; try discriminate; eauto.
Qed.

Lemma compare_nan x y c :
  SFcompare x y = Some c -> is_nan x = false /\ is_nan y = false.
Proof. float_cases x; float_cases y; simpl; intros; try discriminate; auto. Qed.

Lemma compare_opp x y c :
  SFcompare x y = Some c -> SFcompare y x = Some (CompOpp c).
Proof.
  float_cases x; float_cases y; intros H; simpl in H;
    try discriminate; try (injection H as <-; reflexivity).
  all: injection H as <-; simpl;
    rewrite ?(Z.compare_antisym ey ex), ?(Z.compare_antisym e0 e);
    repeat match goal with
    | |- context [Z.compare ?a ?b] => rewrite (Z.compare_antisym a b)
    end.
  all: repeat match goal with
    | |- context [Pos.compare_cont Eq ?a ?b] =>
        change (Pos.compare_cont Eq a b) with (Pos.compare a b)
    end.
  all: match goal with
    | |- context [CompOpp (Z.compare ?a ?b)] =>
        destruct (Z.compare a b) eqn:E; simpl; try reflexivity
    end.
  all: match goal with
    | |- context [Pos.compare ?a ?b] =>
        rewrite (Pos.compare_antisym a b); destruct (Pos.compare a b);
        reflexivity
    end.
Qed.

Lemma compare_trans x y z c :
  SFcompare x y = Some c -> SFcompare y z = Some c -> SFcompare x z = Some c.
Proof.
  float_cases x; float_cases y; float_cases z;
    simpl; intros H1 H2; try discriminate; try assumption;
    try (rewrite <- H1 in H2; discriminate);
    try (injection H1 as <-; try reflexivity; try discriminate H2).
  all: order_solve.
Qed.

Lemma compare_eq_l x y z c :
  SFcompare x y = Some Eq -> SFcompare y z = Some c -> SFcompare x z = Some c.
Proof.
  float_cases x; float_cases y; float_cases z;
    simpl; intros H1 H2; try discriminate; try assumption.
  all: injection H1 as H1; injection H2 as <-; f_equal; order_solve.
Qed.

Lemma compare_eq_r x y z c :
  SFcompare x y = Some c -> SFcompare y z = Some Eq -> SFcompare x z = Some c.
Proof.
  intros H1 H2. apply compare_opp in H1, H2. simpl in H2.
  pose proof (compare_eq_l _ _ _ _ H2 H1) as H.
  apply compare_opp in H. now rewrite CompOpp_involutive in H.
Qed.

Lemma lt_irrefl x : lt x x = false.
Proof.
  unfold lt, SFltb. destruct (SFcompare x x) as [c|] eqn:E; [|reflexivity].
  pose proof (compare_opp _ _ _ E) as E'. rewrite E in E'.
  destruct c; try reflexivity; discriminate.
Qed.

Lemma lt_compare x y : lt x y = true <-> SFcompare x y = Some Lt.
Proof.
  unfold lt, SFltb. destruct (SFcompare x y) as [[]|]; split; congruence.
Qed.

Lemma lt_asym x y : lt x y = true -> lt y x = false.
Proof.
  rewrite lt_compare. intros H. apply compare_opp in H. simpl in H.
  unfold lt, SFltb. now rewrite H.
Qed.

Lemma lt_trans x y z : lt x y = true -> lt y z = true -> lt x z = true.
Proof. rewrite !lt_compare. apply compare_trans. Qed.

(** On floats that are not NaN, [>=] is the negation of [<]. *)
Lemma ge_not_lt x y :
  is_nan x = false -> is_nan y = false -> ge x y = negb (lt x y).
Proof.
  intros Hx Hy. destruct (compare_total y x Hy Hx) as [c E].
  pose proof (compare_opp _ _ _ E) as E'.
  unfold ge, lt, SFleb, SFltb. rewrite E, E'. now destruct c.
Qed.

(** [ge] fails as soon as one side is NaN. *)
Lemma ge_nan_l y : ge S754_nan y = false.
Proof. unfold ge, SFleb. now float_cases y. Qed.

Lemma lt_le_trans x y z :
  is_nan z = false -> lt x y = true -> lt z y = false -> lt x z = true.
Proof.
  intros Hz Hxy Hzy. apply lt_compare in Hxy.
  destruct (compare_nan _ _ _ Hxy) as [_ Hy].
  destruct (compare_total y z Hy Hz) as [c E].
  rewrite lt_compare. destruct c.
  - now apply compare_eq_r with y.
  - now apply compare_trans with y.
  - apply compare_opp in E. simpl in E. apply lt_compare in E. congruence.
Qed.

Lemma eqb_not_lt x z v :
  SFeqb x v = true -> SFeqb z v = true -> lt x z = false.
Proof.
  unfold SFeqb. intros Hx Hz.
  destruct (SFcompare x v) as [[]|] eqn:Ex; try discriminate.
  destruct (SFcompare z v) as [[]|] eqn:Ez; try discriminate.
  apply compare_opp in Ez. simpl in Ez.
  pose proof (compare_eq_l _ _ _ _ Ex Ez) as E.
  unfold lt, SFltb. now rewrite E.
Qed.

End FloatOrder.


(** ** [sorted] is a stable sort *)

Module SortFacts.
Import PyFloat FloatOrder.

Section WithKey.
Context {A : Type} (key : A -> float).

(** No earlier element is greater than a later one. *)
Definition ascending : list A -> Prop :=
  StronglySorted (fun a b => lt (key b) (key a) = false).

(** No earlier element is less than a later one. *)
Definition descending : list A -> Prop :=
  StronglySorted (fun a b => lt (key a) (key b) = false).

Lemma insort_perm x l : Permutation (Py.insort key x l) (x :: l).
Proof.
  induction l as [|y l IH]; simpl; [reflexivity|].
  destruct (lt (key x) (key y)); [reflexivity|].
  rewrite IH. apply perm_swap.
Qed.

Lemma list_sort_snoc l x :
  Py.list_sort key (l ++ [x]) = Py.insort key x (Py.list_sort key l).
Proof. unfold Py.list_sort. now rewrite fold_left_app. Qed.

Lemma list_sort_perm l : Permutation (Py.list_sort key l) l.
Proof.
  induction l as [|x l IH] using rev_ind; [reflexivity|].
  rewrite list_sort_snoc, insort_perm, IH.
  apply Permutation_cons_append.
Qed.

Lemma sorted_perm r l : Permutation (Py.sorted key r l) l.
Proof.
  unfold Py.sorted. destruct r; [|apply list_sort_perm].
  rewrite <- Permutation_rev, list_sort_perm. symmetry.
  apply Permutation_rev.
Qed.

Lemma insort_ascending x l : ascending l -> ascending (Py.insort key x l).
Proof.
  unfold ascending.
  induction l as [|y l IH]; simpl; intros Hs.
  - constructor; constructor.
  - inversion Hs as [|? ? Hs' Hy]; subst.
    destruct (lt (key x) (key y)) eqn:E.
    + constructor; [assumption|]. constructor.
      * now apply lt_asym.
      * rewrite Forall_forall in *. intros z Hz.
        destruct (lt (key z) (key x)) eqn:Ez; [|reflexivity].
        rewrite <- (Hy z Hz). symmetry. now apply lt_trans with (key x).
    + constructor; [now apply IH|].
      rewrite Forall_forall in *. intros z Hz.
      apply (Permutation_in _ (insort_perm x l)) in Hz.
      destruct Hz as [<-|Hz]; [assumption|now apply Hy].
Qed.

Lemma list_sort_ascending l : ascending (Py.list_sort key l).
Proof.
  induction l as [|x l IH] using rev_ind; [constructor|].
  rewrite list_sort_snoc. now apply insort_ascending.
Qed.

Lemma ascending_app l x :
  ascending l -> Forall (fun a => lt (key x) (key a) = false) l ->
  ascending (l ++ [x]).
Proof.
  unfold ascending. induction l as [|y l IH]; simpl; intros Hs Hx.
  - constructor; constructor.
  - inversion Hs; inversion Hx; subst. constructor; [now apply IH|].
    apply Forall_app. split; [assumption|]. now constructor.
Qed.

Lemma descending_rev l : ascending l -> descending (rev l).
Proof.
  unfold ascending, descending.
  induction l as [|y l IH]; simpl; intros Hs; [constructor|].
  inversion Hs as [|? ? Hs' Hy]; subst.
  specialize (IH Hs'). revert IH.
  assert (Hy' : Forall (fun a => lt (key a) (key y) = false) (rev l))
    by (rewrite Forall_forall in *; intros z Hz; apply Hy;
        now apply in_rev).
  revert Hy'. generalize (rev l). intros l0.
  induction l0 as [|z l0 IH0]; simpl; intros Hz Hs0.
  - constructor; constructor.
  - inversion Hz; inversion Hs0; subst. constructor; [now apply IH0|].
    apply Forall_app. split; [assumption|]. now constructor.
Qed.

(** The result of a reverse sort is in descending order. *)
Lemma sorted_descending l : descending (Py.sorted key true l).
Proof. apply descending_rev, list_sort_ascending. Qed.

(** Elements whose key equals [v], in the order of the list *)
Definition with_key (v : float) (l : list A) : list A :=
  filter (fun a => SFeqb (key a) v) l.

Lemma insort_with_key v x l :
  ascending l -> Forall (fun a => is_nan (key a) = false) l ->
  with_key v (Py.insort key x l)
  = (with_key v l ++ with_key v [x])%list.
Proof.
  unfold ascending, with_key.
  induction l as [|y l IH]; simpl; intros Hs Hn; [reflexivity|].
  inversion Hs as [|? ? Hs' Hy]; inversion Hn as [|? ? Hny Hn']; subst.
  destruct (lt (key x) (key y)) eqn:E; simpl.
  - destruct (SFeqb (key x) v) eqn:Ex; [|now rewrite app_nil_r].
    assert (Hnone : forall z, In z (y :: l) -> SFeqb (key z) v = false).
    { intros z Hz. destruct (SFeqb (key z) v) eqn:Ez; [|reflexivity].
      assert (Hxz : lt (key x) (key z) = true).
      { destruct Hz as [<-|Hz]; [assumption|].
        apply lt_le_trans with (key y); try assumption.
        - rewrite Forall_forall in Hn'. now apply Hn'.
        - rewrite Forall_forall in Hy. now apply Hy. }
      rewrite (eqb_not_lt _ _ _ Ex Ez) in Hxz. discriminate. }
    rewrite (Hnone y (or_introl eq_refl)).
    assert (Hl : filter (fun a => SFeqb (key a) v) l = []).
    { clear - Hnone. induction l as [|z l IH]; simpl; [reflexivity|].
      rewrite (Hnone z (or_intror (or_introl eq_refl))).
      apply IH. intros w [<-|Hw]; apply Hnone; simpl; auto. }
    now rewrite Hl.
  - rewrite (IH Hs' Hn'). simpl.
    now destruct (SFeqb (key y) v).
Qed.

Lemma list_sort_with_key v l :
  Forall (fun a => is_nan (key a) = false) l ->
  with_key v (Py.list_sort key l) = with_key v l.
Proof.
  induction l as [|x l IH] using rev_ind; intros Hn; [reflexivity|].
  apply Forall_app in Hn. destruct Hn as [Hn _].
  rewrite list_sort_snoc, insort_with_key.
  - rewrite (IH Hn). unfold with_key. now rewrite filter_app.
  - apply list_sort_ascending.
  - rewrite Forall_forall in *. intros z Hz. apply Hn.
    now apply (Permutation_in _ (list_sort_perm l)).
Qed.

(** Stability: a reverse sort keeps elements of equal key in their
    original order. *)
Lemma sorted_with_key v l :
  Forall (fun a => is_nan (key a) = false) l ->
  with_key v (Py.sorted key true l) = with_key v l.
Proof.
  intros Hn. unfold Py.sorted, with_key.
  rewrite filter_rev. fold (with_key v (Py.list_sort key (rev l))).
  rewrite list_sort_with_key.
  - unfold with_key. now rewrite filter_rev, rev_involutive.
  - now apply Forall_rev.
Qed.
End WithKey.

End SortFacts.


(** ** Dictionaries *)

Module DictFacts.

Section WithValue.
Context {V : Type}.
Implicit Types (d : list (string * V)) (k : string) (v : V).

Lemma getitem_setitem_eq d k v : Py.getitem (Py.setitem d k v) k = Some v.
Proof.
  induction d as [|[k' v'] d IH]; simpl.
  - now rewrite String.eqb_refl.
  - destruct (String.eqb k' k) eqn:E; simpl; now rewrite E.
Qed.

Lemma getitem_setitem_neq d k k' v :
  k <> k' -> Py.getitem (Py.setitem d k v) k' = Py.getitem d k'.
Proof.
  intros Hne. induction d as [|[k0 v0] d IH]; simpl.
  - apply String.eqb_neq in Hne. now rewrite Hne.
  - destruct (String.eqb k0 k) eqn:E; simpl.
    + apply String.eqb_eq in E. subst k0.
      apply String.eqb_neq in Hne. now rewrite Hne.
    + now rewrite IH.
Qed.

Lemma keys_setitem d k v :
  Py.keys (Py.setitem d k v) = add_key (Py.keys d) k.
Proof.
  unfold add_key. induction d as [|[k0 v0] d IH]; simpl; [reflexivity|].
  rewrite (String.eqb_sym k k0).
  destruct (String.eqb k0 k) eqn:E; simpl; [reflexivity|].
  unfold Py.keys in *. rewrite IH.
  now destruct (existsb (String.eqb k) (map fst d)).
Qed.

Lemma add_key_NoDup ks k : NoDup ks -> NoDup (add_key ks k).
Proof.
  unfold add_key. intros Hnd.
  destruct (existsb (String.eqb k) ks) eqn:E; [assumption|].
  apply NoDup_app; [assumption|repeat constructor; intros []|].
  intros x Hx [<-|[]].
  assert (existsb (String.eqb k) ks = true)
    by (apply existsb_exists; exists k; split;
        [assumption|apply String.eqb_refl]).
  congruence.
Qed.

Lemma keys_setitem_NoDup d k v :
  NoDup (Py.keys d) -> NoDup (Py.keys (Py.setitem d k v)).
Proof. rewrite keys_setitem. apply add_key_NoDup. Qed.

Lemma getitem_In d k v :
  NoDup (Py.keys d) -> In (k, v) d -> Py.getitem d k = Some v.
Proof.
  induction d as [|[k0 v0] d IH]; simpl; intros Hnd Hin; [easy|].
  inversion Hnd as [|? ? Hnotin Hnd']; subst.
  destruct Hin as [Heq|Hin].
  - injection Heq as -> ->. now rewrite String.eqb_refl.
  - destruct (String.eqb k0 k) eqn:E; [|now apply IH].
    apply String.eqb_eq in E. subst k0. exfalso. apply Hnotin.
    now apply (in_map fst) in Hin.
Qed.

Lemma getitem_Some_In d k v : Py.getitem d k = Some v -> In (k, v) d.
Proof.
  induction d as [|[k0 v0] d IH]; simpl; [easy|].
  destruct (String.eqb k0 k) eqn:E.
  - apply String.eqb_eq in E. intros [= ->]. left. now subst.
  - intros H. right. now apply IH.
Qed.

(** Looking a key up does not depend on the order of a dictionary. *)
Lemma getitem_perm d d' k :
  NoDup (Py.keys d) -> Permutation d d' ->
  Py.getitem d' k = Py.getitem d k.
Proof.
  intros Hnd Hp.
  assert (Hnd' : NoDup (Py.keys d'))
    by (apply (Permutation_NoDup (l := Py.keys d));
        [now apply Permutation_map|assumption]).
  destruct (Py.getitem d k) as [v|] eqn:E.
  - apply getitem_In; [assumption|].
    apply (Permutation_in _ Hp). now apply getitem_Some_In.
  - destruct (Py.getitem d' k) as [v'|] eqn:E'; [|reflexivity].
    apply getitem_Some_In in E'.
    apply (Permutation_in _ (Permutation_sym Hp)) in E'.
    rewrite (getitem_In _ _ _ Hnd E') in E. discriminate.
Qed.

Lemma count_occ_NoDup (ks : list string) k :
  NoDup ks -> In k ks -> count_occ string_dec ks k = 1%nat.
Proof.
  intros Hnd Hin.
  pose proof (proj1 (NoDup_count_occ string_dec ks) Hnd k) as Hle.
  apply (count_occ_In string_dec) in Hin. lia.
Qed.
End WithValue.

Lemma insertion_order_acc (l : list string) (acc : list string) :
  NoDup acc -> NoDup (fold_left add_key l acc).
Proof.
  revert acc. induction l as [|x l IH]; simpl; intros acc Hnd; [assumption|].
  apply IH. now apply add_key_NoDup.
Qed.

End DictFacts.


(** ** The loop of [parse_qb] *)

Module ParseFacts.
Import DictFacts.

Lemma parse_rows_app days rows1 rows2 err :
  parse_rows days (rows1 ++ rows2) err
  = match parse_rows days rows1 None with
    | Ok d => parse_rows d rows2 err
    | Raise e => Raise e
    end.
Proof.
  revert days. induction rows1 as [|r rows1 IH]; simpl; intros days.
  - reflexivity.
  - destruct (parse_row days r); [apply IH|reflexivity].
Qed.

(** What one turn of the loop does, when it does not raise *)
Lemma parse_row_ok days row days' :
  parse_row days row = Ok days' ->
  (selected row = false /\ days' = days)
  \/ (selected row = true
      /\ exists duration hours,
          row_Duration row = Some duration
          /\ float_of_string duration = Some hours
          /\ days' = Py.setitem days (project_of row) (div hours (of_int 8))).
Proof.
  unfold parse_row, selected, project_of.
  destruct (row_project row) as [label|]; [|discriminate].
  destruct (startswith "Total" label).
  - destruct (row_Duration row) as [duration|]; [|discriminate].
    destruct (float_of_string duration) as [hours|] eqn:E; [|discriminate].
    intros [= <-]. right. split; [reflexivity|]. now exists duration, hours.
  - intros [= <-]. now left.
Qed.

Lemma parse_row_selected days row label duration hours :
  row_project row = Some label ->
  startswith "Total" label = true ->
  row_Duration row = Some duration ->
  float_of_string duration = Some hours ->
  parse_row days row
  = Ok (Py.setitem days (drop 6 label) (div hours (of_int 8))).
Proof.
  intros Hp Hs Hd Hf. unfold parse_row. now rewrite Hp, Hs, Hd, Hf.
Qed.

Lemma sort_days_single k v : sort_days [(k, v)] = [(k, v)].
Proof. reflexivity. Qed.

Lemma parse_row_keys days row days' :
  parse_row days row = Ok days' ->
  Py.keys days'
  = if selected row then add_key (Py.keys days) (project_of row)
    else Py.keys days.
Proof.
  intros H. destruct (parse_row_ok _ _ _ H) as [[-> ->]|[-> (d & h & _ & _ & ->)]].
  - reflexivity.
  - apply keys_setitem.
Qed.

Lemma parse_rows_keys rows : forall days err days',
  parse_rows days rows err = Ok days' ->
  Py.keys days'
  = fold_left add_key (map project_of (filter selected rows)) (Py.keys days).
Proof.
  induction rows as [|r rows IH]; simpl; intros days err days' H.
  - destruct err; [discriminate|]. now injection H as <-.
  - destruct (parse_row days r) as [d1|] eqn:E; [|discriminate].
    rewrite (IH _ _ _ H), (parse_row_keys _ _ _ E).
    now destruct (selected r).
Qed.

Lemma parse_rows_NoDup rows days err days' :
  parse_rows days rows err = Ok days' ->
  NoDup (Py.keys days) -> NoDup (Py.keys days').
Proof.
  intros H Hnd. rewrite (parse_rows_keys _ _ _ _ H).
  now apply insertion_order_acc.
Qed.

Lemma parse_rows_other rows k : forall days err days',
  parse_rows days rows err = Ok days' ->
  (forall r, In r rows -> selected r = true -> project_of r <> k) ->
  Py.getitem days' k = Py.getitem days k.
Proof.
  induction rows as [|r rows IH]; simpl; intros days err days' H Hk.
  - destruct err; [discriminate|]. now injection H as <-.
  - destruct (parse_row days r) as [d1|] eqn:E; [|discriminate].
    rewrite (IH _ _ _ H) by (intros; apply Hk; auto).
    destruct (parse_row_ok _ _ _ E) as [[_ ->]|[Hs (d & h & _ & _ & ->)]].
    + reflexivity.
    + apply getitem_setitem_neq. apply Hk; auto.
Qed.

(** The value of a key is the one of the last selected row with it. *)
Lemma parse_rows_last rows1 row rows2 days err days' duration :
  parse_rows days (rows1 ++ row :: rows2) err = Ok days' ->
  selected row = true ->
  row_Duration row = Some duration ->
  (forall r, In r rows2 -> selected r = true ->
             project_of r <> project_of row) ->
  exists hours,
    float_of_string duration = Some hours
    /\ Py.getitem days' (project_of row) = Some (div hours (of_int 8)).
Proof.
  intros H Hsel Hdur Hlast. rewrite parse_rows_app in H.
  destruct (parse_rows days rows1 None) as [d1|]; [|discriminate].
  simpl in H. destruct (parse_row d1 row) as [d2|] eqn:E; [|discriminate].
  destruct (parse_row_ok _ _ _ E) as [[Hs _]|[_ (d & h & Hd & Hf & ->)]];
    [congruence|].
  assert (d = duration) by congruence. subst d.
  exists h. split; [assumption|].
  rewrite (parse_rows_other _ _ _ _ _ H Hlast).
  apply getitem_setitem_eq.
Qed.

(** Sorting keeps the entries. *)
Lemma sort_days_perm days : Permutation (sort_days days) days.
Proof. apply SortFacts.sorted_perm. Qed.

Lemma sort_days_getitem days k :
  NoDup (Py.keys days) ->
  Py.getitem (sort_days days) k = Py.getitem days k.
Proof.
  intros Hnd. apply getitem_perm; [assumption|].
  symmetry. apply sort_days_perm.
Qed.

Lemma parse_qb_rows_ok rows err s :
  parse_qb_rows rows err = Ok s ->
  exists days, parse_rows [] rows err = Ok days /\ s = sort_days days.
Proof.
  unfold parse_qb_rows. destruct (parse_rows [] rows err) as [days|];
    [|discriminate].
  intros [= <-]. now exists days.
Qed.

Lemma descending_adjacent_ge (s : summary) :
  SortFacts.descending (fun t => snd t) s ->
  Forall (fun kv => is_nan (snd kv) = false) s ->
  adjacent_ge s = true.
Proof.
  unfold SortFacts.descending.
  induction s as [|[k1 v1] s IH]; intros Hs Hn; [reflexivity|].
  inversion Hs as [|? ? Hs' H1]; inversion Hn as [|? ? Hn1 Hn']; subst.
  simpl. destruct s as [|[k2 v2] s']; [reflexivity|].
  rewrite (IH Hs' Hn'), andb_true_r.
  inversion H1 as [|? ? H12 _]; inversion Hn' as [|? ? Hn2 _]; subst.
  simpl in *. rewrite FloatOrder.ge_not_lt by assumption. now rewrite H12.
Qed.

End ParseFacts.


(** ** Computations in the world *)

Module WorldFacts.
Import PosixPath.

Lemma bind_ok {A B} (m : M A) (f : A -> M B) w w' b :
  bind m f w = (w', Ok b) ->
  exists a w1, m w = (w1, Ok a) /\ f a w1 = (w', Ok b).
Proof.
  unfold bind. destruct (m w) as [w1 [a|e]]; intros H; [|discriminate].
  now exists a, w1.
Qed.

Lemma bind_run {A B} (m : M A) (f : A -> M B) w w1 a :
  m w = (w1, Ok a) -> bind m f w = f a w1.
Proof. unfold bind. now intros ->. Qed.

Lemma bind_raise {A B} (m : M A) (f : A -> M B) w w1 e :
  m w = (w1, Raise e) -> bind m f w = (w1, Raise e).
Proof. unfold bind. now intros ->. Qed.

(** Induction on a directory tree, with the hypothesis for every
    subdirectory *)
Lemma dirtree_ind (P : dirtree -> Prop) :
  (forall subdirs, Forall (fun nt => P (snd nt)) subdirs -> P (Dir subdirs)) ->
  forall t, P t.
Proof.
  intros H. fix IH 1. intros [subdirs]. apply H.
  induction subdirs as [|[n t'] l IHl]; constructor.
  - apply IH.
  - apply IHl.
Qed.

(** *** What a run adds to the log *)

Section Trace.
(** [good] holds of every message the run may add. *)
Variable good : string -> Prop.















Hypothesis good_cannot : good cannot_create_chart.


Hypothesis good_writing : forall p, good ("Writing " ++ p).
Hypothesis good_saving : forall p, good ("Saving " ++ p).
Hypothesis good_ignoring : forall p, good ("Ignoring " ++ p).
Hypothesis good_searching : forall p, good ("Searching " ++ p).
Hypothesis good_processing :
  forall p, endswith ".csv" p || endswith ".CSV" p = true ->
            good ("Processing " ++ p).




End Trace.

End WorldFacts.


(** ** Strings and paths *)

Module StrFacts.
Import PyStr PosixPath.

Lemma append_inj_l a s t : a ++ s = a ++ t -> s = t.
Proof.
  induction a as [|c a IH]; simpl; intros H; [assumption|].
  injection H as H. now apply IH.
Qed.

Lemma append_nil_r s : s ++ "" = s.
Proof. induction s as [|c s IH]; simpl; [reflexivity|now rewrite IH]. Qed.

Lemma append_assoc a b c : (a ++ b) ++ c = a ++ b ++ c.
Proof. induction a as [|x a IH]; simpl; [reflexivity|now rewrite IH]. Qed.

Lemma length_append a b :
  String.length (a ++ b) = (String.length a + String.length b)%nat.
Proof. induction a as [|x a IH]; simpl; [reflexivity|now rewrite IH]. Qed.

Lemma startswith_append p s : startswith p (p ++ s) = true.
Proof.
  induction p as [|c p IH]; simpl; [reflexivity|].
  now rewrite Ascii.eqb_refl, IH.
Qed.

Lemma startswith_split p s :
  startswith p s = true -> s = p ++ drop (String.length p) s.
Proof.
  revert s. induction p as [|c p IH]; intros s; simpl; [reflexivity|].
  destruct s as [|d s]; [discriminate|].
  destruct (Ascii.eqb_spec c d) as [->|]; [|discriminate].
  simpl. intros H. now rewrite <- (IH s H).
Qed.

Lemma drop_append p s : drop (String.length p) (p ++ s) = s.
Proof. induction p as [|c p IH]; simpl; [reflexivity|assumption]. Qed.

Lemma contains_sep_append a b :
  contains_sep (a ++ b) = contains_sep a || contains_sep b.
Proof.
  unfold contains_sep. induction a as [|c a IH]; simpl.
  - reflexivity.
  - destruct (rfind "/" (a ++ b)), (rfind "/" a), (rfind "/" b);
      simpl in *; try reflexivity; try discriminate;
      now destruct (Ascii.eqb c "/").
Qed.

Lemma contains_sep_slash : contains_sep "/" = true.
Proof. reflexivity. Qed.

(** The prefix the paths in the directory [root] share *)
Definition dir_prefix (root : string) : string :=
  if String.eqb root "" || endswith "/" root then root else root ++ "/".

Lemma name_in_Some root p n :
  name_in root p = Some n ->
  p = dir_prefix root ++ n /\ n <> "" /\ contains_sep n = false.
Proof.
  unfold name_in. fold (dir_prefix root).
  destruct (startswith (dir_prefix root) p) eqn:Hs; [|discriminate].
  destruct (String.eqb_spec (drop (String.length (dir_prefix root)) p) "")
    as [|Hne]; [discriminate|].
  destruct (contains_sep (drop (String.length (dir_prefix root)) p)) eqn:Hc;
    [discriminate|].
  simpl. intros [= <-]. split; [now apply startswith_split|now split].
Qed.

Lemma name_in_append root n :
  n <> "" -> contains_sep n = false ->
  name_in root (dir_prefix root ++ n) = Some n.
Proof.
  intros Hne Hc. unfold name_in. fold (dir_prefix root).
  rewrite startswith_append, drop_append, Hc.
  now destruct (String.eqb_spec n "").
Qed.

Lemma startswith_sep_contains n :
  startswith "/" n = true -> contains_sep n = true.
Proof.
  destruct n as [|c n]; [discriminate|]. cbn [startswith].
  destruct (Ascii.eqb_spec "/" c) as [<-|]; [|discriminate].
  intros _. unfold contains_sep. cbn [rfind].
  now destruct (rfind "/" n).
Qed.

(** [join] puts a name behind the prefix of the directory. *)
Lemma join_name root n :
  contains_sep n = false -> join root n = dir_prefix root ++ n.
Proof.
  intros Hc. unfold join, dir_prefix.
  destruct (startswith "/" n) eqn:Hs.
  - apply startswith_sep_contains in Hs. congruence.
  - destruct (String.eqb root "" || endswith "/" root); [reflexivity|].
    now rewrite append_assoc.
Qed.

Lemma join_name_in root p n : name_in root p = Some n -> join root n = p.
Proof.
  intros H. destruct (name_in_Some _ _ _ H) as (-> & _ & Hc).
  now apply join_name.
Qed.

Lemma is_name_spec n :
  is_name n = true -> n <> "" /\ contains_sep n = false.
Proof.
  unfold is_name. destruct (String.eqb_spec n ""); [discriminate|].
  destruct (contains_sep n); [discriminate|]. now split.
Qed.

End StrFacts.


(** ** How often a run processes a file *)

Module CountFacts.
Import PosixPath WorldFacts StrFacts DictFacts.

Lemma times_processed_app p l1 l2 :
  times_processed p (l1 ++ l2)
  = (times_processed p l1 + times_processed p l2)%nat.
Proof. apply count_occ_app. Qed.

Lemma list_sum_double {A} (f : A -> nat) l :
  list_sum (map (fun x => (2 * f x)%nat) l) = (2 * list_sum (map f l))%nat.
Proof. induction l as [|x l IH]; simpl in *; lia. Qed.

Section Counting.
(** The file whose processing is counted: a CSV file *)
Variable p : string.
Hypothesis p_csv : is_csv p = true.

(** The file is there, under one entry *)
Definition present (w : world) : Prop :=
  NoDup (Py.keys (files w)) /\ In p (Py.keys (files w)).

(** A computation that, when it returns, has logged [k] times that it
    processes the file, and has left it in place *)
Definition counts {A} (m : M A) (k : nat) : Prop :=
  forall w w' a,
    present w -> m w = (w', Ok a) ->
    present w'
    /\ exists new,
        log w' = (log w ++ new)%list /\ times_processed p new = k.

Lemma counts_eq {A} (m : M A) k k' : counts m k -> k = k' -> counts m k'.
Proof. now intros H <-. Qed.

Lemma counts_quiet {A} (m : M A) :
  (forall w w' a, m w = (w', Ok a) ->
                  files w' = files w /\ log w' = log w) ->
  counts m 0.
Proof.
  intros H w w' a Hp Hrun. destruct (H _ _ _ Hrun) as [Hf Hl].
  unfold present. rewrite Hf. split; [assumption|].
  exists []. now rewrite app_nil_r.
Qed.

Lemma counts_ret {A} (a : A) : counts (ret a) 0.
Proof. apply counts_quiet. now intros w w' b [= <- _]. Qed.

Lemma counts_lift {A} (r : result A) : counts (lift r) 0.
Proof. apply counts_quiet. unfold lift. now intros w w' b [= <- _]. Qed.

Lemma counts_bind {A B} (m : M A) (f : A -> M B) k1 k2 :
  counts m k1 -> (forall a, counts (f a) k2) ->
  counts (bind m f) (k1 + k2).
Proof.
  intros Hm Hf w w' b Hp Hrun.
  destruct (bind_ok _ _ _ _ _ Hrun) as (a & w1 & H1 & H2).
  destruct (Hm _ _ _ Hp H1) as (Hp1 & n1 & Hl1 & Hc1).
  destruct (Hf a _ _ _ Hp1 H2) as (Hp2 & n2 & Hl2 & Hc2).
  split; [assumption|]. exists (n1 ++ n2)%list. split.
  - now rewrite Hl2, Hl1, app_assoc.
  - rewrite times_processed_app. lia.
Qed.

(** The messages of the run: only one of them counts *)
Definition message_count (msg : string) : nat :=
  if String.eqb msg ("Processing " ++ p) then 1%nat else 0%nat.

Lemma counts_info msg : counts (info msg) (message_count msg).
Proof.
  intros w w' a Hp [= <- _]. split; [exact Hp|].
  exists [msg]. split; [reflexivity|].
  unfold times_processed, message_count. cbn [count_occ].
  destruct (string_dec msg ("Processing " ++ p)) as [->|Hne].
  - now rewrite String.eqb_refl.
  - apply String.eqb_neq in Hne. now rewrite Hne.
Qed.

Lemma counts_open_read path : counts (open_read path) 0.
Proof.
  apply counts_quiet. intros w w' a. unfold open_read.
  destruct (Py.getitem (files w) path) as [[]|]; try discriminate.
  now intros [= <- _].
Qed.

Lemma counts_write_file path c : counts (write_file path c) 0.
Proof.
  intros w w' a [Hnd Hin]. unfold write_file.
  destruct (isdir w path); [discriminate|]. intros [= <- _].
  split.
  - unfold present. cbn [files set_files]. split.
    + now apply keys_setitem_NoDup.
    + rewrite keys_setitem. unfold add_key.
      destruct (existsb (String.eqb path) (Py.keys (files w)));
        [assumption|apply in_or_app; now left].
  - exists []. now rewrite app_nil_r.
Qed.

Lemma counts_create_chart hours : counts (create_chart hours) 0.
Proof.
  apply counts_quiet. intros w w' a. unfold create_chart.
  destruct (matplotlib w && numpy w).
  - now intros [= <- _].
  - discriminate.
Qed.

Lemma counts_show : counts show 0.
Proof. apply counts_quiet. now intros w w' a [= <- _]. Qed.

Lemma counts_savefig fout : counts (savefig fout) 0.
Proof. intros w w' a. apply (counts_write_file fout (Image (current w))). Qed.

Lemma counts_write_csv fin times : counts (write_csv fin times) 0.
Proof.
  unfold write_csv.
  apply (counts_bind _ _ 0 0); [apply counts_info|].
  intros _. apply counts_write_file.
Qed.

(** What processing the path [q] adds *)
Definition path_count (q : string) : nat :=
  if String.eqb q p then 1%nat else 0%nat.

Lemma message_count_processing q :
  message_count ("Processing " ++ q) = path_count q.
Proof.
  unfold message_count, path_count.
  destruct (String.eqb_spec q p) as [->|Hne].
  - now rewrite String.eqb_refl.
  - destruct (String.eqb_spec ("Processing " ++ q) ("Processing " ++ p))
      as [H|]; [|reflexivity].
    now apply append_inj_l in H.
Qed.

Lemma counts_process_file args q :
  counts (process_file args q) (path_count q).
Proof.
  unfold process_file.
  destruct (endswith ".csv" q || endswith ".CSV" q) eqn:E; cbn [negb].
  - apply (counts_eq _ (path_count q + (0 + (0 + (0 + 0))))%nat);
      [|lia].
    apply counts_bind.
    { rewrite <- message_count_processing. apply counts_info. }
    intros _. apply counts_bind; [apply counts_open_read|].
    intros csv_file. apply counts_bind; [apply counts_lift|].
    intros times. apply counts_bind.
    + destruct (plot args || save_plot args); [|apply counts_ret].
      apply (counts_bind _ _ 0 0); [apply counts_create_chart|].
      intros _. apply (counts_bind _ _ 0 0).
      * destruct (save_plot args); [|apply counts_ret]. cbv zeta.
        apply (counts_bind _ _ 0 0); [apply counts_info|].
        intros _. apply counts_savefig.
      * intros _. destruct (plot args); [apply counts_show|apply counts_ret].
    + intros _. destruct (negb (no_export args));
        [apply counts_write_csv|apply counts_ret].
  - apply (counts_eq _ 0); [apply counts_info|].
    unfold path_count. destruct (String.eqb_spec q p) as [->|]; [|reflexivity].
    unfold is_csv in p_csv. congruence.
Qed.

Lemma counts_for_each {A} (l : list A) (body : A -> M unit) f :
  (forall x, In x l -> counts (body x) (f x)) ->
  counts (for_each l body) (list_sum (map f l)).
Proof.
  unfold for_each. induction l as [|x l IH]; intros Hb; simpl.
  - apply counts_ret.
  - apply counts_bind; [apply Hb; now left|].
    intros _. apply IH. intros y Hy. apply Hb. now right.
Qed.

(** *** The listing of a directory *)

Definition listed (root : string) (fs : list (string * content))
  : list string :=
  flat_map (fun '(q, _) =>
              match name_in root q with Some n => [n] | None => [] end)
           fs.

Lemma listed_absent root fs :
  ~ In p (Py.keys fs) ->
  list_sum (map (fun n => path_count (join root n)) (listed root fs)) = 0%nat.
Proof.
  induction fs as [|[q c] fs IH]; simpl; intros Hnot; [reflexivity|].
  rewrite map_app, list_sum_app, IH by tauto.
  destruct (name_in root q) as [n|] eqn:En; [|reflexivity].
  simpl. rewrite (join_name_in _ _ _ En). unfold path_count.
  destruct (String.eqb_spec q p) as [->|]; [|reflexivity]. tauto.
Qed.

Lemma listed_present root fs :
  NoDup (Py.keys fs) -> In p (Py.keys fs) ->
  list_sum (map (fun n => path_count (join root n)) (listed root fs))
  = if lies_in root p then 1%nat else 0%nat.
Proof.
  induction fs as [|[q c] fs IH]; simpl; intros Hnd Hin; [easy|].
  inversion Hnd as [|? ? Hq Hnd']; subst.
  rewrite map_app, list_sum_app.
  destruct (String.eqb_spec q p) as [->|Hne].
  - rewrite (listed_absent root fs Hq). unfold lies_in.
    destruct (name_in root p) as [n|] eqn:En; [|reflexivity].
    simpl. rewrite (join_name_in _ _ _ En). unfold path_count.
    now rewrite String.eqb_refl.
  - rewrite IH;
      [|assumption|destruct Hin as [Heq|Hin]; [contradiction|assumption]].
    destruct (name_in root q) as [n|] eqn:En; [|reflexivity].
    simpl. rewrite (join_name_in _ _ _ En). unfold path_count.
    apply String.eqb_neq in Hne. now rewrite Hne.
Qed.

Lemma message_count_searching q : message_count ("Searching " ++ q) = 0%nat.
Proof. reflexivity. Qed.

(** *** The walk *)

Lemma counts_walk args t :
  forall root, counts (walk args t root) (visits p t root).
Proof.
  induction t as [subdirs IH] using dirtree_ind.
  intros root w w' a Hp Hrun. cbn [walk] in Hrun.
  pose (f := fun nt : string * dirtree =>
               let '(n, t') := nt in visits p t' (join root n)).
  assert (Hchain :
    counts
      (for_each subdirs
         (fun '(dirnam, t') =>
            info ("Searching " ++ join root dirnam) ;;
            walk args t' (join root dirnam)) ;;
       for_each (listdir_files w root)
         (fun filename => process_file args (join root filename)) ;;
       for_each subdirs
         (fun '(dirnam, t') => walk args t' (join root dirnam)))
      (list_sum (map f subdirs)
       + (list_sum (map (fun n => path_count (join root n))
                        (listdir_files w root))
          + list_sum (map f subdirs)))).
  { rewrite Forall_forall in IH.
    apply counts_bind; [|intros _; apply counts_bind; [|intros _]];
      apply counts_for_each.
    - intros [n t'] Hin. unfold f.
      apply (counts_eq _ (0 + visits p t' (join root n))%nat); [|lia].
      apply counts_bind; [apply counts_info|].
      intros _. apply (IH _ Hin).
    - intros x _. apply counts_process_file.
    - intros [n t'] Hin. unfold f. apply (IH _ Hin). }
  destruct (Hchain _ _ _ Hp Hrun) as (Hp' & new & Hlog & Hcount).
  split; [assumption|]. exists new. split; [assumption|].
  rewrite Hcount. destruct Hp as [Hnd Hin].
  change (listdir_files w root) with (listed root (files w)).
  rewrite (listed_present root (files w) Hnd Hin).
  cbn [visits].
  rewrite (map_ext (fun '(n, t') => (2 * visits p t' (join root n))%nat)
                   (fun nt => (2 * f nt)%nat))
    by (intros [n t']; reflexivity).
  rewrite list_sum_double. lia.
Qed.

Lemma counts_process_files_dir args top t w w' :
  lookup_dir w top = Some t ->
  present w ->
  process_files args [top] w = (w', Ok tt) ->
  exists new,
    log w' = (log w ++ new)%list
    /\ times_processed p new = visits p t top.
Proof.
  intros Hdir Hp Hrun.
  assert (Hc : counts (info ("Searching " ++ top) ;; walk args t top ;;
                       ret tt)
                      (0 + (visits p t top + 0))%nat).
  { apply counts_bind; [apply counts_info|]. intros _.
    apply counts_bind; [apply counts_walk|]. intros _. apply counts_ret. }
  unfold process_files, for_each in Hrun. cbn [for_each_in] in Hrun.
  unfold bind at 1 in Hrun. rewrite Hdir in Hrun.
  assert (Hrun' : (info ("Searching " ++ top) ;; walk args t top ;; ret tt) w
                  = (w', Ok tt)).
  { unfold bind at 1. unfold bind at 1.
    unfold bind at 1 in Hrun.
    destruct (info ("Searching " ++ top) w) as [w1 [[]|e]] eqn:E1;
      [|discriminate].
    destruct (walk args t top w1) as [w2 [[]|e]]; [|discriminate].
    exact Hrun. }
  destruct (Hc _ _ _ Hp Hrun') as (_ & new & Hlog & Hcount).
  exists new. split; [assumption|]. rewrite Hcount. lia.
Qed.
End Counting.

End CountFacts.


(** ** Where the walk finds a file *)

Module VisitFacts.
Import PyStr PosixPath WorldFacts StrFacts.

Lemma take_drop k s : s = take k s ++ drop k s.
Proof.
  revert s. induction k as [|k IH]; intros [|c s]; simpl; try reflexivity.
  now rewrite <- IH.
Qed.

Lemma endswith_sep_split x :
  endswith "/" x = true -> exists y, x = y ++ "/".
Proof.
  unfold endswith. intros H. apply andb_prop in H as [_ H].
  apply String.eqb_eq in H.
  exists (take (String.length x - String.length "/") x).
  pose proof (take_drop (String.length x - String.length "/") x) as E.
  now rewrite H in E.
Qed.

Lemma append_sep_tail a n y :
  n <> "" -> a ++ n = y ++ "/" -> contains_sep n = true.
Proof.
  intros Hn. revert y. induction a as [|c a IH]; intros y H; simpl in H.
  - subst n. rewrite contains_sep_append, contains_sep_slash.
    apply orb_true_r.
  - destruct y as [|d y]; simpl in H.
    + injection H as _ H. destruct a; [simpl in H; contradiction|discriminate].
    + injection H as _ H. now apply (IH y).
Qed.

(** A path that ends with a name is the prefix of its entries only
    with a separator added. *)
Lemma dir_prefix_name a n :
  n <> "" -> contains_sep n = false ->
  dir_prefix (a ++ n) = (a ++ n) ++ "/".
Proof.
  intros Hn Hc. unfold dir_prefix.
  destruct (String.eqb_spec (a ++ n) "") as [He|_].
  - destruct a; [simpl in He; contradiction|discriminate].
  - destruct (endswith "/" (a ++ n)) eqn:E; [|reflexivity].
    apply endswith_sep_split in E as [y Hy].
    rewrite (append_sep_tail a n y Hn Hy) in Hc. discriminate.
Qed.

Lemma list_sum_zero {A} (f : A -> nat) l :
  Forall (fun x => f x = 0%nat) l -> list_sum (map f l) = 0%nat.
Proof. induction 1 as [|x l Hx _ IH]; simpl; [reflexivity|lia]. Qed.

Lemma list_sum_In {A} (f : A -> nat) l x :
  In x l -> (f x <= list_sum (map f l))%nat.
Proof.
  induction l as [|y l IH]; simpl; [easy|].
  intros [->|H]; [lia|]. specialize (IH H). lia.
Qed.

(** A file that lies [depth] directories down is listed at least
    [2 ^ depth] times. *)
Lemma lies_at_visits p depth :
  forall t root,
    lies_at depth p t root = true -> (2 ^ depth <= visits p t root)%nat.
Proof.
  induction depth as [|d IH]; intros [subdirs] root H.
  - cbn [lies_at] in H. cbn [visits]. rewrite H. simpl. lia.
  - cbn [lies_at] in H. apply existsb_exists in H as ([n t'] & Hin & H).
    specialize (IH _ _ H). cbn [visits].
    pose proof (list_sum_In
                  (fun '(n, t') => (2 * visits p t' (join root n))%nat)
                  subdirs (n, t') Hin) as Hle.
    cbv beta iota in Hle. rewrite Nat.pow_succ_r'. lia.
Qed.

Section Below.
(** A file directly in the directory [top] *)
Variables top n0 : string.
Hypothesis n0_plain : contains_sep n0 = false.

(** No directory below [top] lists it. *)
Lemma visits_below t :
  forall r s,
    names_ok t = true ->
    r = dir_prefix top ++ s ->
    dir_prefix r = r ++ "/" ->
    visits (dir_prefix top ++ n0) t r = 0%nat.
Proof.
  induction t as [subdirs IH] using dirtree_ind.
  intros r s Hok Hs Hpre. cbn [visits].
  assert (Hnot : lies_in r (dir_prefix top ++ n0) = false).
  { unfold lies_in.
    destruct (name_in r (dir_prefix top ++ n0)) as [n'|] eqn:En;
      [|reflexivity].
    apply name_in_Some in En as (Heq & _ & _).
    rewrite Hpre, Hs, !append_assoc in Heq. apply append_inj_l in Heq.
    rewrite Heq, !contains_sep_append, contains_sep_slash in n0_plain.
    rewrite orb_true_r in n0_plain. discriminate. }
  rewrite Hnot. cbn [names_ok] in Hok. rewrite forallb_forall in Hok.
  rewrite Forall_forall in IH.
  rewrite list_sum_zero; [reflexivity|].
  apply Forall_forall. intros [n t'] Hin.
  specialize (Hok _ Hin). cbv beta iota in Hok.
  apply andb_prop in Hok as [Hn Hok].
  apply is_name_spec in Hn as [Hne Hc].
  assert (Hj : join r n = dir_prefix top ++ (s ++ "/" ++ n)).
  { rewrite (join_name _ _ Hc), Hpre, Hs. now rewrite !append_assoc. }
  enough (E : visits (dir_prefix top ++ n0) t' (join r n) = 0%nat)
    by (cbv beta iota; now rewrite E).
  apply (IH _ Hin (join r n) (s ++ "/" ++ n) Hok Hj).
  rewrite Hj.
  replace (dir_prefix top ++ s ++ "/" ++ n)
    with ((dir_prefix top ++ s ++ "/") ++ n)
    by now rewrite !append_assoc.
  now apply dir_prefix_name.
Qed.

(** The walk of [top] lists it once. *)
Lemma visits_top t :
  names_ok t = true -> n0 <> "" ->
  visits (dir_prefix top ++ n0) t top = 1%nat.
Proof.
  intros Hok Hne. destruct t as [subdirs]. cbn [visits].
  unfold lies_in. rewrite (name_in_append top n0 Hne n0_plain).
  cbn [names_ok] in Hok. rewrite forallb_forall in Hok.
  rewrite list_sum_zero; [reflexivity|].
  apply Forall_forall. intros [n t'] Hin.
  specialize (Hok _ Hin). cbv beta iota in Hok.
  apply andb_prop in Hok as [Hn Hok].
  apply is_name_spec in Hn as [Hn Hc].
  enough (E : visits (dir_prefix top ++ n0) t' (join top n) = 0%nat)
    by (cbv beta iota; now rewrite E).
  apply (visits_below t' (join top n) n Hok).
  - now apply join_name.
  - rewrite (join_name _ _ Hc). now apply dir_prefix_name.
Qed.
End Below.

Lemma lies_in_visits top p t :
  names_ok t = true -> lies_in top p = true -> visits p t top = 1%nat.
Proof.
  intros Hok H. unfold lies_in in H.
  destruct (name_in top p) as [n0|] eqn:En; [|discriminate].
  apply name_in_Some in En as (-> & Hne & Hc).
  now apply visits_top.
Qed.

End VisitFacts.


(** ** Rounding to binary64 *)

Module RoundFacts.
Import PyFloat.

Lemma rne_near q r den m :
  0 < den -> 0 <= r < den ->
  Z.abs (2 * (q * den + r) - 2 * m * den) < den ->
  rne q r den = m.
Proof.
  intros Hden Hr Habs.
  assert (Hq : q = m \/ q = m - 1) by nia.
  unfold rne. destruct Hq as [->| ->].
  - destruct (Z.compare_spec (2 * r) den) as [H|H|H]; [lia|reflexivity|lia].
  - destruct (Z.compare_spec (2 * r) den) as [H|H|H]; lia.
Qed.

Lemma rne_scale q r den c :
  0 < c -> rne q (r * c) (den * c) = rne q r den.
Proof.
  intros Hc. unfold rne.
  destruct (Z.compare_spec (2 * (r * c)) (den * c)),
    (Z.compare_spec (2 * r) den); try reflexivity; nia.
Qed.

(** The result depends on the fraction [A / B] only. *)
Lemma round_units_scale A B c :
  0 < B -> 0 < c -> round_units (A * c) (B * c) = round_units A B.
Proof.
  intros HB Hc. unfold round_units.
  rewrite (Z.div_mul_cancel_r A B c) by lia.
  set (j := Z.max 0 (Z.log2 (A / B) - 52)).
  assert (Hp : 0 < 2 ^ j) by (apply Z.pow_pos_nonneg; lia).
  replace (B * c * 2 ^ j) with (B * 2 ^ j * c) by ring.
  assert (Hden : 0 < B * 2 ^ j) by lia.
  rewrite (Z.div_mul_cancel_r A (B * 2 ^ j) c) by lia.
  rewrite (Z.mul_mod_distr_r A (B * 2 ^ j) c) by lia.
  now rewrite rne_scale.
Qed.

(** Mantissa and shift of a binary64 magnitude, in units of [2^-1074] *)
Definition valid_units (m j : Z) : Prop :=
  (j = 0 /\ 0 < m < 2 ^ 53) \/ (0 < j /\ 2 ^ 52 <= m < 2 ^ 53).

Lemma div_bounds A B lo hi :
  0 < B -> lo * B <= A -> A < hi * B -> lo <= A / B < hi.
Proof.
  intros HB Hlo Hhi. split.
  - apply Z.div_le_lower_bound; lia.
  - apply Z.div_lt_upper_bound; lia.
Qed.

(** A fraction whose relative distance from [m * 2^j] is below [2^-54]
    rounds to [m * 2^j]. *)
Lemma round_units_close A B m j :
  0 <= A -> 0 < B -> valid_units m j ->
  Z.abs (A - m * 2 ^ j * B) * 2 ^ 54 < m * 2 ^ j * B ->
  round_units A B = (m, j).
Proof.
  intros HA HB Hv Hclose.
  assert (Hj : 0 <= j) by (destruct Hv; lia).
  assert (HP : 0 < 2 ^ j) by (apply Z.pow_pos_nonneg; lia).
  assert (Hm : 0 < m < 2 ^ 53) by (destruct Hv; lia).
  unfold valid_units in Hv.
  change (2 ^ 53) with 9007199254740992 in *.
  change (2 ^ 52) with 4503599627370496 in *.
  change (2 ^ 54) with 18014398509481984 in *.
  set (P := 2 ^ j) in *.
  set (PB := P * B).
  assert (HPB : 0 < PB) by (unfold PB; nia).
  replace (m * P * B) with (m * PB) in Hclose by (unfold PB; ring).
  (* the distance is below half a unit of the last place *)
  assert (Hhalf : 2 * Z.abs (A - m * PB) < PB) by nia.
  unfold round_units.
  destruct (Z_lt_le_dec A (4503599627370496 * PB)) as [Hlow|Hhigh].
  - destruct (Z.eq_dec j 0) as [Hj0|Hj0].
    + (* no shift *)
      assert (HP1 : P = 1) by (unfold P; now rewrite Hj0).
      assert (HPB1 : PB = B) by (unfold PB; lia).
      assert (Hq : 0 <= A / B < 4503599627370496).
      { apply div_bounds; lia. }
      assert (Hlog : Z.log2 (A / B) < 52).
      { destruct (Z.eq_dec (A / B) 0) as [->|Hne]; [reflexivity|].
        apply Z.log2_lt_pow2; [lia|].
        change (2 ^ 52) with 4503599627370496. lia. }
      rewrite Z.max_l by lia. rewrite Z.pow_0_r, Z.mul_1_r.
      assert (HM : rne (A / B) (A mod B) B = m).
      { apply rne_near; [lia|apply Z.mod_pos_bound; lia|].
        rewrite (Z.mul_comm (A / B) B), <- Z.div_mod by lia.
        rewrite HPB1 in Hhalf. lia. }
      rewrite HM. change (2 ^ 53) with 9007199254740992.
      destruct (Z.eqb_spec m 9007199254740992); [lia|]. now rewrite Hj0.
    + (* just below a power of two *)
      assert (Hm52 : m = 4503599627370496).
      { destruct (Z_le_gt_dec m 4503599627370496); [lia|].
        assert (4503599627370497 * PB <= m * PB)
          by (apply Z.mul_le_mono_nonneg_r; lia).
        lia. }
      subst m.
      assert (Hj1 : 0 <= j - 1) by lia.
      set (P' := 2 ^ (j - 1)).
      assert (HP' : P = 2 * P').
      { unfold P, P'. rewrite <- Z.pow_succ_r by lia. f_equal. lia. }
      assert (HP'0 : 0 < P') by lia.
      assert (Hq : 2 ^ (51 + j) <= A / B < 2 ^ (51 + j + 1)).
      { rewrite !Z.pow_add_r by lia. fold P.
        change (2 ^ 51) with 2251799813685248. change (2 ^ 1) with 2.
        apply div_bounds; unfold PB in *; nia. }
      rewrite (Z.log2_unique (A / B) (51 + j)) by lia.
      replace (51 + j - 52) with (j - 1) by lia.
      rewrite Z.max_r by lia. fold P'.
      assert (HM : rne (A / (B * P')) (A mod (B * P')) (B * P')
                   = 9007199254740992).
      { apply rne_near; [nia|apply Z.mod_pos_bound; nia|].
        rewrite (Z.mul_comm (A / (B * P')) (B * P')), <- Z.div_mod by nia.
        unfold PB in *. nia. }
      rewrite HM. change (9007199254740992 =? 2 ^ 53) with true.
      cbv iota. change (2 ^ 52) with 4503599627370496. f_equal. lia.
  - (* in the binade of [m] *)
    assert (Hm52 : 4503599627370496 <= m).
    { destruct (Z_le_gt_dec 4503599627370496 m); [assumption|].
      assert (m * PB <= 4503599627370495 * PB)
        by (apply Z.mul_le_mono_nonneg_r; lia).
      lia. }
    assert (Hm53 : m * PB <= 9007199254740991 * PB)
      by (apply Z.mul_le_mono_nonneg_r; lia).
    assert (Hq : 2 ^ (52 + j) <= A / B < 2 ^ (52 + j + 1)).
    { rewrite !Z.pow_add_r by lia. fold P.
      change (2 ^ 52) with 4503599627370496. change (2 ^ 1) with 2.
      apply div_bounds; unfold PB in *; nia. }
    rewrite (Z.log2_unique (A / B) (52 + j)) by lia.
    replace (52 + j - 52) with j by lia.
    rewrite Z.max_r by lia. fold P.
    assert (HM : rne (A / (B * P)) (A mod (B * P)) (B * P) = m).
    { apply rne_near; [nia|apply Z.mod_pos_bound; nia|].
      rewrite (Z.mul_comm (A / (B * P)) (B * P)), <- Z.div_mod by nia.
      unfold PB in *. replace (B * P) with (P * B) by ring. lia. }
    rewrite HM. change (2 ^ 53) with 9007199254740992.
    destruct (Z.eqb_spec m 9007199254740992); [lia|reflexivity].
Qed.

End RoundFacts.


(** ** Decimals that read back as a float *)

Module DecimalFacts.
Import PyFloat RoundFacts.

Lemma float_eqb_eq x y : float_eqb x y = true -> x = y.
Proof.
  destruct x as [a|a| |a m e], y as [b|b| |b n f]; simpl;
    try discriminate; try reflexivity.
  - intros H. apply Bool.eqb_prop in H. now subst.
  - intros H. apply Bool.eqb_prop in H. now subst.
  - intros H. apply andb_prop in H as [H He]. apply andb_prop in H as [Hs Hm].
    apply Bool.eqb_prop in Hs. apply Pos.eqb_eq in Hm. apply Z.eqb_eq in He.
    now subst.
Qed.

Lemma digits2_pos_spec m :
  2 ^ (Zpos (digits2_pos m) - 1) <= Zpos m < 2 ^ Zpos (digits2_pos m).
Proof.
  induction m as [m IH|m IH|]; cbn [digits2_pos].
  - rewrite Pos2Z.inj_succ.
    replace (Z.succ (Zpos (digits2_pos m)) - 1)
      with (Z.succ (Zpos (digits2_pos m) - 1)) by lia.
    rewrite !Z.pow_succ_r by lia. lia.
  - rewrite Pos2Z.inj_succ.
    replace (Z.succ (Zpos (digits2_pos m)) - 1)
      with (Z.succ (Zpos (digits2_pos m) - 1)) by lia.
    rewrite !Z.pow_succ_r by lia. lia.
  - simpl. lia.
Qed.

(** A valid binary64 number, in units of [2^-1074] *)
Lemma valid_bounds m e :
  bounded prec emax m e = true ->
  valid_units (Zpos m) (e + 1074) /\ 0 <= e + 1074 <= 2045.
Proof.
  unfold bounded, canonical_mantissa, fexp, emin, prec, emax.
  intros H. apply andb_prop in H as [Hc He].
  apply Z.eqb_eq in Hc. apply Z.leb_le in He.
  pose proof (digits2_pos_spec m) as Hd.
  set (d := Zpos (digits2_pos m)) in *.
  unfold valid_units.
  destruct (Z_le_gt_dec (d + e - 53) (3 - 1024 - 53)) as [Hsub|Hnorm].
  - rewrite Z.max_r in Hc by lia. split; [|lia]. left. split; [lia|].
    split; [lia|].
    apply Z.lt_le_trans with (2 ^ d); [lia|].
    apply Z.pow_le_mono_r; lia.
  - rewrite Z.max_l in Hc by lia.
    assert (Hd53 : d = 53) by lia. rewrite Hd53 in Hd.
    change (53 - 1) with 52 in Hd. split; [|lia].
    destruct (Z.eq_dec (e + 1074) 0) as [H0|H0].
    + left. split; [assumption|lia].
    + right. split; [lia|assumption].
Qed.

(** *** The fraction of a float and of a decimal *)

Lemma frac_den_pos e : 0 < frac_den e.
Proof.
  unfold frac_den. destruct (Z.leb_spec 0 e); [lia|].
  apply Z.pow_pos_nonneg; lia.
Qed.

Lemma frac_num_pos m e : 0 < frac_num m e.
Proof.
  unfold frac_num. destruct (Z.leb_spec 0 e); [|lia].
  assert (0 < 2 ^ e) by (apply Z.pow_pos_nonneg; lia). nia.
Qed.

(** The float, in units of [2^-1074], is [frac_num / frac_den]. *)
Lemma frac_units m e :
  0 <= e + 1074 ->
  Zpos m * 2 ^ (e + 1074) * frac_den e = frac_num m e * 2 ^ 1074.
Proof.
  intros He. unfold frac_num, frac_den.
  destruct (Z.leb_spec 0 e).
  - rewrite Z.pow_add_r by lia. ring.
  - replace 1074 with ((e + 1074) + - e) at 2 by lia.
    rewrite (Z.pow_add_r 2 (e + 1074) (- e)) by lia. ring.
Qed.

Lemma scale10_pos N Dn s a b :
  0 < N -> 0 < Dn -> scale10 N Dn s = (a, b) -> 0 < a /\ 0 < b.
Proof.
  intros HN HD. unfold scale10.
  destruct (Z.leb_spec 0 s); intros [= <- <-].
  - assert (0 < 10 ^ s) by (apply Z.pow_pos_nonneg; lia). nia.
  - assert (0 < 10 ^ (- s)) by (apply Z.pow_pos_nonneg; lia). nia.
Qed.

(** The numerator and denominator of [10^k * 2^1074] *)
Definition ten_num (k : Z) : Z :=
  if 0 <=? k then 10 ^ k * 2 ^ 1074 else 2 ^ 1074.

Definition ten_den (k : Z) : Z := if 0 <=? k then 1 else 10 ^ (- k).

Lemma float_of_decimal_ratio s D k :
  float_of_decimal s D k = float_of_ratio s (D * ten_num k) (ten_den k).
Proof.
  unfold float_of_decimal, ten_num, ten_den.
  destruct (0 <=? k); [|reflexivity]. now rewrite Z.mul_assoc.
Qed.

Lemma ten_num_pos k : 0 < ten_num k.
Proof.
  unfold ten_num. assert (0 < 2 ^ 1074) by now apply Z.pow_pos_nonneg.
  destruct (Z.leb_spec 0 k); [|assumption].
  assert (0 < 10 ^ k) by (apply Z.pow_pos_nonneg; lia). nia.
Qed.

Lemma ten_den_pos k : 0 < ten_den k.
Proof.
  unfold ten_den. destruct (Z.leb_spec 0 k); [lia|].
  apply Z.pow_pos_nonneg; lia.
Qed.

(** [scale10] divides by what [ten_num / ten_den] multiplies with. *)
Lemma scale10_units m e s a b :
  0 <= e + 1074 ->
  scale10 (frac_num m e) (frac_den e) s = (a, b) ->
  Zpos m * 2 ^ (e + 1074) * ten_den s * b = a * ten_num s.
Proof.
  intros He. pose proof (frac_units m e He) as Hu.
  set (U := Zpos m * 2 ^ (e + 1074)) in *.
  set (T := 2 ^ 1074) in *.
  unfold scale10, ten_num, ten_den. fold T.
  destruct (0 <=? s); intros [= <- <-].
  - replace (U * 1 * (frac_den e * 10 ^ s))
      with (U * frac_den e * 10 ^ s) by ring.
    rewrite Hu. ring.
  - replace (U * 10 ^ (- s) * frac_den e)
      with (U * frac_den e * 10 ^ (- s)) by ring.
    rewrite Hu. ring.
Qed.

End DecimalFacts.


(** ** The digits of [repr] read back *)

Module ReadBack.
Import PyFloat RoundFacts DecimalFacts.

Lemma float_of_ratio_units s A B m e :
  0 <= e + 1074 <= 2045 ->
  round_units A B = (Zpos m, e + 1074) ->
  float_of_ratio s A B = S754_finite s m e.
Proof.
  intros He H. unfold float_of_ratio. rewrite H.
  destruct (Z.leb_spec (e + 1074) 2045); [|lia].
  f_equal. lia.
Qed.

(** A decimal [D * 10^s] whose relative distance from the float is
    below [2^-54] reads back as the float. *)
Lemma float_of_decimal_close sg m e D s a b :
  bounded prec emax m e = true ->
  scale10 (frac_num m e) (frac_den e) s = (a, b) ->
  0 <= D ->
  Z.abs (D * b - a) * 2 ^ 54 < a ->
  float_of_decimal sg D s = S754_finite sg m e.
Proof.
  intros Hv Hs HD Hclose.
  destruct (valid_bounds m e Hv) as [Hu He].
  destruct (scale10_pos _ _ _ _ _ (frac_num_pos m e) (frac_den_pos e) Hs)
    as [Ha Hb].
  pose proof (scale10_units m e s a b (proj1 He) Hs) as Hrel.
  pose proof (ten_num_pos s) as HTn. pose proof (ten_den_pos s) as HTd.
  rewrite float_of_decimal_ratio.
  apply float_of_ratio_units; [assumption|].
  apply round_units_close; [nia|assumption|assumption|].
  set (U := Zpos m * 2 ^ (e + 1074)) in *.
  set (Tn := ten_num s) in *. set (Td := ten_den s) in *.
  set (c := 2 ^ 54) in *.
  apply (Z.mul_lt_mono_pos_r b); [assumption|].
  rewrite Hrel.
  replace (Z.abs (D * Tn - U * Td) * c * b)
    with (Z.abs (D * Tn - U * Td) * Z.abs b * c) by (rewrite (Z.abs_eq b); lia).
  rewrite <- Z.abs_mul.
  replace ((D * Tn - U * Td) * b) with ((D * b - a) * Tn)
    by (ring_simplify; rewrite <- Hrel; ring).
  rewrite Z.abs_mul, (Z.abs_eq Tn) by lia.
  replace (Z.abs (D * b - a) * Tn * c) with (Z.abs (D * b - a) * c * Tn)
    by ring.
  apply Z.mul_lt_mono_pos_r; assumption.
Qed.

Lemma rne_cases q r den : rne q r den = q \/ rne q r den = q + 1.
Proof.
  unfold rne. destruct (2 * r ?= den); [|now left|now right].
  destruct (Z.even q); [now left|now right].
Qed.

Lemma rne_bound q r den :
  0 <= r < den ->
  2 * Z.abs (rne q r den * den - (q * den + r)) <= den.
Proof.
  intros Hr. unfold rne.
  destruct (Z.compare_spec (2 * r) den) as [H|H|H]; [|lia|lia].
  destruct (Z.even q); lia.
Qed.

(** The nearest decimal with a scale at which the float is at least
    [10^16] *)
Lemma nearest_reads sg m e s a b :
  bounded prec emax m e = true ->
  scale10 (frac_num m e) (frac_den e) s = (a, b) ->
  10 ^ 16 * b <= a ->
  float_of_decimal sg (nearest m e s) s = S754_finite sg m e
  /\ 0 <= nearest m e s.
Proof.
  intros Hv Hs Hlow.
  destruct (scale10_pos _ _ _ _ _ (frac_num_pos m e) (frac_den_pos e) Hs)
    as [Ha Hb].
  unfold nearest. rewrite Hs.
  pose proof (Z.mod_pos_bound a b Hb) as Hr.
  pose proof (rne_bound (a / b) (a mod b) b Hr) as Hn.
  rewrite (Z.mul_comm (a / b) b), <- Z.div_mod in Hn by lia.
  assert (Hq : 0 <= a / b) by (apply Z.div_pos; lia).
  assert (H0 : 0 <= rne (a / b) (a mod b) b)
    by (destruct (rne_cases (a / b) (a mod b) b) as [-> | ->]; lia).
  split; [|assumption].
  apply (float_of_decimal_close sg m e _ s a b Hv Hs H0).
  change (2 ^ 54) with 18014398509481984.
  change (10 ^ 16) with 10000000000000000 in Hlow. lia.
Qed.

(** *** The position of the decimal point *)

Lemma find_decpt_lower N Dn fuel :
  forall d,
    (let '(a, b) := scale10 N Dn (d - 1) in b <= a) ->
    let '(a, b) := scale10 N Dn (find_decpt fuel N Dn d - 1) in b <= a.
Proof.
  induction fuel as [|f IH]; intros d Hd; cbn [find_decpt]; [assumption|].
  destruct (scale10 N Dn d) as [a b] eqn:E.
  destruct (Z.ltb_spec a b); [assumption|].
  apply IH. replace (d + 1 - 1) with d by lia. now rewrite E.
Qed.

Lemma decpt_lower m e :
  let '(a, b) := scale10 (frac_num m e) (frac_den e) (decpt_of m e - 1) in
  b <= a.
Proof.
  unfold decpt_of. apply find_decpt_lower.
  replace (Z.min e 0 + 1 - 1) with (Z.min e 0) by lia.
  unfold scale10, frac_num, frac_den.
  destruct (Z.leb_spec 0 e) as [He|He].
  - rewrite Z.min_r by lia. change (0 <=? 0) with true. cbv iota.
    rewrite Z.pow_0_r.
    assert (0 < 2 ^ e) by (apply Z.pow_pos_nonneg; lia). nia.
  - rewrite Z.min_l by lia.
    destruct (Z.leb_spec 0 e); [lia|].
    assert (2 ^ (- e) <= 10 ^ (- e)) by (apply Z.pow_le_mono_l; lia).
    assert (0 < 10 ^ (- e)) by (apply Z.pow_pos_nonneg; lia). nia.
Qed.

Lemma scale10_shift N Dn s k a b a1 b1 :
  0 <= k ->
  scale10 N Dn s = (a, b) -> scale10 N Dn (s + k) = (a1, b1) ->
  a * b1 = a1 * b * 10 ^ k.
Proof.
  intros Hk. unfold scale10.
  destruct (Z.leb_spec 0 s), (Z.leb_spec 0 (s + k));
    intros [= <- <-] [= <- <-]; try lia.
  - rewrite Z.pow_add_r by lia. ring.
  - replace k with (- s + (s + k)) at 2 by lia.
    rewrite (Z.pow_add_r 10 (- s) (s + k)) by lia. ring.
  - replace (- s) with (- (s + k) + k) at 1 by lia.
    rewrite (Z.pow_add_r 10 (- (s + k)) k) by lia. ring.
Qed.

(** Seventeen digits below the decimal point the float is at least
    [10^16]. *)
Lemma decpt_scale m e a b :
  scale10 (frac_num m e) (frac_den e) (decpt_of m e - 17) = (a, b) ->
  10 ^ 16 * b <= a.
Proof.
  intros Hs. pose proof (decpt_lower m e) as Hl.
  destruct (scale10 (frac_num m e) (frac_den e) (decpt_of m e - 1))
    as [a1 b1] eqn:E1.
  destruct (scale10_pos _ _ _ _ _ (frac_num_pos m e) (frac_den_pos e) Hs)
    as [Ha Hb].
  destruct (scale10_pos _ _ _ _ _ (frac_num_pos m e) (frac_den_pos e) E1)
    as [Ha1 Hb1].
  replace (decpt_of m e - 1) with (decpt_of m e - 17 + 16) in E1 by lia.
  pose proof (scale10_shift _ _ _ 16 _ _ _ _ ltac:(lia) Hs E1) as Hrel.
  set (c := 10 ^ 16) in *.
  assert (0 < c) by reflexivity.
  apply (Z.mul_le_mono_pos_r _ _ b1); [assumption|].
  rewrite Hrel.
  replace (c * b * b1) with (b1 * (b * c)) by ring.
  replace (a1 * b * c) with (a1 * (b * c)) by ring.
  apply Z.mul_le_mono_nonneg_r; nia.
Qed.

End ReadBack.


(** ** The digits [repr] chooses *)

Module ShortestFacts.
Import PyFloat RoundFacts DecimalFacts ReadBack.

Lemma round_units_zero B : 0 < B -> round_units 0 B = (0, 0).
Proof.
  intros HB. unfold round_units. rewrite Z.div_0_l by lia.
  change (Z.max 0 (Z.log2 0 - 52)) with 0.
  rewrite Z.pow_0_r, Z.mul_1_r, Z.div_0_l, Z.mod_0_l by lia.
  unfold rne. destruct (Z.compare_spec (2 * 0) B); try lia. reflexivity.
Qed.

Lemma float_of_decimal_zero sg s : float_of_decimal sg 0 s = S754_zero sg.
Proof.
  rewrite float_of_decimal_ratio. unfold float_of_ratio.
  rewrite Z.mul_0_l, round_units_zero by apply ten_den_pos. reflexivity.
Qed.

(** The sign is put in front of the magnitude. *)
Lemma float_of_decimal_sign sg D s m e :
  float_of_decimal false D s = S754_finite false m e ->
  float_of_decimal sg D s = S754_finite sg m e.
Proof.
  rewrite !float_of_decimal_ratio. unfold float_of_ratio.
  destruct (round_units (D * ten_num s) (ten_den s)) as [M j].
  destruct M as [|M|M]; try discriminate.
  destruct (j <=? 2045); [|discriminate].
  now intros [= -> ->].
Qed.

(** Zeros at the end of the digits can go to the exponent. *)
Lemma float_of_decimal_shift sg D k j :
  0 <= j ->
  float_of_decimal sg (D * 10 ^ j) (k - j) = float_of_decimal sg D k.
Proof.
  intros Hj. rewrite !float_of_decimal_ratio. unfold float_of_ratio.
  assert (HP : 0 < 10 ^ j) by (apply Z.pow_pos_nonneg; lia).
  enough (E : round_units (D * 10 ^ j * ten_num (k - j)) (ten_den (k - j))
              = round_units (D * ten_num k) (ten_den k)) by now rewrite E.
  unfold ten_num, ten_den. set (T := 2 ^ 1074).
  destruct (Z.leb_spec 0 (k - j)), (Z.leb_spec 0 k); try lia.
  - f_equal. replace k with (j + (k - j)) at 2 by lia.
    rewrite (Z.pow_add_r 10 j (k - j)) by lia. ring.
  - rewrite <- (round_units_scale (D * (10 ^ k * T)) 1 (10 ^ (- (k - j))))
      by (try apply Z.pow_pos_nonneg; lia).
    f_equal; [|ring].
    replace j with (k + - (k - j)) at 1 by lia.
    rewrite (Z.pow_add_r 10 k (- (k - j))) by lia. ring.
  - rewrite <- (round_units_scale (D * T) (10 ^ (- k)) (10 ^ j))
      by (try apply Z.pow_pos_nonneg; lia).
    f_equal; [ring|].
    replace (- (k - j)) with (- k + j) by lia.
    now rewrite Z.pow_add_r by lia.
Qed.

Lemma candidate_reads m e s D :
  candidate m e s = Some D ->
  float_of_decimal false D s = S754_finite false m e /\ 0 <= D.
Proof.
  unfold candidate.
  destruct (scale10 (frac_num m e) (frac_den e) s) as [a b] eqn:Hs.
  destruct (scale10_pos _ _ _ _ _ (frac_num_pos m e) (frac_den_pos e) Hs)
    as [Ha Hb].
  assert (Hq : 0 <= a / b) by (apply Z.div_pos; lia).
  destruct (float_eqb (float_of_decimal false (a / b) s)
                      (S754_finite false m e)) eqn:Elo;
    destruct (float_eqb (float_of_decimal false (a / b + 1) s)
                        (S754_finite false m e)) eqn:Ehi;
    try discriminate; intros [= <-].
  - apply float_eqb_eq in Elo, Ehi.
    destruct (rne_cases (a / b) (a mod b) b) as [-> | ->];
      (split; [assumption|lia]).
  - apply float_eqb_eq in Elo. split; [assumption|lia].
  - apply float_eqb_eq in Ehi. split; [assumption|lia].
Qed.

Lemma shortest_reads m e :
  bounded prec emax m e = true ->
  forall fuel n D s,
    shortest fuel m e (decpt_of m e) n = (D, s) ->
    float_of_decimal false D s = S754_finite false m e /\ 0 < D.
Proof.
  intros Hv.
  assert (Hpos : forall D s,
             float_of_decimal false D s = S754_finite false m e ->
             0 <= D -> 0 < D).
  { intros D s Hr HD. destruct (Z.eq_dec D 0) as [->|]; [|lia].
    rewrite float_of_decimal_zero in Hr. discriminate. }
  induction fuel as [|f IH]; intros n D s; cbn [shortest].
  - intros [= <- <-].
    destruct (scale10 (frac_num m e) (frac_den e) (decpt_of m e - 17))
      as [a b] eqn:Hs.
    destruct (nearest_reads false m e _ a b Hv Hs (decpt_scale m e a b Hs))
      as [Hr H0].
    split; [assumption|]. now apply (Hpos _ _ Hr).
  - destruct (candidate m e (decpt_of m e - n)) as [D'|] eqn:Ec.
    + intros [= <- <-]. destruct (candidate_reads _ _ _ _ Ec) as [Hr H0].
      split; [assumption|]. now apply (Hpos _ _ Hr).
    + apply IH.
Qed.

Lemma strip_zeros_reads sg fuel :
  forall D s D' s',
    strip_zeros fuel D s = (D', s') ->
    0 < D ->
    float_of_decimal sg D' s' = float_of_decimal sg D s /\ 0 < D'.
Proof.
  induction fuel as [|f IH]; intros D s D' s'; cbn [strip_zeros].
  - intros [= <- <-] HD. now split.
  - destruct (Z.eqb_spec (D mod 10) 0) as [Hmod|Hmod]; cbn [andb].
    + destruct (Z.ltb_spec 0 D) as [HD|HD].
      * intros Hs _.
        assert (Hdiv : D = D / 10 * 10 ^ 1).
        { change (10 ^ 1) with 10.
          rewrite (Z.div_mod D 10) at 1 by lia. lia. }
        assert (0 < D / 10) by (change (10 ^ 1) with 10 in Hdiv; lia).
        destruct (IH _ _ _ _ Hs) as [Hr HD']; [assumption|].
        split; [|assumption]. rewrite Hr.
        rewrite Hdiv at 2. replace s with (s + 1 - 1) at 2 by lia.
        now rewrite float_of_decimal_shift by lia.
      * intros [= <- <-] H. now split.
    + intros [= <- <-] H. now split.
Qed.

End ShortestFacts.


(** ** Digits *)

Module DigitFacts.
Import PyStr PyFloat.

Lemma digits_val_acc ds :
  forall acc,
    fold_left (fun acc c => 10 * acc + digit_val c) ds acc
    = acc * 10 ^ Z.of_nat (List.length ds) + digits_val ds.
Proof.
  unfold digits_val. induction ds as [|c ds IH]; intros acc.
  - simpl. lia.
  - cbn [fold_left List.length]. rewrite (IH (10 * acc + digit_val c)).
    rewrite (IH (10 * 0 + digit_val c)).
    rewrite Nat2Z.inj_succ, Z.pow_succ_r by lia. ring.
Qed.

Lemma digits_val_app a b :
  digits_val (a ++ b)
  = digits_val a * 10 ^ Z.of_nat (List.length b) + digits_val b.
Proof.
  unfold digits_val at 1. rewrite fold_left_app.
  fold (digits_val a). apply digits_val_acc.
Qed.

Lemma digits_val_cons c ds :
  digits_val (c :: ds)
  = digit_val c * 10 ^ Z.of_nat (List.length ds) + digits_val ds.
Proof. apply (digits_val_app [c] ds). Qed.

Lemma digits_val_zeros n : digits_val (zeros n) = 0.
Proof.
  unfold zeros. induction (Z.to_nat n) as [|k IH]; [reflexivity|].
  cbn [repeat]. rewrite digits_val_cons, IH. reflexivity.
Qed.

Lemma zeros_length n : 0 <= n -> Z.of_nat (List.length (zeros n)) = n.
Proof. intros H. unfold zeros. rewrite repeat_length. lia. Qed.

Lemma zeros_digits n : Forall (fun c => is_digit c = true) (zeros n).
Proof.
  unfold zeros. induction (Z.to_nat n); constructor; [reflexivity|assumption].
Qed.

Lemma digit_char_spec d :
  0 <= d <= 9 ->
  digit_val (digit_char d) = d /\ is_digit (digit_char d) = true.
Proof.
  intros H.
  assert (E : d = 0 \/ d = 1 \/ d = 2 \/ d = 3 \/ d = 4 \/ d = 5 \/ d = 6
              \/ d = 7 \/ d = 8 \/ d = 9) by lia.
  repeat destruct E as [->|E]; try subst d; split; reflexivity.
Qed.

(** [str(n)] has the digits of [n]. *)
Lemma digits_fuel_spec f :
  forall n acc,
    0 <= n < 10 ^ Z.of_nat (S f) ->
    exists ds,
      digits_fuel (S f) n acc = (ds ++ acc)%list
      /\ Forall (fun c => is_digit c = true) ds
      /\ ds <> []
      /\ digits_val ds = n.
Proof.
  induction f as [|f IH]; intros n acc Hn.
  - change (10 ^ Z.of_nat 1) with 10 in Hn.
    cbn [digits_fuel]. rewrite Z.mod_small by lia.
    destruct (digit_char_spec n) as [Hv Hd]; [lia|].
    exists [digit_char n]. split; [now destruct (n <? 10)|].
    split; [now constructor|]. split; [discriminate|].
    unfold digits_val. simpl. lia.
  - cbn [digits_fuel]. destruct (Z.ltb_spec n 10) as [Hlt|Hge].
    + rewrite Z.mod_small by lia.
      destruct (digit_char_spec n) as [Hv Hd]; [lia|].
      exists [digit_char n]. split; [reflexivity|].
      split; [now constructor|]. split; [discriminate|].
      unfold digits_val. simpl. lia.
    + rewrite Nat2Z.inj_succ, Z.pow_succ_r in Hn by lia.
      destruct (IH (n / 10) (digit_char (n mod 10) :: acc)) as
        (ds & Heq & Hds & Hne & Hval).
      { split; [apply Z.div_pos; lia|].
        apply Z.div_lt_upper_bound; lia. }
      pose proof (Z.mod_pos_bound n 10 ltac:(lia)) as Hm.
      destruct (digit_char_spec (n mod 10)) as [Hv Hd]; [lia|].
      exists (ds ++ [digit_char (n mod 10)])%list. split.
      { cbn [digits_fuel] in Heq. rewrite Heq. now rewrite <- app_assoc. }
      split; [apply Forall_app; split; [assumption|now constructor]|].
      split; [now destruct ds|].
      rewrite digits_val_app, Hval. cbn [List.length].
      change (10 ^ Z.of_nat 1) with 10.
      unfold digits_val at 1. cbn [fold_left]. rewrite Hv.
      rewrite (Z.div_mod n 10) at 3 by lia. lia.
Qed.

Lemma digits_of_spec n :
  0 <= n ->
  Forall (fun c => is_digit c = true) (digits_of n)
  /\ digits_of n <> []
  /\ digits_val (digits_of n) = n.
Proof.
  intros Hn. unfold digits_of.
  destruct (digits_fuel_spec (Z.to_nat (Z.log2 n)) n []) as
    (ds & Heq & Hds & Hne & Hval).
  - split; [assumption|].
    rewrite Nat2Z.inj_succ, Z2Nat.id by apply Z.log2_nonneg.
    destruct (Z.eq_dec n 0) as [->|H0].
    + now apply Z.pow_pos_nonneg.
    + apply Z.lt_le_trans with (2 ^ Z.succ (Z.log2 n)).
      * apply Z.log2_spec. lia.
      * apply Z.pow_le_mono_l. lia.
  - rewrite Heq, app_nil_r. now repeat split.
Qed.

(** *** Scanning digits *)

Definition stops (rest : list ascii) : Prop :=
  match rest with
  | [] => True
  | c :: _ => is_digit c = false
  end.

Lemma span_digits_app ds rest :
  Forall (fun c => is_digit c = true) ds -> stops rest ->
  span_digits (ds ++ rest) = (ds, rest).
Proof.
  intros Hds Hrest. induction Hds as [|c ds Hc _ IH]; cbn [app span_digits].
  - destruct rest as [|c r]; [reflexivity|].
    cbn [stops] in Hrest. cbn [span_digits]. now rewrite Hrest.
  - now rewrite Hc, IH.
Qed.

(** *** Text without white space and underscores *)

Definition plain (c : ascii) : bool :=
  is_digit c || Ascii.eqb c "." || Ascii.eqb c "e" || Ascii.eqb c "+"
  || Ascii.eqb c "-".

Lemma plain_spec c :
  plain c = true -> is_space c = false /\ Ascii.eqb c "_" = false.
Proof.
  destruct c as [[] [] [] [] [] [] [] []]; vm_compute;
    intros H; try discriminate H; split; reflexivity.
Qed.

Lemma digit_plain c : is_digit c = true -> plain c = true.
Proof. intros H. unfold plain. now rewrite H. Qed.

Lemma lstrip_plain l : Forall (fun c => plain c = true) l -> lstrip l = l.
Proof.
  intros [|c l' Hc _]; [reflexivity|].
  simpl. now rewrite (proj1 (plain_spec c Hc)).
Qed.

Lemma strip_plain l : Forall (fun c => plain c = true) l -> strip l = l.
Proof.
  intros H. unfold strip. rewrite (lstrip_plain l H).
  rewrite lstrip_plain by now apply Forall_rev.
  apply rev_involutive.
Qed.

Lemma remove_underscores_plain l :
  Forall (fun c => plain c = true) l ->
  forall prev,
    match prev with Some p => Ascii.eqb p "_" = false | None => True end ->
    remove_underscores prev l = Some l.
Proof.
  induction 1 as [|c l Hc _ IH]; intros prev Hprev.
  - simpl. destruct prev as [p|]; [now rewrite Hprev|reflexivity].
  - cbn [remove_underscores].
    destruct (plain_spec c Hc) as [_ Hu]. rewrite Hu.
    rewrite (IH (Some c) Hu).
    destruct prev as [p|]; [rewrite Hprev|]; reflexivity.
Qed.

End DigitFacts.


(** ** The layout of [repr] is read by [float] *)

Module FormatFacts.
Import PyStr PyFloat DigitFacts ShortestFacts.

Lemma digit_spec c :
  is_digit c = true ->
  Ascii.eqb c "." = false /\ Ascii.eqb c "-" = false
  /\ Ascii.eqb c "+" = false /\ Ascii.eqb (lower c) "i" = false
  /\ Ascii.eqb (lower c) "n" = false.
Proof.
  destruct c as [[] [] [] [] [] [] [] []]; vm_compute;
    intros H; try discriminate H; repeat split; reflexivity.
Qed.

Lemma parse_decimal_point ip fp rest ex :
  Forall (fun c => is_digit c = true) ip ->
  Forall (fun c => is_digit c = true) fp ->
  stops rest -> (ip ++ fp)%list <> [] ->
  parse_exponent rest = Some ex ->
  parse_decimal (ip ++ "."%char :: fp ++ rest)
  = Some (digits_val (ip ++ fp), ex - Z.of_nat (List.length fp)).
Proof.
  intros Hip Hfp Hrest Hne Hex. unfold parse_decimal.
  rewrite (span_digits_app ip) by (try assumption; reflexivity).
  change (Ascii.eqb "." ".") with true. cbv iota.
  rewrite (span_digits_app fp rest Hfp Hrest).
  destruct (ip ++ fp)%list as [|d ds] eqn:E; [contradiction|].
  now rewrite Hex.
Qed.

Lemma parse_decimal_int ip rest ex :
  Forall (fun c => is_digit c = true) ip ->
  stops rest -> ip <> [] ->
  match rest with c :: _ => Ascii.eqb c "." = false | [] => True end ->
  parse_exponent rest = Some ex ->
  parse_decimal (ip ++ rest) = Some (digits_val ip, ex - 0).
Proof.
  intros Hip Hrest Hne Hdot Hex. unfold parse_decimal.
  rewrite (span_digits_app ip rest Hip Hrest).
  assert (E : (let '(fp, rest') :=
                 match rest with
                 | [] => ([], [])
                 | c :: r =>
                     if Ascii.eqb c "." then span_digits r else ([], rest)
                 end in
               match (ip ++ fp)%list with
               | [] => None
               | d :: ds =>
                   match parse_exponent rest' with
                   | Some ex0 =>
                       Some (digits_val (d :: ds),
                             ex0 - Z.of_nat (List.length fp))
                   | None => None
                   end
               end)
              = match (ip ++ [])%list with
                | [] => None
                | d :: ds =>
                    match parse_exponent rest with
                    | Some ex0 => Some (digits_val (d :: ds), ex0 - 0)
                    | None => None
                    end
                end).
  { destruct rest as [|c r]; [reflexivity|]. now rewrite Hdot. }
  rewrite E, app_nil_r. destruct ip as [|d ds]; [contradiction|].
  now rewrite Hex.
Qed.

(** The exponent [e+XX] or [e-XX] *)
Lemma parse_exponent_repr ex :
  parse_exponent
    ("e"%char :: (if ex <? 0 then "-"%char else "+"%char)
       :: (if Z.abs ex <? 10 then "0"%char :: digits_of (Z.abs ex)
           else digits_of (Z.abs ex)))
  = Some ex.
Proof.
  destruct (digits_of_spec (Z.abs ex) (Z.abs_nonneg ex))
    as (Hds & Hne & Hval).
  set (exd := if Z.abs ex <? 10 then "0"%char :: digits_of (Z.abs ex)
              else digits_of (Z.abs ex)).
  assert (Hexd : Forall (fun c => is_digit c = true) exd)
    by (unfold exd; destruct (Z.abs ex <? 10);
        [constructor; [reflexivity|assumption]|assumption]).
  assert (Hexv : digits_val exd = Z.abs ex).
  { unfold exd. destruct (Z.abs ex <? 10); [|assumption].
    rewrite digits_val_cons, Hval. reflexivity. }
  assert (Hexn : exd <> [])
    by (unfold exd; destruct (Z.abs ex <? 10); [discriminate|assumption]).
  cbn [parse_exponent]. change (Ascii.eqb (lower "e") "e") with true.
  cbv iota.
  pose proof (span_digits_app exd [] Hexd I) as Hspan.
  rewrite app_nil_r in Hspan.
  destruct (Z.ltb_spec ex 0).
  - change (split_sign ("-"%char :: exd)) with (true, exd).
    cbv beta iota. rewrite Hspan. destruct exd as [|d ds]; [contradiction|].
    rewrite Hexv. f_equal. lia.
  - change (split_sign ("+"%char :: exd)) with (false, exd).
    cbv beta iota. rewrite Hspan. destruct exd as [|d ds]; [contradiction|].
    rewrite Hexv. f_equal. lia.
Qed.

Lemma stops_e l : stops ("e"%char :: l).
Proof. reflexivity. Qed.

Lemma Forall_firstn {A} (P : A -> Prop) n :
  forall l, Forall P l -> Forall P (firstn n l).
Proof.
  induction n as [|n IH]; intros l H; [constructor|].
  destruct H; [constructor|]. cbn [firstn]. constructor; auto.
Qed.

Lemma Forall_skipn {A} (P : A -> Prop) n :
  forall l, Forall P l -> Forall P (skipn n l).
Proof.
  induction n as [|n IH]; intros l H; [assumption|].
  destruct H; [constructor|]. cbn [skipn]. auto.
Qed.

Section Layout.
Variable sg : bool.
Variable ds : list ascii.
Hypothesis ds_digits : Forall (fun c => is_digit c = true) ds.
Hypothesis ds_nonempty : ds <> [].

Let nd := Z.of_nat (List.length ds).

(** What [float] makes of the text is the float of the digits at the
    scale of the layout. *)
Lemma parse_format_repr dp :
  exists D k,
    parse_decimal (format_repr ds dp) = Some (D, k)
    /\ float_of_decimal sg D k
       = float_of_decimal sg (digits_val ds) (dp - nd).
Proof.
  unfold format_repr. fold nd.
  destruct ((dp <=? -4) || (16 <? dp)) eqn:Eexp.
  - (* exponent form *)
    pose proof (parse_exponent_repr (dp - 1)) as Hex.
    destruct ds as [|d [|d' rest]] eqn:Eds; [contradiction| |].
    + exists (digits_val [d]), (dp - 1 - 0). split.
      * apply (parse_decimal_int [d]); try assumption;
          [apply stops_e|reflexivity].
      * f_equal. unfold nd. cbn [List.length]. lia.
    + exists (digits_val ([d] ++ d' :: rest)),
        (dp - 1 - Z.of_nat (List.length (d' :: rest))). split.
      * inversion ds_digits as [|? ? Hd Hrest]; subst.
        match type of Hex with
        | parse_exponent ?R = _ =>
            apply (parse_decimal_point [d] (d' :: rest) R (dp - 1))
        end; try assumption; try apply stops_e; try discriminate.
        now constructor.
      * f_equal. unfold nd. cbn [List.length].
        rewrite !Nat2Z.inj_succ. lia.
  - apply orb_false_elim in Eexp as [E4 E16].
    apply Z.leb_gt in E4. apply Z.ltb_ge in E16.
    destruct (Z.leb_spec dp 0) as [E0|E0].
    + (* 0.000ddd *)
      exists (digits_val (["0"%char] ++ zeros (- dp) ++ ds)),
        (0 - Z.of_nat (List.length (zeros (- dp) ++ ds))). split.
      * change ("0"%char :: "."%char :: zeros (- dp) ++ ds)%list
          with (["0"%char] ++ "."%char :: zeros (- dp) ++ ds)%list.
        rewrite <- (app_nil_r (zeros (- dp) ++ ds)) at 1.
        apply parse_decimal_point;
          [now constructor| |exact I|discriminate|reflexivity].
        apply Forall_app. split; [apply zeros_digits|assumption].
      * rewrite length_app, Nat2Z.inj_add, zeros_length by lia.
        fold nd. replace (0 - (- dp + nd)) with (dp - nd) by lia.
        f_equal. cbn [app]. rewrite digits_val_cons, digits_val_app.
        rewrite digits_val_zeros. change (digit_val "0") with 0. lia.
    + destruct (Z.leb_spec nd dp) as [En|En].
      * (* ddd000.0 *)
        exists (digits_val ((ds ++ zeros (dp - nd)) ++ ["0"%char])),
          (0 - Z.of_nat (List.length ["0"%char])). split.
        -- rewrite app_assoc.
           change ["."%char; "0"%char]
             with ("."%char :: ["0"%char] ++ [])%list.
           apply parse_decimal_point;
             [|now constructor|exact I| |reflexivity].
           ++ apply Forall_app. split; [assumption|apply zeros_digits].
           ++ now destruct ds.
        -- cbn [List.length]. change (0 - Z.of_nat 1) with (-1).
           rewrite !digits_val_app, digits_val_zeros.
           rewrite zeros_length by lia. cbn [List.length].
           change (digits_val ["0"%char]) with 0.
           change (10 ^ Z.of_nat 1) with (10 ^ 1).
           replace ((digits_val ds * 10 ^ (dp - nd) + 0) * 10 ^ 1 + 0)
             with (digits_val ds * 10 ^ (dp - nd + 1))
             by (rewrite Z.pow_add_r by lia; ring).
           replace (-1) with (dp - nd - (dp - nd + 1)) by lia.
           apply float_of_decimal_shift. lia.
      * (* ddd.ddd *)
        exists (digits_val (firstn (Z.to_nat dp) ds
                              ++ skipn (Z.to_nat dp) ds)),
          (0 - Z.of_nat (List.length (skipn (Z.to_nat dp) ds))). split.
        -- rewrite <- (app_nil_r (skipn (Z.to_nat dp) ds)) at 1.
           apply parse_decimal_point;
             [now apply Forall_firstn|now apply Forall_skipn|exact I
             | |reflexivity].
           rewrite firstn_skipn. assumption.
        -- rewrite firstn_skipn, length_skipn.
           f_equal. unfold nd in *. lia.
Qed.

Lemma format_repr_plain dp :
  Forall (fun c => plain c = true) (format_repr ds dp).
Proof.
  assert (Hp : Forall (fun c => plain c = true) ds)
    by (eapply Forall_impl; [|exact ds_digits]; apply digit_plain).
  assert (Hz : forall n, Forall (fun c => plain c = true) (zeros n))
    by (intros n; eapply Forall_impl; [|apply zeros_digits];
        apply digit_plain).
  unfold format_repr. fold nd.
  destruct ((dp <=? -4) || (16 <? dp)).
  - destruct (digits_of_spec (Z.abs (dp - 1)) (Z.abs_nonneg _))
      as (Hds & _ & _).
    apply Forall_app. split.
    + destruct ds as [|d [|d' rest]]; [constructor|assumption|].
      inversion Hp; subst. constructor; [assumption|].
      constructor; [reflexivity|assumption].
    + constructor; [reflexivity|].
      constructor; [now destruct (dp - 1 <? 0)|].
      assert (Forall (fun c => plain c = true)
                     (digits_of (Z.abs (dp - 1))))
        by (eapply Forall_impl; [|exact Hds]; apply digit_plain).
      destruct (Z.abs (dp - 1) <? 10); [|assumption].
      constructor; [reflexivity|assumption].
  - destruct (dp <=? 0).
    + constructor; [reflexivity|]. constructor; [reflexivity|].
      apply Forall_app. now split.
    + destruct (nd <=? dp).
      * apply Forall_app. split; [assumption|].
        apply Forall_app. split; [apply Hz|].
        constructor; [reflexivity|]. now constructor.
      * apply Forall_app. split; [now apply Forall_firstn|].
        constructor; [reflexivity|now apply Forall_skipn].
Qed.

(** The text begins with a digit. *)
Lemma format_repr_head dp :
  exists c rest, format_repr ds dp = c :: rest /\ is_digit c = true.
Proof.
  unfold format_repr. fold nd.
  destruct ds as [|d ds'] eqn:Eds; [contradiction|].
  inversion ds_digits as [|? ? Hd Hrest]; subst.
  destruct ((dp <=? -4) || (16 <? dp)).
  - destruct ds'; eexists _, _; split; try reflexivity; assumption.
  - destruct (Z.leb_spec dp 0).
    + eexists _, _. split; reflexivity.
    + destruct (nd <=? dp).
      * eexists _, _. split; [reflexivity|assumption].
      * destruct (Z.to_nat dp) as [|k] eqn:Ek; [lia|].
        eexists _, _. split; [reflexivity|assumption].
Qed.
End Layout.

End FormatFacts.


(** ** Reading what the writer wrote *)

Module CsvFacts.
Import PyStr Csv TextIO.

Lemma chars_of_chars l : chars (of_chars l) = l.
Proof. apply list_ascii_of_string_of_list_ascii. Qed.

Lemma of_chars_chars s : of_chars (chars s) = s.
Proof. apply string_of_list_ascii_of_string. Qed.

Lemma chars_append a b : chars (a ++ b) = (chars a ++ chars b)%list.
Proof.
  unfold chars. induction a as [|c a IH]; simpl; [reflexivity|].
  now rewrite IH.
Qed.

(** The characters of a line, without the end-of-line marker *)
Fixpoint run_chars (p : parser) (l : list ascii) : result parser :=
  match l with
  | [] => Ok p
  | c :: l' =>
      match parse_process_char p (Some c) with
      | Ok p' => run_chars p' l'
      | Raise e => Raise e
      end
  end.

Lemma feed_run l :
  forall p,
    feed p l = match run_chars p l with
               | Ok p' => parse_process_char p' None
               | Raise e => Raise e
               end.
Proof.
  induction l as [|c l IH]; intros p; simpl; [reflexivity|].
  destruct (parse_process_char p (Some c)); [apply IH|reflexivity].
Qed.

Lemma run_chars_snoc l c :
  forall p pc,
    run_chars p l = Ok pc ->
    run_chars p (l ++ [c]) = parse_process_char pc (Some c).
Proof.
  induction l as [|d l IH]; intros p pc; simpl.
  - intros [= ->]. now destruct (parse_process_char pc (Some c)).
  - destruct (parse_process_char p (Some d)); [apply IH|discriminate].
Qed.

(** What the reader yields for the rest [l] of the text, when [p0] was
    the parser at the start of the current line, [cur] is what was read
    of this line and [acr] tells that its last character is a carriage
    return *)
Definition rest_records (p0 : parser) (cur : list ascii) (acr : bool)
  (l : list ascii) : list (list string) * option exn :=
  read_records p0 (split_lines_raw cur acr l).

(** The parser after the characters read so far is [pc]; a line ends
    after a carriage return only inside a quoted field. *)
Definition reached (p0 : parser) (cur : list ascii) (acr : bool)
  (pc : parser) : Prop :=
  run_chars p0 cur = Ok pc /\ (acr = true -> st pc = IN_QUOTED_FIELD).

Lemma quoted_eol pc :
  st pc = IN_QUOTED_FIELD -> parse_process_char pc None = Ok pc.
Proof. intros H. unfold parse_process_char. now rewrite H. Qed.

(** A character other than a line feed *)
Lemma step_char p0 cur acr pc c pc' :
  reached p0 cur acr pc ->
  Ascii.eqb c LF = false ->
  parse_process_char pc (Some c) = Ok pc' ->
  (Ascii.eqb c CR = true -> st pc' = IN_QUOTED_FIELD) ->
  exists p0' cur',
    reached p0' cur' (Ascii.eqb c CR) pc'
    /\ forall l, rest_records p0 cur acr (c :: l)
                 = rest_records p0' cur' (Ascii.eqb c CR) l.
Proof.
  intros [Hrun Hacr] Hlf Hstep Hcr. unfold rest_records.
  cbn [split_lines_raw]. rewrite Hlf. destruct acr.
  - specialize (Hacr eq_refl). exists pc, [c]. split.
    + split; [|assumption]. simpl. now rewrite Hstep.
    + intros l. cbn [read_records].
      rewrite chars_of_chars, feed_run, Hrun, (quoted_eol pc Hacr), Hacr.
      reflexivity.
  - exists p0, (cur ++ [c])%list. split; [|reflexivity].
    split; [|assumption]. now rewrite (run_chars_snoc _ _ _ _ Hrun).
Qed.

(** A line feed inside a quoted field *)
Lemma step_lf_quoted p0 cur acr pc l :
  reached p0 cur acr pc ->
  st pc = IN_QUOTED_FIELD ->
  rest_records p0 cur acr (LF :: l)
  = rest_records (parse_add_char LF pc) [] false l.
Proof.
  intros [Hrun _] Hst. unfold rest_records.
  cbn [split_lines_raw]. change (Ascii.eqb LF LF) with true. cbv iota.
  cbn [read_records]. rewrite chars_of_chars, feed_run.
  rewrite (run_chars_snoc _ _ _ _ Hrun).
  assert (Hstep : parse_process_char pc (Some LF)
                  = Ok (parse_add_char LF pc))
    by (unfold parse_process_char; now rewrite Hst).
  rewrite Hstep, quoted_eol by exact Hst.
  cbn [st parse_add_char]. now rewrite Hst.
Qed.

(** The line feed that ends a record *)
Lemma step_lf_end p0 cur acr pc l :
  reached p0 cur acr pc ->
  st pc = QUOTE_IN_QUOTED_FIELD ->
  rest_records p0 cur acr (LF :: l)
  = let '(rows, err) := rest_records parse_reset [] false l in
    ((fields pc ++ [of_chars (field pc)])%list :: rows, err).
Proof.
  intros [Hrun _] Hst. unfold rest_records.
  cbn [split_lines_raw]. change (Ascii.eqb LF LF) with true. cbv iota.
  cbn [read_records]. rewrite chars_of_chars, feed_run.
  rewrite (run_chars_snoc _ _ _ _ Hrun).
  assert (Hstep : parse_process_char pc (Some LF)
                  = Ok (set_state EAT_CRNL (parse_save_field pc)))
    by (unfold parse_process_char; now rewrite Hst).
  rewrite Hstep. reflexivity.
Qed.

(** The content of a quoted field, up to the closing quote *)
Lemma quoted_content x :
  forall p0 cur acr pc,
    reached p0 cur acr pc ->
    st pc = IN_QUOTED_FIELD ->
    exists p0' cur',
      reached p0' cur' false
              (mkParser QUOTE_IN_QUOTED_FIELD (fields pc)
                        (field pc ++ x)%list)
      /\ forall tail,
          rest_records p0 cur acr (quote_chars x ++ dquote :: tail)
          = rest_records p0' cur' false tail.
Proof.
  induction x as [|c x IH]; intros p0 cur acr pc Hat Hst.
  - destruct (step_char p0 cur acr pc dquote
                (set_state QUOTE_IN_QUOTED_FIELD pc) Hat eq_refl)
      as (p0' & cur' & Hat' & Hrest).
    + unfold parse_process_char. now rewrite Hst.
    + discriminate.
    + exists p0', cur'. rewrite app_nil_r. split; [exact Hat'|].
      intros tail. apply Hrest.
  - cbn [quote_chars]. destruct (Ascii.eqb_spec c dquote) as [->|Hq].
    + destruct (step_char p0 cur acr pc dquote
                  (set_state QUOTE_IN_QUOTED_FIELD pc) Hat eq_refl)
        as (p1 & cur1 & Hat1 & Hrest1);
        [unfold parse_process_char; now rewrite Hst|discriminate|].
      destruct (step_char p1 cur1 false _ dquote
                  (set_state IN_QUOTED_FIELD
                     (parse_add_char dquote
                        (set_state QUOTE_IN_QUOTED_FIELD pc)))
                  Hat1 eq_refl)
        as (p2 & cur2 & Hat2 & Hrest2); [reflexivity|discriminate|].
      destruct (IH p2 cur2 false _ Hat2 eq_refl)
        as (p3 & cur3 & Hat3 & Hrest3).
      exists p3, cur3. split.
      * cbn [fields field set_state parse_add_char] in Hat3.
        now rewrite <- app_assoc in Hat3.
      * intros tail. cbn [app]. rewrite Hrest1, Hrest2. apply Hrest3.
    + apply Ascii.eqb_neq in Hq.
      destruct (Ascii.eqb c LF) eqn:Hlf.
      * apply Ascii.eqb_eq in Hlf. subst c.
        destruct (IH (parse_add_char LF pc) [] false (parse_add_char LF pc))
          as (p3 & cur3 & Hat3 & Hrest3);
          [split; [reflexivity|discriminate]|exact Hst|].
        exists p3, cur3. split.
        -- cbn [fields field parse_add_char] in Hat3.
           now rewrite <- app_assoc in Hat3.
        -- intros tail. cbn [app].
           rewrite (step_lf_quoted _ _ _ _ _ Hat Hst). apply Hrest3.
      * destruct (step_char p0 cur acr pc c (parse_add_char c pc) Hat Hlf)
          as (p1 & cur1 & Hat1 & Hrest1);
          [unfold parse_process_char; now rewrite Hst, Hq
          |intros _; exact Hst|].
        destruct (IH p1 cur1 _ _ Hat1 Hst) as (p3 & cur3 & Hat3 & Hrest3).
        exists p3, cur3. split.
        -- cbn [fields field parse_add_char] in Hat3.
           now rewrite <- app_assoc in Hat3.
        -- intros tail. cbn [app]. rewrite Hrest1. apply Hrest3.
Qed.

End CsvFacts.


(** ** Records of quoted fields *)

Module CsvRows.
Import PyStr Csv TextIO CsvFacts.

(** A quoted field, read where a field starts *)
Lemma field_read f p0 cur pc :
  reached p0 cur false pc ->
  st pc = START_RECORD \/ st pc = START_FIELD ->
  field pc = [] ->
  exists p0' cur',
    reached p0' cur' false
            (mkParser QUOTE_IN_QUOTED_FIELD (fields pc) (chars f))
    /\ forall tail,
        rest_records p0 cur false (quote_field f ++ tail)
        = rest_records p0' cur' false tail.
Proof.
  intros Hat Hst Hfield.
  destruct (step_char p0 cur false pc dquote
              (mkParser IN_QUOTED_FIELD (fields pc) (field pc)) Hat eq_refl)
    as (p1 & cur1 & Hat1 & Hrest1).
  - unfold parse_process_char. destruct Hst as [-> | ->]; reflexivity.
  - discriminate.
  - destruct (quoted_content (chars f) p1 cur1 false _ Hat1 eq_refl)
      as (p2 & cur2 & Hat2 & Hrest2).
    cbn [fields field] in Hat2. rewrite Hfield in Hat2. cbn [app] in Hat2.
    exists p2, cur2. split; [exact Hat2|].
    intros tail. unfold quote_field. cbn [app].
    rewrite Hrest1, <- app_assoc. cbn [app]. apply Hrest2.
Qed.

(** A record, read where a field starts: its fields come behind those
    the parser holds, and the reader starts again after it. *)
Lemma record_read fs :
  fs <> [] ->
  forall p0 cur pc tail,
    reached p0 cur false pc ->
    st pc = START_RECORD \/ st pc = START_FIELD ->
    field pc = [] ->
    rest_records p0 cur false (join_fields fs ++ LF :: tail)
    = let '(rows, err) := rest_records parse_reset [] false tail in
      ((fields pc ++ fs)%list :: rows, err).
Proof.
  induction fs as [|f fs IH]; intros Hne p0 cur pc tail Hat Hst Hfield;
    [contradiction|].
  destruct (field_read f p0 cur pc Hat Hst Hfield)
    as (p1 & cur1 & Hat1 & Hrest1).
  destruct fs as [|f2 fs].
  - cbn [join_fields]. rewrite Hrest1.
    rewrite (step_lf_end _ _ _ _ _ Hat1 eq_refl).
    cbn [fields field]. now rewrite of_chars_chars.
  - change (join_fields (f :: f2 :: fs))
      with (quote_field f ++ comma :: join_fields (f2 :: fs))%list.
    rewrite <- app_assoc, Hrest1. cbn [app].
    destruct (step_char p1 cur1 false _ comma
                (mkParser START_FIELD (fields pc ++ [f])%list [])
                Hat1 eq_refl)
      as (p2 & cur2 & Hat2 & Hrest2).
    + unfold parse_process_char. cbn [st].
      change (Ascii.eqb comma dquote) with false.
      change (Ascii.eqb comma comma) with true. cbv iota.
      unfold set_state, parse_save_field. cbn [st fields field].
      now rewrite of_chars_chars.
    + discriminate.
    + change (Ascii.eqb comma CR) with false in Hat2, Hrest2.
      rewrite Hrest2.
      rewrite (IH ltac:(discriminate) p2 cur2 _ tail Hat2
                  (or_intror eq_refl) eq_refl).
      cbn [fields]. now rewrite <- app_assoc.
Qed.

Lemma chars_concat (l : list string) :
  chars (concat "" l) = flat_map chars l.
Proof.
  induction l as [|x [|y l] IH].
  - reflexivity.
  - simpl. now rewrite app_nil_r.
  - change (concat "" (x :: y :: l)) with (x ++ "" ++ concat "" (y :: l)).
    rewrite chars_append. cbn [append flat_map] in *. now rewrite IH.
Qed.

Lemma chars_writerow fs : chars (writerow fs) = (join_fields fs ++ [LF])%list.
Proof. unfold writerow. apply chars_of_chars. Qed.

(** The text of the rows is read as the rows. *)
Lemma rows_read rows :
  Forall (fun fs => fs <> []) rows ->
  rest_records parse_reset [] false (flat_map chars (map writerow rows))
  = (rows, None).
Proof.
  induction 1 as [|fs rows Hfs _ IH]; [reflexivity|].
  cbn [map flat_map]. rewrite chars_writerow, <- app_assoc. cbn [app].
  rewrite (record_read fs Hfs parse_reset [] parse_reset);
    [|split; [reflexivity|discriminate]|now left|reflexivity].
  now rewrite IH.
Qed.

(** Reading back what [csv.writer] wrote, from a file opened with
    [newline=''] *)
Lemma reader_writer rows :
  Forall (fun fs => fs <> []) rows ->
  reader (readlines_raw (concat "" (map writerow rows))) = (rows, None).
Proof.
  intros H. unfold reader, readlines_raw. rewrite chars_concat.
  apply (rows_read rows H).
Qed.

End CsvRows.


(** ** The characters of [repr] and texts without carriage return *)

Module TextFacts.
Import PyStr PyFloat Csv TextIO DigitFacts CsvFacts.

(** The characters [repr] of a float is made of *)
Definition value_char (c : ascii) : bool :=
  plain c || Ascii.eqb c "n" || Ascii.eqb c "a" || Ascii.eqb c "i"
  || Ascii.eqb c "f".

Lemma value_char_spec c :
  value_char c = true ->
  Ascii.eqb c CR = false /\ Ascii.eqb "T" c = false.
Proof.
  destruct c as [[] [] [] [] [] [] [] []]; vm_compute;
    intros H; try discriminate H; split; reflexivity.
Qed.

Lemma plain_value c : plain c = true -> value_char c = true.
Proof. intros H. unfold value_char. now rewrite H. Qed.

Lemma repr_finite_shape m e :
  bounded prec emax m e = true ->
  exists ds dp,
    repr_finite m e = format_repr ds dp
    /\ Forall (fun c => is_digit c = true) ds /\ ds <> [].
Proof.
  intros Hv. unfold repr_finite.
  destruct (shortest 17 m e (decpt_of m e) 1) as [D sc] eqn:Hsh.
  destruct (strip_zeros 17 D sc) as [D' s'] eqn:Hst.
  destruct (ShortestFacts.shortest_reads m e Hv _ _ _ _ Hsh) as [_ HD].
  destruct (ShortestFacts.strip_zeros_reads false _ _ _ _ _ Hst HD)
    as [_ HD'].
  destruct (digits_of_spec D' ltac:(lia)) as (Hds & Hne & _).
  eexists _, _. split; [reflexivity|]. now split.
Qed.

Lemma repr_chars x :
  valid_binary prec emax x = true ->
  Forall (fun c => value_char c = true) (chars (repr x))
  /\ chars (repr x) <> [].
Proof.
  intros Hv. destruct x as [sg|sg| |sg m e].
  - destruct sg; split; try discriminate; repeat constructor.
  - destruct sg; split; try discriminate; repeat constructor.
  - split; try discriminate; repeat constructor.
  - cbn [valid_binary] in Hv.
    destruct (repr_finite_shape m e Hv) as (ds & dp & Heq & Hds & Hne).
    pose proof (FormatFacts.format_repr_plain ds Hds Hne dp) as Hp.
    destruct (FormatFacts.format_repr_head ds Hds Hne dp)
      as (c & rest & Hhead & _).
    cbn [repr]. rewrite chars_of_chars, Heq. split.
    + apply Forall_app. split.
      * destruct sg; repeat constructor.
      * eapply Forall_impl; [|exact Hp]. apply plain_value.
    + rewrite Hhead. now destruct sg.
Qed.

Lemma startswith_Total_repr x :
  valid_binary prec emax x = true -> startswith "Total" (repr x) = false.
Proof.
  intros Hv. destruct (repr_chars x Hv) as [Hall Hne].
  destruct (repr x) as [|c s]; [reflexivity|].
  inversion Hall as [|? ? Hc _]; subst.
  cbn [startswith]. now rewrite (proj2 (value_char_spec c Hc)).
Qed.

(** *** Texts without carriage return *)

Definition no_cr (l : list ascii) : Prop :=
  Forall (fun c => Ascii.eqb c CR = false) l.

Lemma translate_no_cr l : no_cr l -> translate_newlines false l = l.
Proof.
  induction 1 as [|c l Hc _ IH]; [reflexivity|].
  cbn [translate_newlines]. rewrite Hc, IH.
  now destruct (Ascii.eqb_spec c LF) as [->|].
Qed.

Lemma split_lines_no_cr l :
  no_cr l -> forall cur, split_lines cur l = split_lines_raw cur false l.
Proof.
  induction 1 as [|c l Hc _ IH]; intros cur; [reflexivity|].
  cbn [split_lines split_lines_raw]. rewrite Hc, !IH. reflexivity.
Qed.

(** What iterating over [open(path)] gives is what a file opened with
    [newline=''] gives. *)
Lemma readlines_no_cr text :
  no_cr (chars text) -> readlines text = readlines_raw text.
Proof.
  intros H. unfold readlines, readlines_raw.
  rewrite (translate_no_cr _ H). now apply split_lines_no_cr.
Qed.

Lemma quote_chars_no_cr l : no_cr l -> no_cr (quote_chars l).
Proof.
  induction 1 as [|c l Hc _ IH]; [constructor|].
  cbn [quote_chars]. destruct (Ascii.eqb c dquote).
  - constructor; [reflexivity|]. constructor; [reflexivity|assumption].
  - now constructor.
Qed.

Lemma join_fields_no_cr fs :
  Forall (fun f => no_cr (chars f)) fs -> no_cr (join_fields fs).
Proof.
  assert (Hq : forall f, no_cr (chars f) -> no_cr (quote_field f)).
  { intros f Hf. unfold quote_field. constructor; [reflexivity|].
    apply Forall_app. split; [now apply quote_chars_no_cr|].
    now constructor. }
  induction 1 as [|f fs Hf Hfs IH]; [constructor|].
  destruct fs as [|f2 fs]; [now apply Hq|].
  change (join_fields (f :: f2 :: fs))
    with (quote_field f ++ comma :: join_fields (f2 :: fs))%list.
  apply Forall_app. split; [now apply Hq|].
  constructor; [reflexivity|assumption].
Qed.

Lemma rows_no_cr rows :
  Forall (Forall (fun f => no_cr (chars f))) rows ->
  no_cr (flat_map chars (map writerow rows)).
Proof.
  induction 1 as [|fs rows Hfs _ IH]; [constructor|].
  cbn [map flat_map]. apply Forall_app. split; [|assumption].
  rewrite CsvRows.chars_writerow. apply Forall_app. split.
  - now apply join_fields_no_cr.
  - now constructor.
Qed.

End TextFacts.


(** ** The names of the output files *)

Module NameFacts.
Import PyStr PosixPath StrFacts.

Lemma rfind_drop c s i :
  rfind c s = Some i -> exists t, drop i s = String c t.
Proof.
  revert i. induction s as [|a s IH]; intros i; cbn [rfind]; [discriminate|].
  destruct (rfind c s) as [j|].
  - intros [= <-]. cbn [drop]. now apply IH.
  - destruct (Ascii.eqb_spec a c) as [->|]; [|discriminate].
    intros [= <-]. now exists s.
Qed.

(** [splitext] cuts the path in two; the extension is empty or begins
    with a dot. *)
Lemma splitext_spec p :
  p = fst (splitext p) ++ snd (splitext p)
  /\ (snd (splitext p) = "" \/ exists t, snd (splitext p) = String "." t).
Proof.
  unfold splitext.
  destruct (rfind "." p) as [dotIndex|] eqn:Edot.
  - destruct ((_ <=? dotIndex)%nat && _).
    + cbn [fst snd]. split; [apply VisitFacts.take_drop|].
      right. now apply rfind_drop.
    + cbn [fst snd]. split; [now rewrite append_nil_r|now left].
  - cbn [fst snd]. split; [now rewrite append_nil_r|now left].
Qed.

Lemma drop_append_plus a b k :
  drop (String.length a + k) (a ++ b) = drop k b.
Proof. induction a as [|c a IH]; simpl; [reflexivity|assumption]. Qed.

(** A suffix of four characters behind four others *)
Lemma endswith_suffix sfx r a b c d e f g h :
  String.length sfx = 4%nat ->
  endswith sfx
           (r ++ String a (String b (String c (String d
                   (String e (String f (String g (String h ""))))))))
  = String.eqb (String e (String f (String g (String h "")))) sfx.
Proof.
  intros Hlen. unfold endswith. rewrite Hlen, length_append.
  cbn [String.length].
  replace (String.length r + 8 - 4)%nat with (String.length r + 4)%nat
    by lia.
  rewrite drop_append_plus. cbn [drop].
  destruct (Nat.leb_spec 4 (String.length r + 8)); [reflexivity|lia].
Qed.

Lemma out_name_neq fin t :
  fst (splitext fin) ++ String "_" t <> fin.
Proof.
  destruct (splitext_spec fin) as [Heq Hext]. intros H.
  rewrite Heq in H at 2. apply append_inj_l in H.
  destruct Hext as [E|[t' E]]; rewrite E in H; discriminate.
Qed.

End NameFacts.


(** ** What a run does to the files *)

Module RunFacts.
Import PosixPath WorldFacts.

(** A computation that leaves the files as they are *)
Definition keeps {A} (m : M A) : Prop :=
  forall w, files (fst (m w)) = files w.

Lemma keeps_ret {A} (a : A) : keeps (ret a).
Proof. now intros w. Qed.

Lemma keeps_lift {A} (r : result A) : keeps (lift r).
Proof. now intros w. Qed.

Lemma keeps_info msg : keeps (info msg).
Proof. now intros w. Qed.

Lemma keeps_show : keeps show.
Proof. now intros w. Qed.

Lemma keeps_bind {A B} (m : M A) (f : A -> M B) :
  keeps m -> (forall a, keeps (f a)) -> keeps (bind m f).
Proof.
  intros Hm Hf w. unfold bind. specialize (Hm w).
  destruct (m w) as [w1 [a|e]]; cbn [fst] in *; [|assumption].
  now rewrite Hf.
Qed.

Lemma keeps_open_read path : keeps (open_read path).
Proof.
  intros w. unfold open_read.
  now destruct (Py.getitem (files w) path) as [[]|].
Qed.

Lemma keeps_create_chart hours : keeps (create_chart hours).
Proof. intros w. unfold create_chart. now destruct (matplotlib w && numpy w). Qed.

Lemma keeps_for_each {A} (l : list A) (body : A -> M unit) :
  Forall (fun x => keeps (body x)) l -> keeps (for_each l body).
Proof.
  unfold for_each. induction 1 as [|x l Hx _ IH]; cbn [for_each_in].
  - apply keeps_ret.
  - apply keeps_bind; [assumption|]. intros _. exact IH.
Qed.

Section DryRun.
Variable args : arguments.
Hypothesis no_csv : no_export args = true.
Hypothesis no_png : save_plot args = false.

Lemma keeps_process_file fin : keeps (process_file args fin).
Proof.
  unfold process_file. rewrite no_csv, no_png.
  destruct (negb (endswith ".csv" fin || endswith ".CSV" fin));
    [apply keeps_info|].
  apply keeps_bind; [apply keeps_info|]. intros _.
  apply keeps_bind; [apply keeps_open_read|]. intros csv_file.
  apply keeps_bind; [apply keeps_lift|]. intros times.
  apply keeps_bind; [|intros _; apply keeps_ret].
  destruct (plot args || false); [|apply keeps_ret].
  apply keeps_bind; [apply keeps_create_chart|]. intros _.
  apply keeps_bind; [apply keeps_ret|]. intros _.
  destruct (plot args); [apply keeps_show|apply keeps_ret].
Qed.

Lemma keeps_walk t : forall root, keeps (walk args t root).
Proof.
  induction t as [subdirs IH] using dirtree_ind. intros root w.
  cbn [walk]. rewrite Forall_forall in IH.
  match goal with |- files (fst (?m w)) = _ => enough (H : keeps m) by apply H end.
  apply keeps_bind; [|intros _; apply keeps_bind; [|intros _]];
    apply keeps_for_each; apply Forall_forall.
  - intros [n t'] Hin. apply keeps_bind; [apply keeps_info|].
    intros _. apply (IH _ Hin).
  - intros x _. apply keeps_process_file.
  - intros [n t'] Hin. apply (IH _ Hin).
Qed.

Lemma keeps_process_files paths : keeps (process_files args paths).
Proof.
  unfold process_files. apply keeps_for_each, Forall_forall.
  intros fin _ w. destruct (lookup_dir w fin) as [t|].
  - enough (H : keeps (info ("Searching " ++ fin) ;; walk args t fin))
      by apply H.
    apply keeps_bind; [apply keeps_info|]. intros _. apply keeps_walk.
  - apply keeps_process_file.
Qed.
End DryRun.

(** [os.path.isdir] looks at the directories only. *)
Lemma isdir_dirs w w' p : dirs w' = dirs w -> isdir w' p = isdir w p.
Proof. intros H. unfold isdir, lookup_dir. now rewrite H. Qed.

Lemma setitem_idem {V} (d : list (string * V)) k v :
  Py.setitem (Py.setitem d k v) k v = Py.setitem d k v.
Proof.
  induction d as [|[k' v'] d IH]; simpl.
  - now rewrite String.eqb_refl.
  - destruct (String.eqb k' k) eqn:E; simpl; rewrite E; [reflexivity|].
    now rewrite IH.
Qed.

End RunFacts.


(** ** Reading lines without quotes *)

Module PlainFacts.
Import PyStr Csv TextIO CsvFacts.
















End PlainFacts.


(** ** The extractor: selection, transformation, order, duplicates *)

Import DictFacts ParseFacts.

(** C1, evaluated where the code departs from it.  The guard of
    [parse_qb] tests the five characters [Total], the slice removes
    six: a row labelled [Totals by week], which does not begin with
    [Total] and a space, is selected all the same and enters the
    summary under what is left of its label. *)
Theorem C1_guard_accepts_label_without_space :
  startswith "Total " "Totals by week" = false
  /\ parse_qb ["a,Totals by week,c,2020-01-01,,,8"]
     = Ok [(" by week", float_lit "1.0")].
Proof. split; vm_compute; reflexivity. Qed.

(** C2.  A selected row is stored under its label without the first six
    characters, with the float of its duration divided by [8.0]: this is
    what one turn of the loop does, it is what the summary holds for the
    last selected row of a project, and a row [("Total Website", ...,
    "16")] alone gives the summary [{"Website": 2.0}]. *)
Theorem C2_key_is_label_from_6_value_is_hours_by_8 :
  (forall days row label duration hours,
      row_project row = Some label ->
      startswith "Total" label = true ->
      row_Duration row = Some duration ->
      float_of_string duration = Some hours ->
      parse_row days row
      = Ok (Py.setitem days (drop 6 label) (div hours (of_int 8))))
  /\ (forall rows1 row rows2 err s label duration,
      parse_qb_rows (rows1 ++ row :: rows2) err = Ok s ->
      row_project row = Some label ->
      startswith "Total" label = true ->
      row_Duration row = Some duration ->
      (forall r, In r rows2 -> selected r = true ->
                 project_of r <> drop 6 label) ->
      exists hours,
        float_of_string duration = Some hours
        /\ Py.getitem s (drop 6 label) = Some (div hours (of_int 8)))
  /\ (forall a c date name status rest,
      parse_qb_rows
        [mkRow a (Some "Total Website") c date name status (Some "16") rest]
        None
      = Ok [("Website", float_lit "2.0")]).
Proof.
  split; [|split].
  - intros days row label duration hours. apply parse_row_selected.
  - intros rows1 row rows2 err s label duration H Hp Hs Hd Hlast.
    destruct (parse_qb_rows_ok _ _ _ H) as (days & Hdays & ->).
    assert (Hsel : selected row = true) by (unfold selected; now rewrite Hp).
    assert (Hkey : project_of row = drop 6 label)
      by (unfold project_of; now rewrite Hp).
    rewrite <- Hkey in Hlast |- *.
    destruct (parse_rows_last _ _ _ _ _ _ _ Hdays Hsel Hd Hlast)
      as (hours & Hf & Hget).
    exists hours. split; [assumption|].
    rewrite sort_days_getitem; [assumption|].
    apply (parse_rows_NoDup _ _ _ _ Hdays). constructor.
  - intros. vm_compute. reflexivity.
Qed.

Lemma C2_witness :
  exists hours,
    float_of_string "40" = Some hours
    /\ Py.getitem
         (sort_days [("Alpha", float_lit "5.0")]) (drop 6 "Total Alpha")
       = Some (div hours (of_int 8)).
Proof.
  apply (proj1 (proj2 C2_key_is_label_from_6_value_is_hours_by_8)
           [] (mkRow (Some "a") (Some "Total Alpha") (Some "c")
                     (Some "2020-01-01") (Some "") (Some "") (Some "40") [])
           [] None
           (sort_days [("Alpha", float_lit "5.0")])
           "Total Alpha" "40").
  - vm_compute. reflexivity.
  - reflexivity.
  - reflexivity.
  - reflexivity.
  - intros r [].
Defined.

(** C3, as the code has it.  A summary none of whose values is NaN is in
    descending order, [v1 >= v2] for every adjacent pair.  It holds the
    entries of the dictionary [days], whose keys are the projects of the
    selected rows in the order of their first occurrence in the file,
    and entries of equal value keep the order they have in [days]. *)
Theorem C3_descending_and_stable :
  forall rows err s,
    parse_qb_rows rows err = Ok s ->
    Forall (fun kv => is_nan (snd kv) = false) s ->
    adjacent_ge s = true
    /\ exists days,
        parse_rows [] rows err = Ok days
        /\ Permutation s days
        /\ Py.keys days
           = insertion_order (map project_of (filter selected rows))
        /\ forall v,
            filter (fun kv => SFeqb (snd kv) v) s
            = filter (fun kv => SFeqb (snd kv) v) days.
Proof.
  intros rows err s H Hn.
  destruct (parse_qb_rows_ok _ _ _ H) as (days & Hdays & ->).
  split.
  - apply descending_adjacent_ge; [|assumption].
    apply SortFacts.sorted_descending.
  - exists days. split; [assumption|]. split; [apply sort_days_perm|].
    split; [apply (parse_rows_keys _ _ _ _ Hdays)|].
    intros v. apply (SortFacts.sorted_with_key (fun t => snd t)).
    rewrite Forall_forall in *. intros kv Hkv. apply Hn.
    apply (Permutation_in _ (Permutation_sym (sort_days_perm days))).
    assumption.
Qed.

Lemma C3_witness :
  adjacent_ge [("X", float_lit "3.0"); ("Z", float_lit "3.0");
               ("Y", float_lit "1.0")] = true
  /\ exists days,
      parse_rows []
        (DictReader [["a"; "Total X"; "c"; "d"; ""; ""; "8"];
                     ["a"; "Total Y"; "c"; "d"; ""; ""; "8"];
                     ["a"; "Total X"; "c"; "d"; ""; ""; "24"];
                     ["a"; "Total Z"; "c"; "d"; ""; ""; "24"]]) None
      = Ok days
      /\ Permutation [("X", float_lit "3.0"); ("Z", float_lit "3.0");
                      ("Y", float_lit "1.0")] days
      /\ Py.keys days
         = insertion_order
             (map project_of
                (filter selected
                   (DictReader [["a"; "Total X"; "c"; "d"; ""; ""; "8"];
                                ["a"; "Total Y"; "c"; "d"; ""; ""; "8"];
                                ["a"; "Total X"; "c"; "d"; ""; ""; "24"];
                                ["a"; "Total Z"; "c"; "d"; ""; ""; "24"]])))
      /\ forall v,
          filter (fun kv => SFeqb (snd kv) v)
                 [("X", float_lit "3.0"); ("Z", float_lit "3.0");
                  ("Y", float_lit "1.0")]
          = filter (fun kv => SFeqb (snd kv) v) days.
Proof.
  apply (C3_descending_and_stable
           (DictReader [["a"; "Total X"; "c"; "d"; ""; ""; "8"];
                        ["a"; "Total Y"; "c"; "d"; ""; ""; "8"];
                        ["a"; "Total X"; "c"; "d"; ""; ""; "24"];
                        ["a"; "Total Z"; "c"; "d"; ""; ""; "24"]]) None).
  - vm_compute. reflexivity.
  - repeat constructor.
Defined.

(** C3 as stated fails when a duration reads as NaN: [float("nan")] is
    a float, no comparison with it holds, and the summary keeps it ahead
    of a smaller-looking neighbour. *)
Lemma C3_nan_total_breaks_order :
  exists s,
    parse_qb ["a,Total A,c,2020-01-01,,,nan"; "a,Total B,c,2020-01-02,,,1"]
    = Ok s
    /\ adjacent_ge s = false.
Proof.
  exists [("A", S754_nan); ("B", float_lit "0.125")].
  split; vm_compute; reflexivity.
Qed.

(** C4.  When two selected rows give the same project, and the second is
    the last to do so, the project occurs once in the summary, with the
    value of the second row, whatever the first one said; durations [8]
    then [24] for a project [X] leave [3.0]. *)
Theorem C4_last_total_wins :
  (forall rows1 r1 rows2 r2 rows3 err s duration2,
      parse_qb_rows (rows1 ++ r1 :: rows2 ++ r2 :: rows3) err = Ok s ->
      selected r1 = true -> selected r2 = true ->
      project_of r1 = project_of r2 ->
      row_Duration r2 = Some duration2 ->
      (forall r, In r rows3 -> selected r = true ->
                 project_of r <> project_of r2) ->
      count_occ string_dec (Py.keys s) (project_of r2) = 1%nat
      /\ exists hours2,
          float_of_string duration2 = Some hours2
          /\ Py.getitem s (project_of r2) = Some (div hours2 (of_int 8)))
  /\ (forall X a1 c1 e1 n1 b1 t1 a2 c2 e2 n2 b2 t2,
      parse_qb_rows
        [mkRow a1 (Some ("Total " ++ X)) c1 e1 n1 b1 (Some "8") t1;
         mkRow a2 (Some ("Total " ++ X)) c2 e2 n2 b2 (Some "24") t2]
        None
      = Ok [(X, float_lit "3.0")]).
Proof.
  split.
  - intros rows1 r1 rows2 r2 rows3 err s duration2 H _ Hs2 _ Hd Hlast.
    destruct (parse_qb_rows_ok _ _ _ H) as (days & Hdays & ->).
    assert (Hnd : NoDup (Py.keys days))
      by (apply (parse_rows_NoDup _ _ _ _ Hdays); constructor).
    change (rows1 ++ r1 :: rows2 ++ r2 :: rows3)%list
      with (rows1 ++ (r1 :: rows2) ++ r2 :: rows3)%list in Hdays.
    rewrite app_assoc in Hdays.
    destruct (parse_rows_last _ _ _ _ _ _ _ Hdays Hs2 Hd Hlast)
      as (hours2 & Hf & Hget).
    rewrite <- (sort_days_getitem days _ Hnd) in Hget.
    split.
    + apply count_occ_NoDup.
      * apply (Permutation_NoDup (l := Py.keys days)); [|assumption].
        apply Permutation_map. symmetry. apply sort_days_perm.
      * apply getitem_Some_In in Hget.
        now apply (in_map fst) in Hget.
    + now exists hours2.
  - intros. unfold parse_qb_rows, parse_rows.
    assert (H8 : float_of_string "8" = Some (float_lit "8"))
      by (vm_compute; reflexivity).
    assert (H24 : float_of_string "24" = Some (float_lit "24"))
      by (vm_compute; reflexivity).
    rewrite (parse_row_selected
               _ (mkRow a1 (Some ("Total " ++ X)) c1 e1 n1 b1 (Some "8") t1)
               ("Total " ++ X) "8" _ eq_refl eq_refl eq_refl H8).
    rewrite (parse_row_selected
               _ (mkRow a2 (Some ("Total " ++ X)) c2 e2 n2 b2 (Some "24") t2)
               ("Total " ++ X) "24" _ eq_refl eq_refl eq_refl H24).
    change (drop 6 ("Total " ++ X)) with X.
    cbn [Py.setitem]. rewrite String.eqb_refl, sort_days_single.
    assert (Hv : div (float_lit "24") (of_int 8) = float_lit "3.0")
      by (vm_compute; reflexivity).
    now rewrite Hv.
Qed.

Lemma C4_witness :
  count_occ string_dec (Py.keys [("X", float_lit "3.0")]) "X" = 1%nat
  /\ exists hours2,
      float_of_string "24" = Some hours2
      /\ Py.getitem [("X", float_lit "3.0")] "X"
         = Some (div hours2 (of_int 8)).
Proof.
  apply (proj1 C4_last_total_wins
           [] (mkRow (Some "a") (Some "Total X") None None None None
                     (Some "8") [])
           [] (mkRow (Some "a") (Some "Total X") None None None None
                     (Some "24") [])
           [] None [("X", float_lit "3.0")] "24").
  - vm_compute. reflexivity.
  - reflexivity.
  - reflexivity.
  - reflexivity.
  - reflexivity.
  - intros r [].
Defined.


(** ** Runs of [process_files] on one file *)

Import WorldFacts.

(** The world after [logging.info(msg)] *)
Definition logged (msg : string) (w : world) : world := fst (info msg w).

Lemma process_files_cons args fin rest w :
  lookup_dir w fin = None ->
  process_files args (fin :: rest) w
  = match process_file args fin w with
    | (w', Ok _) => process_files args rest w'
    | (w', Raise e) => (w', Raise e)
    end.
Proof.
  intros Hdir. unfold process_files, for_each. cbn [for_each_in].
  unfold bind at 1. now rewrite Hdir.
Qed.

(** A file that is read and parsed: what [process_file] does up to the
    call of [parse_qb] *)
Lemma process_file_parsed args fin w text :
  is_csv fin = true ->
  Py.getitem (files w) fin = Some (Text text) ->
  process_file args fin w
  = (times <- lift (parse_qb (TextIO.readlines text)) ;;
     (if plot args || save_plot args then
        create_chart times ;;
        (if save_plot args then
           info ("Saving " ++ out_png fin) ;; savefig (out_png fin)
         else ret tt) ;;
        (if plot args then show else ret tt)
      else ret tt) ;;
     if negb (no_export args) then write_csv fin times else ret tt)
      (logged ("Processing " ++ fin) w).
Proof.
  intros Hcsv Hfile. unfold process_file. unfold is_csv in Hcsv.
  rewrite Hcsv. cbn [negb]. unfold bind at 1. cbn [info].
  unfold bind at 1. unfold open_read at 1. cbn [files].
  now rewrite Hfile.
Qed.

(** C5, evaluated where the code departs from it.  When a chart is asked
    for and matplotlib or numpy cannot be imported, [create_chart] logs
    its message and goes on to use the module it could not import: the
    run ends with [UnboundLocalError] raised, for this file and all
    that follow, and the summary CSV of the file is not written. *)
Theorem C5_chart_without_library_aborts_the_run :
  forall args fin rest w text times,
    plot args || save_plot args = true ->
    matplotlib w && numpy w = false ->
    lookup_dir w fin = None ->
    is_csv fin = true ->
    Py.getitem (files w) fin = Some (Text text) ->
    parse_qb (TextIO.readlines text) = Ok times ->
    exists w',
      process_files args (fin :: rest) w = (w', Raise UnboundLocalError)
      /\ log w'
         = (log w
            ++ [("Processing " ++ fin)%string; cannot_create_chart])%list
      /\ files w' = files w.
Proof.
  intros args fin rest w text times Hplot Hlib Hdir Hcsv Hfile Hparse.
  rewrite (process_files_cons _ _ _ _ Hdir).
  rewrite (process_file_parsed _ _ _ _ Hcsv Hfile), Hparse, Hplot.
  unfold lift, bind, create_chart, logged. cbn [info fst matplotlib numpy].
  rewrite Hlib. unfold bind, info, raise. cbn [log files].
  eexists. split; [reflexivity|]. cbn [log files]. split; [|reflexivity].
  now rewrite <- app_assoc.
Qed.

Lemma C5_witness :
  exists w',
    process_files (mkArgs true false false) ["proj.csv"]
      (mkWorld [] [("proj.csv", Text proj_csv)] false false
               empty_figure [] [])
    = (w', Raise UnboundLocalError)
    /\ log w'
       = ([] ++ [("Processing " ++ "proj.csv")%string;
                 cannot_create_chart])%list
    /\ files w' = [("proj.csv", Text proj_csv)].
Proof.
  apply (C5_chart_without_library_aborts_the_run
           (mkArgs true false false) "proj.csv" []
           (mkWorld [] [("proj.csv", Text proj_csv)] false false
                    empty_figure [] [])
           proj_csv
           [("Alpha", float_lit "5.0"); ("Beta", float_lit "1.0")]).
  - reflexivity.
  - reflexivity.
  - reflexivity.
  - reflexivity.
  - reflexivity.
  - vm_compute. reflexivity.
Defined.





(** ** The output file and the files a run takes *)

(** The summary of the end-to-end scenario *)
Definition proj_summary : summary :=
  [("Alpha", float_lit "5.0"); ("Beta", float_lit "1.0")].

(** C7, as the code has it.  For [proj.csv] with the two total rows and
    the detail row, [parse_qb] gives [{"Alpha": 5.0, "Beta": 1.0}] in
    this order, and a run with export enabled writes [proj_out.csv],
    whose records are [Project,Days], [Alpha,5.0] and [Beta,1.0], each
    field between double quotes, as the [unix] dialect of the writer
    has it; read back as CSV the file gives these three records. *)
Theorem C7_end_to_end_quoted_output :
  forall args rest w,
    plot args || save_plot args = false ->
    no_export args = false ->
    lookup_dir w "proj.csv" = None ->
    isdir w "proj_out.csv" = false ->
    Py.getitem (files w) "proj.csv" = Some (Text proj_csv) ->
    parse_qb (TextIO.readlines proj_csv) = Ok proj_summary
    /\ out_csv "proj.csv" = "proj_out.csv"
    /\ (exists w',
         process_file args "proj.csv" w = (w', Ok tt)
         /\ process_files args ("proj.csv" :: rest) w
            = process_files args rest w'
         /\ Py.getitem (files w') "proj_out.csv" = Some (Text proj_out_csv)
         /\ log w'
            = (log w ++ ["Processing proj.csv"; "Writing proj_out.csv"])%list)
    /\ Csv.reader (TextIO.readlines_raw proj_out_csv)
       = ([["Project"; "Days"]; ["Alpha"; "5.0"]; ["Beta"; "1.0"]], None).
Proof.
  intros args rest w Hplot Hexp Hdir Hout Hfile.
  assert (Hparse : parse_qb (TextIO.readlines proj_csv) = Ok proj_summary)
    by (vm_compute; reflexivity).
  assert (Hname : out_csv "proj.csv" = "proj_out.csv") by reflexivity.
  assert (Htext : csv_text proj_summary = proj_out_csv)
    by (vm_compute; reflexivity).
  split; [assumption|]. split; [assumption|]. split.
  - assert (Hrun : process_file args "proj.csv" w
                   = (set_files
                        (Py.setitem (files w) "proj_out.csv"
                                    (Text proj_out_csv))
                        (logged "Writing proj_out.csv"
                                (logged "Processing proj.csv" w)),
                      Ok tt)).
    { rewrite (process_file_parsed args "proj.csv" w proj_csv eq_refl Hfile).
      rewrite Hparse, Hplot, Hexp. cbn [negb].
      unfold lift, bind, ret, write_csv. cbv beta iota.
      rewrite Hname, Htext.
      unfold bind, write_file. cbn [info].
      match goal with
      | |- context [isdir ?x ?p] => change (isdir x p) with (isdir w p)
      end.
      now rewrite Hout. }
    eexists. split; [exact Hrun|]. split; [|split].
    + rewrite (process_files_cons _ _ _ _ Hdir). now rewrite Hrun.
    + cbn [files set_files]. apply DictFacts.getitem_setitem_eq.
    + cbn [log set_files logged info fst]. now rewrite <- app_assoc.
  - vm_compute. reflexivity.
Qed.

Lemma C7_witness :
  parse_qb (TextIO.readlines proj_csv) = Ok proj_summary
  /\ out_csv "proj.csv" = "proj_out.csv"
  /\ (exists w',
       process_file (mkArgs false false false) "proj.csv"
         (mkWorld [] [("proj.csv", Text proj_csv)] false false
                  empty_figure [] [])
       = (w', Ok tt)
       /\ process_files (mkArgs false false false) ("proj.csv" :: [])
            (mkWorld [] [("proj.csv", Text proj_csv)] false false
                     empty_figure [] [])
          = process_files (mkArgs false false false) [] w'
       /\ Py.getitem (files w') "proj_out.csv" = Some (Text proj_out_csv)
       /\ log w'
          = ([] ++ ["Processing proj.csv"; "Writing proj_out.csv"])%list)
  /\ Csv.reader (TextIO.readlines_raw proj_out_csv)
     = ([["Project"; "Days"]; ["Alpha"; "5.0"]; ["Beta"; "1.0"]], None).
Proof.
  apply (C7_end_to_end_quoted_output
           (mkArgs false false false) []
           (mkWorld [] [("proj.csv", Text proj_csv)] false false
                    empty_figure [] [])); reflexivity.
Defined.

(** C7 as stated fails on the text of the file: what is written for
    [proj.csv] is not the three unquoted lines. *)
Lemma C7_written_fields_are_quoted :
  Py.getitem
    (files (fst (process_files (mkArgs false false false) ["proj.csv"]
                   (mkWorld [] [("proj.csv", Text proj_csv)] false false
                            empty_figure [] []))))
    "proj_out.csv"
  = Some (Text proj_out_csv)
  /\ proj_out_csv <> proj_out_unquoted.
Proof.
  split; [vm_compute; reflexivity|].
  vm_compute. discriminate.
Qed.





(** ** Floats are written as they are read *)

Lemma float_of_string_repr x :
  valid_binary prec emax x = true ->
  float_of_string (repr x) = Some x.
Proof.
  revert x. intros [sg|sg| |sg m e] Hv.
  - destruct sg; vm_compute; reflexivity.
  - destruct sg; vm_compute; reflexivity.
  - vm_compute. reflexivity.
  - cbn [valid_binary] in Hv.
    unfold float_of_string, repr, chars, of_chars.
    rewrite list_ascii_of_string_of_list_ascii.
    unfold repr_finite.
    destruct (shortest 17 m e (decpt_of m e) 1) as [D sc] eqn:Hsh.
    destruct (strip_zeros 17 D sc) as [D' s'] eqn:Hst.
    destruct (ShortestFacts.shortest_reads m e Hv _ _ _ _ Hsh) as [Hr HD].
    destruct (ShortestFacts.strip_zeros_reads sg _ _ _ _ _ Hst HD)
      as [Hr' HD'].
    destruct (DigitFacts.digits_of_spec D' ltac:(lia)) as (Hds & Hne & Hval).
    set (ds := digits_of D') in *.
    set (dp := s' + Z.of_nat (List.length ds)).
    destruct (FormatFacts.parse_format_repr sg ds Hds Hne dp)
      as (D2 & k & Hparse & Hfloat).
    pose proof (FormatFacts.format_repr_plain ds Hds Hne dp) as Hplain.
    destruct (FormatFacts.format_repr_head ds Hds Hne dp)
      as (c & rest & Hhead & Hc).
    destruct (FormatFacts.digit_spec c Hc) as (_ & Hm & Hp & Hi & Hn).
    assert (Hvalue : float_of_decimal sg D2 k = S754_finite sg m e).
    { rewrite Hfloat, Hval. unfold dp.
      replace (s' + Z.of_nat (List.length ds) - Z.of_nat (List.length ds))
        with s' by lia.
      rewrite Hr'. now apply ShortestFacts.float_of_decimal_sign. }
    set (body := format_repr ds dp) in *.
    assert (Hbody : float_of_chars body
                    = Some (float_of_decimal false D2 k)).
    { unfold float_of_chars.
      rewrite (DigitFacts.strip_plain body Hplain).
      rewrite (DigitFacts.remove_underscores_plain body Hplain None I).
      rewrite Hhead. cbn [split_sign]. rewrite Hm, Hp.
      cbn [map of_chars string_of_list_ascii String.eqb].
      rewrite Hi, Hn. cbn [andb orb]. cbv iota.
      rewrite <- Hhead, Hparse. reflexivity. }
    destruct sg.
    + unfold float_of_chars.
      assert (Hall : Forall (fun c => DigitFacts.plain c = true)
                            (["-"%char] ++ body))
        by (constructor; [reflexivity|assumption]).
      rewrite (DigitFacts.strip_plain _ Hall).
      rewrite (DigitFacts.remove_underscores_plain _ Hall None I).
      change (split_sign (["-"%char] ++ body)) with (true, body).
      cbv beta iota. rewrite Hhead.
      cbn [map of_chars string_of_list_ascii String.eqb].
      rewrite Hi, Hn. cbn [andb orb]. cbv iota.
      rewrite <- Hhead, Hparse, Hvalue. reflexivity.
    + cbn [app]. rewrite Hbody, Hvalue. reflexivity.
Qed.

(** X1.  [float(repr(x))] is [x]: the text [csv.writer] writes for a
    value of the summary, which is [repr] of the float, is read by
    [float], the conversion [parse_qb] applies to a duration, as the
    same float, whatever valid binary64 number it is: a finite number,
    a zero of either sign, an infinity or NaN. *)
Theorem float_of_repr :
  forall x,
    valid_binary prec emax x = true ->
    float_of_string (repr x) = Some x.
Proof. exact float_of_string_repr. Qed.

Lemma float_of_repr_witness :
  float_of_string (repr (S754_finite true 5629499534213120 (-50)))
  = Some (S754_finite true 5629499534213120 (-50)).
Proof.
  apply (float_of_repr (S754_finite true 5629499534213120 (-50))).
  reflexivity.
Defined.


(** ** The output file, read back *)

(** The records of the output file: the header, then for every entry
    of the summary the project and the text of the days *)
Definition summary_records (s : summary) : list (list string) :=
  ["Project"; "Days"]
  :: map (fun '(project, time_) => [project; repr time_]) s.

(** A summary whose values are binary64 numbers *)
Definition valid_summary (s : summary) : Prop :=
  Forall (fun kv => valid_binary prec emax (snd kv) = true) s.

(** A summary no project of which has a carriage return in its name *)
Definition projects_without_cr (s : summary) : Prop :=
  Forall (fun kv => TextFacts.no_cr (chars (fst kv))) s.

(** What a reader of the output file makes of a record: the project
    and [float] of the days *)
Definition read_pair (r : list string) : option (string * float) :=
  match r with
  | [project; days] =>
      match float_of_string days with
      | Some x => Some (project, x)
      | None => None
      end
  | _ => None
  end.

Lemma chars_csv_text s :
  chars (csv_text s)
  = flat_map chars (map Csv.writerow (summary_records s)).
Proof.
  unfold csv_text, summary_records. cbn [map flat_map].
  rewrite CsvFacts.chars_append, CsvRows.chars_concat. f_equal. f_equal.
  rewrite map_map. apply map_ext. now intros [project time_].
Qed.

Lemma summary_records_nonempty s :
  Forall (fun fs : list string => fs <> []) (summary_records s).
Proof.
  unfold summary_records. constructor; [discriminate|].
  apply Forall_forall. intros fs Hin. apply in_map_iff in Hin.
  destruct Hin as ([project time_] & <- & _). discriminate.
Qed.

Lemma csv_text_no_cr s :
  valid_summary s -> projects_without_cr s ->
  TextFacts.no_cr (chars (csv_text s)).
Proof.
  intros Hv Hk. rewrite chars_csv_text. apply TextFacts.rows_no_cr.
  unfold summary_records. constructor.
  - repeat constructor.
  - apply Forall_forall. intros fs Hin. apply in_map_iff in Hin.
    destruct Hin as ([project time_] & <- & Hin).
    unfold valid_summary, projects_without_cr in *.
    rewrite Forall_forall in Hv, Hk.
    specialize (Hv _ Hin). specialize (Hk _ Hin). cbn [fst snd] in Hv, Hk.
    constructor; [assumption|]. constructor; [|constructor].
    destruct (TextFacts.repr_chars time_ Hv) as [Hall _].
    eapply Forall_impl; [|exact Hall].
    intros c Hc. apply (TextFacts.value_char_spec c Hc).
Qed.

Lemma reader_raw_csv_text s :
  Csv.reader (TextIO.readlines_raw (csv_text s)) = (summary_records s, None).
Proof.
  unfold Csv.reader, TextIO.readlines_raw. rewrite chars_csv_text.
  apply (CsvRows.rows_read _ (summary_records_nonempty s)).
Qed.

Lemma reader_text_csv_text s :
  valid_summary s -> projects_without_cr s ->
  Csv.reader (TextIO.readlines (csv_text s)) = (summary_records s, None).
Proof.
  intros Hv Hk.
  rewrite (TextFacts.readlines_no_cr _ (csv_text_no_cr s Hv Hk)).
  apply reader_raw_csv_text.
Qed.

(** X2.  The file [write_csv] writes, read by [csv.reader] from a file
    opened with [newline=''], gives the header and one record of two
    fields for every entry of the summary, the project as it is,
    whatever characters it has (commas, double quotes, line feeds,
    carriage returns), and the text of the days; read from a file
    opened as the program opens its input, [open(path)], it gives the
    same when no project has a carriage return in its name. *)
Theorem csv_text_read_back :
  forall s,
    Csv.reader (TextIO.readlines_raw (csv_text s))
    = (summary_records s, None)
    /\ (valid_summary s -> projects_without_cr s ->
        Csv.reader (TextIO.readlines (csv_text s))
        = (summary_records s, None)).
Proof.
  intros s. split; [apply reader_raw_csv_text|apply reader_text_csv_text].
Qed.

Lemma csv_text_read_back_witness :
  Csv.reader (TextIO.readlines
                (csv_text [("a, b", float_lit "2.5"); ("c", float_lit "1")]))
  = (summary_records [("a, b", float_lit "2.5"); ("c", float_lit "1")], None).
Proof.
  apply (proj2 (csv_text_read_back
                  [("a, b", float_lit "2.5"); ("c", float_lit "1")])).
  - repeat constructor.
  - repeat constructor.
Defined.

(** X3.  Round trip: the records that follow the header in the file
    [write_csv] writes, each read as a project and [float] of the days,
    are the entries of the summary, the same floats in the same
    order. *)
Theorem summary_round_trip :
  forall s,
    valid_summary s ->
    map read_pair
        (tl (fst (Csv.reader (TextIO.readlines_raw (csv_text s)))))
    = map Some s.
Proof.
  intros s Hv. rewrite (reader_raw_csv_text s).
  unfold summary_records. cbn [fst tl]. rewrite map_map.
  induction Hv as [|[project time_] s Hx _ IH]; [reflexivity|].
  cbn [map read_pair]. cbn [snd] in Hx.
  now rewrite (float_of_string_repr time_ Hx), IH.
Qed.

Lemma summary_round_trip_witness :
  map read_pair
      (tl (fst (Csv.reader
                  (TextIO.readlines_raw
                     (csv_text [("Alpha", float_lit "5.0");
                                ("Beta", float_lit "0.1")])))))
  = map Some [("Alpha", float_lit "5.0"); ("Beta", float_lit "0.1")].
Proof.
  apply (summary_round_trip
           [("Alpha", float_lit "5.0"); ("Beta", float_lit "0.1")]).
  repeat constructor.
Defined.

(** X4.  An output file is not a report: [parse_qb] selects none of
    its records, because the second field of a record is [Days] or the
    text of a float, and returns the empty summary. *)
Theorem parse_qb_of_output_is_empty :
  forall s,
    valid_summary s -> projects_without_cr s ->
    parse_qb (TextIO.readlines (csv_text s)) = Ok [].
Proof.
  intros s Hv Hk. unfold parse_qb.
  rewrite (reader_text_csv_text s Hv Hk).
  unfold parse_qb_rows, summary_records.
  cbn [DictReader filter map parse_rows].
  change (parse_row [] (dict_row ["Project"; "Days"]))
    with (Ok (@nil (string * float))).
  cbv iota.
  enough (E : parse_rows []
                (map dict_row
                   (filter (fun r : list string =>
                              match r with [] => false | _ => true end)
                      (map (fun '(project, time_) => [project; repr time_])
                           s)))
                None = Ok []) by now rewrite E.
  induction Hv as [|[project time_] s Hx _ IH]; [reflexivity|].
  inversion Hk; subst. cbn [map filter parse_rows].
  cbn [snd] in Hx.
  unfold parse_row at 1. cbn [dict_row row_project nth_error].
  rewrite (TextFacts.startswith_Total_repr time_ Hx). now apply IH.
Qed.

Lemma parse_qb_of_output_is_empty_witness :
  parse_qb (TextIO.readlines
              (csv_text [("Alpha", float_lit "5.0");
                         ("Total", float_lit "1.0")]))
  = Ok [].
Proof.
  apply (parse_qb_of_output_is_empty
           [("Alpha", float_lit "5.0"); ("Total", float_lit "1.0")]).
  - repeat constructor.
  - repeat constructor.
Defined.


(** ** The walk of a directory *)

(** X5.  [process_files] is given the directory [top], whose tree of
    subdirectories is [t], and returns.  A CSV file [p] that is there
    when the run starts is logged as processed as often as the walks
    of the run list its directory: once for the walk that reaches the
    directory, and for every subdirectory on the way twice, because
    [process_files] starts a walk of it and [os.walk] goes on into it.
    So a file directly in [top] is processed exactly once, a file in a
    subdirectory more than once, and a file [depth] directories down
    at least [2 ^ depth] times. *)
Theorem nested_files_are_processed_again :
  forall args top t w w' p,
    lookup_dir w top = Some t ->
    NoDup (Py.keys (files w)) ->
    In p (Py.keys (files w)) ->
    is_csv p = true ->
    process_files args [top] w = (w', Ok tt) ->
    exists new,
      log w' = (log w ++ new)%list
      /\ times_processed p new = visits p t top
      /\ (names_ok t = true -> lies_in top p = true ->
          times_processed p new = 1%nat)
      /\ (forall depth,
            lies_at (S depth) p t top = true ->
            (1 < times_processed p new)%nat
            /\ (2 ^ S depth <= times_processed p new)%nat).
Proof.
  intros args top t w w' p Hdir Hnd Hin Hcsv Hrun.
  destruct (CountFacts.counts_process_files_dir
              p Hcsv args top t w w' Hdir (conj Hnd Hin) Hrun)
    as (new & Hlog & Hcount).
  exists new. split; [assumption|]. split; [assumption|]. split.
  - intros Hok Htop. rewrite Hcount.
    now apply VisitFacts.lies_in_visits.
  - intros depth Hat. rewrite Hcount.
    pose proof (VisitFacts.lies_at_visits p (S depth) t top Hat) as Hle.
    split; [|assumption].
    rewrite Nat.pow_succ_r' in Hle.
    assert (2 ^ depth <> 0)%nat by (apply Nat.pow_nonzero; lia).
    lia.
Qed.

Lemma nested_files_are_processed_again_witness :
  let args := mkArgs false false false in
  let t := Dir [("sub", Dir [])] in
  let w := mkWorld [("top", t)]
                   [("top/a.csv", Text proj_csv);
                    ("top/sub/b.csv", Text proj_csv)]
                   false false empty_figure [] [] in
  let w' := fst (process_files args ["top"] w) in
  (exists new,
      log w' = ([] ++ new)%list
      /\ times_processed "top/sub/b.csv" new = 2%nat
      /\ (names_ok t = true -> lies_in "top" "top/sub/b.csv" = true ->
          times_processed "top/sub/b.csv" new = 1%nat)
      /\ (forall depth,
            lies_at (S depth) "top/sub/b.csv" t "top" = true ->
            (1 < times_processed "top/sub/b.csv" new)%nat
            /\ (2 ^ S depth <= times_processed "top/sub/b.csv" new)%nat))
  /\ log w'
     = ["Searching top"; "Searching top/sub";
        "Processing top/sub/b.csv"; "Writing top/sub/b_out.csv";
        "Processing top/a.csv"; "Writing top/a_out.csv";
        "Processing top/sub/b.csv"; "Writing top/sub/b_out.csv";
        "Processing top/sub/b_out.csv"; "Writing top/sub/b_out_out.csv"].
Proof.
  intros args t w w'. split.
  - apply (nested_files_are_processed_again
             args "top" t w w' "top/sub/b.csv").
    + reflexivity.
    + repeat constructor; simpl; intuition discriminate.
    + simpl. tauto.
    + reflexivity.
    + vm_compute. reflexivity.
  - vm_compute. reflexivity.
Defined.


(** ** One file, from the report to the outputs *)

(** The chart [create_chart] draws for a summary: the bars are added to
    the current figure, the ticks and the labels are set. *)
Definition chart_of (w : world) (s : summary) : figure :=
  mkFigure (bars (current w) ++ [Py.values s])%list (Py.keys s)
           "Project" "Days booked".

(** The files after [fin] with the summary [s] was processed *)
Definition files_after (args : arguments) (fin : string) (s : summary)
  (w : world) : list (string * content) :=
  let fs1 :=
    if save_plot args
    then Py.setitem (files w) (out_png fin) (Image (chart_of w s))
    else files w in
  if no_export args then fs1
  else Py.setitem fs1 (out_csv fin) (Text (csv_text s)).

Module ProcessFacts.
Import RunFacts.

Ltac isdir_of w :=
  repeat match goal with
         | |- context [isdir ?x ?p] =>
             lazymatch x with
             | w => fail
             | _ => change (isdir x p) with (isdir w p)
             end
         end.

(** A file that can be read, parsed, charted and written is processed
    without error. *)
Lemma process_file_runs args fin w text s :
  is_csv fin = true ->
  Py.getitem (files w) fin = Some (Text text) ->
  parse_qb (TextIO.readlines text) = Ok s ->
  (plot args || save_plot args = true -> matplotlib w && numpy w = true) ->
  (save_plot args = true -> isdir w (out_png fin) = false) ->
  (no_export args = false -> isdir w (out_csv fin) = false) ->
  exists w1,
    process_file args fin w = (w1, Ok tt)
    /\ dirs w1 = dirs w /\ matplotlib w1 = matplotlib w
    /\ numpy w1 = numpy w
    /\ files w1 = files_after args fin s w
    /\ current w1 = (if plot args then empty_figure
                     else if save_plot args then chart_of w s
                          else current w).
Proof.
  intros Hcsv Hfile Hparse Hlibs Hpng Hout.
  rewrite (process_file_parsed args fin w text Hcsv Hfile), Hparse.
  unfold files_after, chart_of, logged.
  destruct args as [pl sv ne]; cbn [plot save_plot no_export] in *.
  destruct pl, sv, ne; cbn [orb negb] in *;
    try specialize (Hlibs eq_refl); try specialize (Hpng eq_refl);
    try specialize (Hout eq_refl);
    cbv [lift bind info ret create_chart savefig write_file show write_csv
         set_current set_files];
    cbn [fst matplotlib numpy current files dirs shown log];
    try rewrite Hlibs;
    cbn [fst matplotlib numpy current files dirs shown log];
    isdir_of w; try rewrite Hpng;
    cbn [fst matplotlib numpy current files dirs shown log];
    isdir_of w; try rewrite Hout;
    (eexists; split; [reflexivity|]);
    cbn [fst matplotlib numpy current files dirs shown log];
    repeat split; reflexivity.
Qed.

(** What a run without error needed *)
Lemma process_file_ready args fin w w1 :
  is_csv fin = true ->
  process_file args fin w = (w1, Ok tt) ->
  exists text s,
    Py.getitem (files w) fin = Some (Text text)
    /\ parse_qb (TextIO.readlines text) = Ok s
    /\ (plot args || save_plot args = true ->
        matplotlib w && numpy w = true)
    /\ (save_plot args = true -> isdir w (out_png fin) = false)
    /\ (no_export args = false -> isdir w (out_csv fin) = false).
Proof.
  intros Hcsv. unfold process_file. unfold is_csv in Hcsv.
  rewrite Hcsv. cbn [negb]. unfold bind at 1. cbn [info].
  unfold bind at 1. unfold open_read at 1. cbn [files].
  destruct (Py.getitem (files w) fin) as [[text|fig]|];
    [|discriminate|discriminate].
  unfold bind at 1, lift at 1.
  destruct (parse_qb (TextIO.readlines text)) as [s|e] eqn:Hparse;
    [|discriminate].
  intros Hrun. exists text, s. split; [reflexivity|]. split; [exact Hparse|].
  revert Hrun.
  destruct args as [pl sv ne]; cbn [plot save_plot no_export].
  destruct (matplotlib w && numpy w) eqn:Hlibs,
           (isdir w (out_png fin)) eqn:Hpng,
           (isdir w (out_csv fin)) eqn:Hout;
    destruct pl, sv, ne; cbn [orb negb];
    cbv [lift bind info ret create_chart savefig write_file show write_csv
         set_current set_files raise];
    cbn [fst matplotlib numpy current files dirs shown log];
    try rewrite Hlibs;
    cbn [fst matplotlib numpy current files dirs shown log];
    isdir_of w; try rewrite Hpng;
    cbn [fst matplotlib numpy current files dirs shown log];
    isdir_of w; try rewrite Hout;
    intros Hrun; try discriminate Hrun;
    repeat split; intros; try reflexivity; discriminate.
Qed.

End ProcessFacts.


(** ** Runs and the files they leave *)

Lemma lookup_dir_dirs w w' p :
  dirs w' = dirs w -> lookup_dir w' p = lookup_dir w p.
Proof. intros H. unfold lookup_dir. now rewrite H. Qed.

Lemma process_files_one args fin w :
  lookup_dir w fin = None ->
  process_files args [fin] w
  = match process_file args fin w with
    | (w', Ok _) => (w', Ok tt)
    | (w', Raise e) => (w', Raise e)
    end.
Proof.
  intros Hdir. rewrite (process_files_cons _ _ _ _ Hdir).
  now destruct (process_file args fin w) as [w' [[]|e]].
Qed.

(** X6.  A file with a CSV name that does not exist ends the run: after
    the message that it is processed, [open] raises
    [FileNotFoundError], which nothing catches; the files that follow
    it are not processed and no file is written. *)
Theorem missing_file_aborts_the_run :
  forall args fin rest w,
    lookup_dir w fin = None ->
    is_csv fin = true ->
    Py.getitem (files w) fin = None ->
    process_files args (fin :: rest) w
    = (logged ("Processing " ++ fin) w, Raise FileNotFoundError)
    /\ files (logged ("Processing " ++ fin) w) = files w
    /\ log (logged ("Processing " ++ fin) w)
       = (log w ++ [("Processing " ++ fin)%string])%list.
Proof.
  intros args fin rest w Hdir Hcsv Hfile.
  split; [|split; reflexivity].
  rewrite (process_files_cons _ _ _ _ Hdir).
  unfold process_file. unfold is_csv in Hcsv. rewrite Hcsv. cbn [negb].
  unfold bind at 1. cbn [info]. unfold bind at 1, open_read at 1.
  cbn [files]. now rewrite Hfile.
Qed.

Lemma missing_file_aborts_the_run_witness :
  process_files (mkArgs false false false) ("jan.csv" :: ["proj.csv"])
    (mkWorld [] [("proj.csv", Text proj_csv)] false false empty_figure [] [])
  = (logged ("Processing " ++ "jan.csv")
       (mkWorld [] [("proj.csv", Text proj_csv)] false false
                empty_figure [] []),
     Raise FileNotFoundError)
  /\ files (logged ("Processing " ++ "jan.csv")
              (mkWorld [] [("proj.csv", Text proj_csv)] false false
                       empty_figure [] []))
     = [("proj.csv", Text proj_csv)]
  /\ log (logged ("Processing " ++ "jan.csv")
            (mkWorld [] [("proj.csv", Text proj_csv)] false false
                     empty_figure [] []))
     = ([] ++ [("Processing " ++ "jan.csv")%string])%list.
Proof.
  apply (missing_file_aborts_the_run
           (mkArgs false false false) "jan.csv" ["proj.csv"]
           (mkWorld [] [("proj.csv", Text proj_csv)] false false
                    empty_figure [] [])); reflexivity.
Defined.

(** X7.  With [--no_export] and without [--save_plot] no run writes,
    replaces or removes a file, whatever paths it is given, directories
    included, and whether it ends with an error or not. *)
Theorem dry_run_leaves_the_files :
  forall args paths w,
    no_export args = true ->
    save_plot args = false ->
    files (fst (process_files args paths w)) = files w.
Proof.
  intros args paths w Hne Hsv.
  apply (RunFacts.keeps_process_files args Hne Hsv paths w).
Qed.

Lemma dry_run_leaves_the_files_witness :
  files (fst (process_files (mkArgs true false true) ["reports"; "x.csv"]
                (mkWorld [("reports", Dir [])]
                         [("reports/jan.csv", Text proj_csv)]
                         true true empty_figure [] [])))
  = [("reports/jan.csv", Text proj_csv)].
Proof.
  apply (dry_run_leaves_the_files
           (mkArgs true false true) ["reports"; "x.csv"]
           (mkWorld [("reports", Dir [])]
                    [("reports/jan.csv", Text proj_csv)]
                    true true empty_figure [] [])); reflexivity.
Defined.

(** X8.  The output files never have the name of the input: the summary
    and the chart of [fin] go to paths other than [fin] and other than
    each other.  The summary gets a name that ends in [.csv], so that a
    later run over the same directory takes it for a report; the chart
    does not. *)
Theorem output_names :
  forall fin,
    out_csv fin <> fin /\ out_png fin <> fin
    /\ out_csv fin <> out_png fin
    /\ is_csv (out_csv fin) = true /\ is_csv (out_png fin) = false.
Proof.
  intros fin. unfold out_csv, out_png, is_csv.
  split; [apply NameFacts.out_name_neq|].
  split; [apply NameFacts.out_name_neq|].
  split.
  - intros H. apply StrFacts.append_inj_l in H. discriminate.
  - now rewrite !NameFacts.endswith_suffix.
Qed.


(** ** A file processed again, and the chart of a second file *)

Lemma out_csv_neq_png fin : out_csv fin <> out_png fin.
Proof.
  unfold out_csv, out_png. intros H.
  apply StrFacts.append_inj_l in H. discriminate.
Qed.

(** X9.  Processing is repeatable when no chart is saved: a file that
    was processed without error is processed without error again, and
    the second pass leaves every file as the first pass left it (the
    summary it writes is the one already there).  This is what happens
    to the files of a subdirectory, which a run over the directory
    above processes more than once. *)
Theorem processing_again_writes_the_same :
  forall args fin w w1,
    save_plot args = false ->
    lookup_dir w fin = None ->
    process_files args [fin] w = (w1, Ok tt) ->
    exists w2,
      process_files args [fin] w1 = (w2, Ok tt)
      /\ files w2 = files w1.
Proof.
  intros args fin w w1 Hsv Hdir Hrun.
  rewrite (process_files_one _ _ _ Hdir) in Hrun.
  destruct (process_file args fin w) as [w1' [[]|e]] eqn:Hfile;
    [|discriminate].
  injection Hrun as ->.
  destruct (is_csv fin) eqn:Hcsv.
  - destruct (ProcessFacts.process_file_ready _ _ _ _ Hcsv Hfile)
      as (text & s & Hget & Hparse & Hlibs & Hpng & Hout).
    destruct (ProcessFacts.process_file_runs args fin w text s
                Hcsv Hget Hparse Hlibs Hpng Hout)
      as (w1' & Hrun1 & Hd & Hm & Hn & Hfiles & _).
    rewrite Hfile in Hrun1. injection Hrun1 as <-.
    unfold files_after in Hfiles. rewrite Hsv in Hfiles.
    assert (Hget1 : Py.getitem (files w1) fin = Some (Text text)).
    { rewrite Hfiles. destruct (no_export args); [assumption|].
      rewrite DictFacts.getitem_setitem_neq; [assumption|].
      apply NameFacts.out_name_neq. }
    destruct (ProcessFacts.process_file_runs args fin w1 text s
                Hcsv Hget1 Hparse)
      as (w2 & Hrun2 & _ & _ & _ & Hfiles2 & _).
    + now rewrite Hm, Hn.
    + intros H. rewrite (RunFacts.isdir_dirs w w1 _ Hd). now apply Hpng.
    + intros H. rewrite (RunFacts.isdir_dirs w w1 _ Hd). now apply Hout.
    + exists w2. split.
      * rewrite process_files_one by now rewrite (lookup_dir_dirs w w1 _ Hd).
        now rewrite Hrun2.
      * rewrite Hfiles2. unfold files_after. rewrite Hsv.
        destruct (no_export args); [reflexivity|].
        rewrite Hfiles. apply RunFacts.setitem_idem.
  - unfold process_file in Hfile. unfold is_csv in Hcsv.
    rewrite Hcsv in Hfile. cbn [negb] in Hfile.
    injection Hfile as <-.
    eexists. split.
    + rewrite process_files_one by exact Hdir.
      unfold process_file. rewrite Hcsv. cbn [negb]. reflexivity.
    + reflexivity.
Qed.

Lemma processing_again_writes_the_same_witness :
  exists w2,
    process_files (mkArgs false false false) ["proj.csv"]
      (fst (process_files (mkArgs false false false) ["proj.csv"]
              (mkWorld [] [("proj.csv", Text proj_csv)] false false
                       empty_figure [] [])))
    = (w2, Ok tt)
    /\ files w2
       = files (fst (process_files (mkArgs false false false) ["proj.csv"]
                       (mkWorld [] [("proj.csv", Text proj_csv)] false false
                                empty_figure [] []))).
Proof.
  apply (processing_again_writes_the_same
           (mkArgs false false false) "proj.csv"
           (mkWorld [] [("proj.csv", Text proj_csv)] false false
                    empty_figure [] [])).
  - reflexivity.
  - reflexivity.
  - vm_compute. reflexivity.
Defined.

(** X10.  With [--save_plot] and without [--plot] the figure is never
    cleared: [create_chart] draws on the current figure of [pyplot],
    which nothing closes.  So when two files are processed one after
    the other and the run returns, the chart saved for the second one
    holds the bars of the first file and, drawn over them, its own,
    under the tick labels of the second file alone. *)
Theorem second_chart_keeps_the_first_bars :
  forall args f1 f2 w w2 t1 t2 s1 s2,
    save_plot args = true ->
    plot args = false ->
    lookup_dir w f1 = None -> lookup_dir w f2 = None ->
    is_csv f1 = true -> is_csv f2 = true ->
    Py.getitem (files w) f1 = Some (Text t1) ->
    parse_qb (TextIO.readlines t1) = Ok s1 ->
    Py.getitem (files w) f2 = Some (Text t2) ->
    parse_qb (TextIO.readlines t2) = Ok s2 ->
    f2 <> out_png f1 -> f2 <> out_csv f1 ->
    process_files args [f1; f2] w = (w2, Ok tt) ->
    exists fig,
      Py.getitem (files w2) (out_png f2) = Some (Image fig)
      /\ bars fig
         = (bars (current w) ++ [Py.values s1; Py.values s2])%list
      /\ xticks fig = Py.keys s2.
Proof.
  intros args f1 f2 w w2 t1 t2 s1 s2 Hsv Hpl Hd1 Hd2 Hc1 Hc2
         Hg1 Hp1 Hg2 Hp2 Hn1 Hn2 Hrun.
  rewrite (process_files_cons _ _ _ _ Hd1) in Hrun.
  destruct (process_file args f1 w) as [w1 [[]|e]] eqn:Hfile1;
    [|discriminate].
  destruct (ProcessFacts.process_file_ready _ _ _ _ Hc1 Hfile1)
    as (text & s & Hget & Hparse & Hlibs & Hpng & Hout).
  rewrite Hg1 in Hget. injection Hget as <-.
  rewrite Hp1 in Hparse. injection Hparse as <-.
  destruct (ProcessFacts.process_file_runs args f1 w t1 s1
              Hc1 Hg1 Hp1 Hlibs Hpng Hout)
    as (w1' & Hrun1 & Hdirs & Hm & Hn & Hfiles & Hcur).
  rewrite Hfile1 in Hrun1. injection Hrun1 as <-.
  rewrite Hsv, Hpl in Hcur. unfold files_after in Hfiles.
  rewrite Hsv in Hfiles.
  assert (Hd2' : lookup_dir w1 f2 = None)
    by now rewrite (lookup_dir_dirs w w1 _ Hdirs).
  rewrite (process_files_one _ _ _ Hd2') in Hrun.
  destruct (process_file args f2 w1) as [w2' [[]|e]] eqn:Hfile2;
    [|discriminate].
  injection Hrun as ->.
  assert (Hg2' : Py.getitem (files w1) f2 = Some (Text t2)).
  { rewrite Hfiles. destruct (no_export args).
    - rewrite DictFacts.getitem_setitem_neq by congruence. assumption.
    - rewrite !DictFacts.getitem_setitem_neq by congruence. assumption. }
  destruct (ProcessFacts.process_file_ready _ _ _ _ Hc2 Hfile2)
    as (text & s & Hget & Hparse & Hlibs2 & Hpng2 & Hout2).
  rewrite Hg2' in Hget. injection Hget as <-.
  rewrite Hp2 in Hparse. injection Hparse as <-.
  destruct (ProcessFacts.process_file_runs args f2 w1 t2 s2
              Hc2 Hg2' Hp2 Hlibs2 Hpng2 Hout2)
    as (w2' & Hrun2 & _ & _ & _ & Hfiles2 & _).
  rewrite Hfile2 in Hrun2. injection Hrun2 as <-.
  unfold files_after in Hfiles2. rewrite Hsv in Hfiles2.
  exists (chart_of w1 s2). split.
  - rewrite Hfiles2. destruct (no_export args).
    + apply DictFacts.getitem_setitem_eq.
    + rewrite DictFacts.getitem_setitem_neq by apply out_csv_neq_png.
      apply DictFacts.getitem_setitem_eq.
  - unfold chart_of at 1 2. cbn [bars xticks]. rewrite Hcur.
    unfold chart_of. cbn [bars]. split; [|reflexivity].
    now rewrite <- app_assoc.
Qed.

Lemma second_chart_keeps_the_first_bars_witness :
  exists fig,
    Py.getitem
      (files (fst (process_files (mkArgs false true false)
                     ["a.csv"; "b.csv"]
                     (mkWorld [] [("a.csv", Text proj_csv);
                                  ("b.csv", Text proj_csv)]
                              true true empty_figure [] []))))
      (out_png "b.csv")
    = Some (Image fig)
    /\ bars fig
       = ([] ++ [Py.values proj_summary; Py.values proj_summary])%list
    /\ xticks fig = Py.keys proj_summary.
Proof.
  apply (second_chart_keeps_the_first_bars
           (mkArgs false true false) "a.csv" "b.csv"
           (mkWorld [] [("a.csv", Text proj_csv); ("b.csv", Text proj_csv)]
                    true true empty_figure [] [])
           (fst (process_files (mkArgs false true false)
                   ["a.csv"; "b.csv"]
                   (mkWorld [] [("a.csv", Text proj_csv);
                                ("b.csv", Text proj_csv)]
                            true true empty_figure [] [])))
           proj_csv proj_csv proj_summary proj_summary).
  - reflexivity.
  - reflexivity.
  - reflexivity.
  - reflexivity.
  - reflexivity.
  - reflexivity.
  - reflexivity.
  - vm_compute. reflexivity.
  - reflexivity.
  - vm_compute. reflexivity.
  - vm_compute. discriminate.
  - vm_compute. discriminate.
  - vm_compute. reflexivity.
Defined.


(** ** The rows of a report *)




Lemma parse_rows_selected rows err :
  Forall (fun r => row_project r <> None) rows ->
  forall days,
    parse_rows days rows err = parse_rows days (filter selected rows) err.
Proof.
  induction 1 as [|r rows Hr _ IH]; intros days; [reflexivity|].
  cbn [filter]. destruct (selected r) eqn:Hsel.
  - cbn [parse_rows]. destruct (parse_row days r); [apply IH|reflexivity].
  - cbn [parse_rows]. unfold parse_row, selected in *.
    destruct (row_project r) as [label|]; [|contradiction].
    rewrite Hsel. apply IH.
Qed.

(** X12.  Only the rows the guard selects count: when every row has a
    second field, the result of [parse_qb], summary or error, is the
    one it gives for the selected rows alone, whatever the other rows
    hold. *)
Theorem detail_rows_are_ignored :
  forall rows err,
    Forall (fun r => row_project r <> None) rows ->
    parse_qb_rows rows err = parse_qb_rows (filter selected rows) err.
Proof.
  intros rows err H. unfold parse_qb_rows.
  now rewrite (parse_rows_selected rows err H []).
Qed.

Lemma detail_rows_are_ignored_witness :
  parse_qb_rows
    (DictReader [["a"; "Alpha"; "c"; "d"; "Jane"; "Billable"; "oops"];
                 ["a"; "Total Alpha"; "c"; "d"; ""; ""; "40"]]) None
  = parse_qb_rows
      (filter selected
         (DictReader [["a"; "Alpha"; "c"; "d"; "Jane"; "Billable"; "oops"];
                      ["a"; "Total Alpha"; "c"; "d"; ""; ""; "40"]])) None.
Proof.
  apply (detail_rows_are_ignored
           (DictReader [["a"; "Alpha"; "c"; "d"; "Jane"; "Billable"; "oops"];
                        ["a"; "Total Alpha"; "c"; "d"; ""; ""; "40"]])
           None).
  repeat constructor; discriminate.
Defined.


(** ** Reports without quotes *)










